(** * Robotor task core: a shallow embedding of the task-lifecycle engine

    The development follows the TypeScript sources of the task core:
    [TaskStateMachine.ts], [ServiceRegistry.ts], [TaskRegistry.ts],
    [TaskFactory.ts], [PluginManager.ts] and [TaskManager.ts].

    Conventions of the embedding.
    - A JavaScript [Map<string, V>] is a [gmap string V]; [Map.get] is the
      lookup [!!], [Map.set] is [<[k:=v]>], [Map.delete] is [delete].
    - A method that mutates [this] takes the object's state and returns the
      new state; a method that may [throw] returns [Thrown + A] next to the
      state it leaves behind, because a JavaScript exception does not undo
      the writes made before it.
    - A rejected promise is the same as a thrown value.  An [await] takes
      the way the awaited promise settles; in the task manager, whose calls
      may overlap, it also takes what the other callers do to the manager
      during the suspension.
    - Lines written to the console are kept only where a method does nothing
      else ([transition]). *)

From Stdlib Require Import Ascii DecimalString.
From stdpp Require Import gmap strings list fin_maps.

Open Scope string_scope.

(** ** JavaScript values and thrown values *)

(** The fragment of JavaScript values that the registries can hold.  Objects
    are opaque and identified by a reference. *)
Inductive JsValue : Type :=
| JsUndefined
| JsNull
| JsBool (b : bool)
| JsNum (n : Z)
| JsStr (s : string)
| JsObj (ref : nat).

(** [!v] is [negb (truthy v)]. *)
Definition truthy (v : JsValue) : bool :=
  match v with
  | JsUndefined | JsNull => false
  | JsBool b => b
  | JsNum n => negb (n =? 0)%Z
  | JsStr s => negb (String.eqb s "")
  | JsObj _ => true
  end.

(** A thrown value is an [Error] instance carrying a message, or any other
    value, of which only its [String(..)] rendering is kept. *)
Inductive Thrown : Type :=
| Error (message : string)
| NonError (rendering : string).

(** [error instanceof Error ? error.message : String(error)] *)
Definition error_text (e : Thrown) : string :=
  match e with
  | Error m => m
  | NonError s => s
  end.

(** [Map.get] yields [undefined] for a missing key. *)
Definition Map_get (m : gmap string JsValue) (k : string) : JsValue :=
  default JsUndefined (m !! k).

(** [Map.has] *)
Definition Map_has {V} (m : gmap string V) (k : string) : bool :=
  bool_decide (is_Some (m !! k)).

(** Template-literal rendering of a non-negative integer. *)
Definition decimal (n : nat) : string := NilZero.string_of_uint (Nat.to_uint n).

(** ** types/task.ts *)

Inductive TaskStatus : Type :=
| CREATED | QUEUED | RUNNING | PAUSED | COMPLETED | FAILED | CANCELLED | RETRYING.

(** The string value of each enum member; this is what a template literal
    prints. *)
Definition status_value (s : TaskStatus) : string :=
  match s with
  | CREATED => "created"
  | QUEUED => "queued"
  | RUNNING => "running"
  | PAUSED => "paused"
  | COMPLETED => "completed"
  | FAILED => "failed"
  | CANCELLED => "cancelled"
  | RETRYING => "retrying"
  end.

#[global] Instance TaskStatus_eq_dec : EqDecision TaskStatus.
Proof. solve_decision. Defined.

Definition TaskStatus_index (s : TaskStatus) : nat :=
  match s with
  | CREATED => 0 | QUEUED => 1 | RUNNING => 2 | PAUSED => 3
  | COMPLETED => 4 | FAILED => 5 | CANCELLED => 6 | RETRYING => 7
  end.

Definition TaskStatus_of_index (n : nat) : TaskStatus :=
  match n with
  | 0 => CREATED | 1 => QUEUED | 2 => RUNNING | 3 => PAUSED
  | 4 => COMPLETED | 5 => FAILED | 6 => CANCELLED | _ => RETRYING
  end.

#[global] Instance TaskStatus_countable : Countable TaskStatus.
Proof.
  refine (inj_countable' TaskStatus_index TaskStatus_of_index _).
  intros []; reflexivity.
Defined.

(** Object.values(TaskStatus) *)
Definition all_statuses : list TaskStatus :=
  [CREATED; QUEUED; RUNNING; PAUSED; COMPLETED; FAILED; CANCELLED; RETRYING].

Inductive TaskPriority : Type := LOW | NORMAL | HIGH | CRITICAL.

Definition priority_value (p : TaskPriority) : Z :=
  match p with
  | LOW => 1 | NORMAL => 5 | HIGH => 10 | CRITICAL => 15
  end.

#[global] Instance TaskPriority_eq_dec : EqDecision TaskPriority.
Proof. solve_decision. Defined.

Record RetryPolicy : Type := {
  maxRetries : Z;
  backoffMs : Z;
  exponential : bool
}.

Record ResourceLimits : Type := {
  maxMemory : Z;
  maxCpu : Z;
  maxConcurrent : Z
}.

Record TaskConfig : Type := {
  timeout : Z;
  retryPolicy : RetryPolicy;
  resourceLimits : ResourceLimits;
  environment : gmap string JsValue
}.

Record CancellationToken : Type := {
  isCancellationRequested : bool
}.

(** The counters of the metrics record; its clock readings and its memory
    and CPU records are left out. *)
Record TaskMetrics : Type := {
  duration : option Z;
  ioOperations : Z;
  networkRequests : Z;
  errorCount : Z
}.

Record TaskResult : Type := {
  success : bool;
  output : JsValue;
  metrics : TaskMetrics
}.

(** The execution context; [services] is the content of the service registry
    the context points to. *)
Record TaskContext : Type := {
  inputs : gmap string JsValue;
  config : TaskConfig;
  services : gmap string JsValue;
  cancellationToken : CancellationToken
}.

(** A task: its read-only data and the outcome of each of its asynchronous
    operations ([inl e]: the promise rejects with [e]). *)
Record Task : Type := {
  id : string;
  type : string;
  status : TaskStatus;
  priority : TaskPriority;
  createdAt : Z;
  updatedAt : Z;
  execute : TaskContext -> Thrown + TaskResult;
  cancel : option string -> Thrown + unit;
  pause : Thrown + unit;
  resume : Thrown + unit
}.

(** ** TaskStateMachine.ts *)

Module StateMachine.

(** [Map<TaskStatus, Set<TaskStatus>>]; a [Set] keeps its members in
    insertion order, without duplicates. *)
Record TaskStateMachineImpl : Type := {
  transitions : gmap TaskStatus (list TaskStatus)
}.

(** [new Set([...])] *)
Fixpoint new_Set (l : list TaskStatus) : list TaskStatus :=
  match l with
  | [] => []
  | x :: r => x :: filter (λ y, y ≠ x) (new_Set r)
  end.

Definition Set_has (s : list TaskStatus) (x : TaskStatus) : bool :=
  bool_decide (x ∈ s).

Definition Set_add (s : list TaskStatus) (x : TaskStatus) : list TaskStatus :=
  if Set_has s x then s else s ++ [x].

Definition Set_delete (s : list TaskStatus) (x : TaskStatus) : list TaskStatus :=
  filter (λ y, y ≠ x) s.

Definition defineTransitions (t : gmap TaskStatus (list TaskStatus))
  : gmap TaskStatus (list TaskStatus) :=
  let t := <[CREATED := new_Set [QUEUED; RUNNING; CANCELLED]]> t in
  let t := <[QUEUED := new_Set [RUNNING; CANCELLED]]> t in
  let t := <[RUNNING := new_Set [COMPLETED; FAILED; CANCELLED; PAUSED]]> t in
  let t := <[PAUSED := new_Set [RUNNING; CANCELLED]]> t in
  let t := <[FAILED := new_Set [QUEUED]]> t in
  let t := <[CANCELLED := new_Set [QUEUED]]> t in
  let t := <[RETRYING := new_Set [QUEUED; RUNNING; CANCELLED]]> t in
  t.

(** The constructor. *)
Definition new : TaskStateMachineImpl :=
  {| transitions := defineTransitions ∅ |}.

Definition canTransition (sm : TaskStateMachineImpl) (from to : TaskStatus) : bool :=
  match transitions sm !! from with
  | Some allowedStates => Set_has allowedStates to
  | None => false
  end.

Definition getAllowedTransitions (sm : TaskStateMachineImpl) (st : TaskStatus)
  : list TaskStatus :=
  match transitions sm !! st with
  | Some allowedStates => allowedStates
  | None => []
  end.

Definition addTransition (sm : TaskStateMachineImpl) (from to : TaskStatus)
  : TaskStateMachineImpl :=
  let t :=
    match transitions sm !! from with
    | Some _ => transitions sm
    | None => <[from := []]> (transitions sm)
    end in
  {| transitions := alter (λ s, Set_add s to) from t |}.

Definition removeTransition (sm : TaskStateMachineImpl) (from to : TaskStatus)
  : TaskStateMachineImpl :=
  {| transitions := alter (λ s, Set_delete s to) from (transitions sm) |}.

Definition invalid_transition_message (from to : TaskStatus) : string :=
  "Invalid state transition from " ++ status_value from ++ " to " ++ status_value to.

(** What a call of [transition] leaves behind: the settled promise, the
    task object after the call, and the lines written to the console. *)
Record TransitionRun : Type := {
  settled : Thrown + unit;
  task_after : Task;
  console : list string
}.

(** [transition(task, to)].  The two assignments to the task are commented
    out in the source, so the task object is returned as it came. *)
Definition transition (sm : TaskStateMachineImpl) (task : Task) (to : TaskStatus)
  : TransitionRun :=
  let from := status task in
  if negb (canTransition sm from to) then
    {| settled := inl (Error (invalid_transition_message from to));
       task_after := task;
       console := [] |}
  else
    {| settled := inr tt;
       task_after := task;
       console := ["Task " ++ id task ++ " transitioned from " ++ status_value from
                     ++ " to " ++ status_value to] |}.

(** The table of section 4.2 of the specification, row by row. *)
Definition canonical_edge (from to : TaskStatus) : bool :=
  match from, to with
  | CREATED, (QUEUED | RUNNING | CANCELLED) => true
  | QUEUED, (RUNNING | CANCELLED) => true
  | RUNNING, (COMPLETED | FAILED | CANCELLED | PAUSED) => true
  | PAUSED, (RUNNING | CANCELLED) => true
  | FAILED, QUEUED => true
  | CANCELLED, QUEUED => true
  | RETRYING, (QUEUED | RUNNING | CANCELLED) => true
  | _, _ => false
  end.

(** [getStateGraph()]: a fresh map from every state with an entry to the
    array of its allowed targets. *)
Definition getStateGraph (sm : TaskStateMachineImpl) : gmap TaskStatus (list TaskStatus) :=
  transitions sm.

(** The state machines an embedder can obtain: a constructed one, widened and
    narrowed by [addTransition] and [removeTransition]. *)
Inductive Extended : TaskStateMachineImpl -> Prop :=
| Extended_new : Extended new
| Extended_add (sm : TaskStateMachineImpl) (from to : TaskStatus) :
    Extended sm -> Extended (addTransition sm from to)
| Extended_remove (sm : TaskStateMachineImpl) (from to : TaskStatus) :
    Extended sm -> Extended (removeTransition sm from to).

(** Whether [transition] accepts every step of the walk that starts in [from]
    and visits the states of [path] one after the other. *)
Fixpoint legal_path (sm : TaskStateMachineImpl) (from : TaskStatus)
    (path : list TaskStatus) : bool :=
  match path with
  | [] => true
  | to :: rest => canTransition sm from to && legal_path sm to rest
  end.

End StateMachine.

(** ** Methods that mutate and may throw *)

(** A method run on an object state [S]: it settles with a thrown value or a
    result, and always hands back the state it leaves. *)
Definition Method (S A : Type) : Type := S -> (Thrown + A) * S.

Section Method.
Context {S : Type}.

Definition ret {A} (a : A) : Method S A := λ s, (inr a, s).

Definition throw {A} (e : Thrown) : Method S A := λ s, (inl e, s).

Definition bind {A B} (c : Method S A) (k : A -> Method S B) : Method S B :=
  λ s, match c s with
       | (inr a, s') => k a s'
       | (inl e, s') => (inl e, s')
       end.

Definition get : Method S S := λ s, (inr s, s).

Definition modify (f : S -> S) : Method S unit := λ s, (inr tt, f s).

(** [try { c } catch (error) { h error }] *)
Definition try_catch {A} (c : Method S A) (h : Thrown -> Method S A) : Method S A :=
  λ s, match c s with
       | (inr a, s') => (inr a, s')
       | (inl e, s') => h e s'
       end.

(** [try { c } finally { f }], for a [finally] block that cannot throw. *)
Definition try_finally {A} (c : Method S A) (f : S -> S) : Method S A :=
  λ s, let '(r, s') := c s in (r, f s').

(** [await p]: the promise settles with [outcome]; while the caller is
    suspended, whatever else runs on the event loop turns the state into
    [interleaved s]. *)
Definition await {A} (outcome : Thrown + A) (interleaved : S -> S) : Method S A :=
  λ s, (outcome, interleaved s).

(** Nothing else runs during the suspension. *)
Definition uninterrupted : S -> S := λ s, s.

(** [for (const x of l) { body x }] *)
Fixpoint for_of {A} (l : list A) (body : A -> Method S unit) : Method S unit :=
  match l with
  | [] => ret tt
  | x :: r => bind (body x) (λ _, for_of r body)
  end.

(** [Array.from({ length: n }, fn)] and [l.map(fn)] for an [fn] with
    effects: the calls are made left to right, and the first throw ends
    the whole evaluation. *)
Fixpoint Array_from {A} (n : nat) (fn : Method S A) : Method S (list A) :=
  match n with
  | O => ret []
  | Datatypes.S k => bind fn (λ x, bind (Array_from k fn) (λ xs, ret (x :: xs)))
  end.

Fixpoint Array_map {A B} (l : list A) (fn : A -> Method S B) : Method S (list B) :=
  match l with
  | [] => ret []
  | x :: r => bind (fn x) (λ y, bind (Array_map r fn) (λ ys, ret (y :: ys)))
  end.
End Method.

(** Run a method of a component on the field of the object that holds it. *)
Definition on_field {S T A} (proj : S -> T) (upd : T -> S -> S) (c : Method T A)
  : Method S A :=
  λ s, let '(r, t) := c (proj s) in (r, upd t s).

Declare Scope method_scope.
Delimit Scope method_scope with method.
Notation "'do' x <- c ; k" := (bind c (λ x, k))
  (at level 10, x name, c at level 100, k at level 200) : method_scope.
Notation "'do' ' p <- c ; k" := (bind c (λ x, match x with p => k end))
  (at level 10, p pattern, c at level 100, k at level 200) : method_scope.
Notation "c ;; k" := (bind c (λ _, k))
  (at level 100, k at level 200, right associativity) : method_scope.
Open Scope method_scope.

(** ** ServiceRegistry.ts *)

Module ServiceRegistry.

Record ServiceConfig : Type := {
  singleton : option bool;
  dependencies : option (list string);
  tags : option (list string)
}.

Record TaskServiceRegistry : Type := {
  services : gmap string JsValue;
  serviceConfigs : gmap string ServiceConfig
}.

Definition new : TaskServiceRegistry :=
  {| services := ∅; serviceConfigs := ∅ |}.

Definition not_found_message (serviceId : string) : string :=
  "Service " ++ serviceId ++ " not found".

Definition already_registered_message (serviceId : string) : string :=
  "Service " ++ serviceId ++ " is already registered".

Definition not_registered_message (serviceId : string) : string :=
  "Service " ++ serviceId ++ " is not registered".

Definition getService (serviceId : string) : Method TaskServiceRegistry JsValue :=
  do r <- get;
  let service := Map_get (services r) serviceId in
  if negb (truthy service) then throw (Error (not_found_message serviceId))
  else ret service.

Definition registerService (serviceId : string) (service : JsValue)
  : Method TaskServiceRegistry unit :=
  do r <- get;
  if Map_has (services r) serviceId
  then throw (Error (already_registered_message serviceId))
  else modify (λ r, {| services := <[serviceId := service]> (services r);
                       serviceConfigs := serviceConfigs r |}).

Definition unregisterService (serviceId : string) : Method TaskServiceRegistry unit :=
  do r <- get;
  if negb (Map_has (services r) serviceId)
  then throw (Error (not_registered_message serviceId))
  else modify (λ r, {| services := delete serviceId (services r);
                       serviceConfigs := delete serviceId (serviceConfigs r) |}).

Definition hasService (r : TaskServiceRegistry) (serviceId : string) : bool :=
  Map_has (services r) serviceId.

Definition registerServiceConfig (serviceId : string) (cfg : ServiceConfig)
  (r : TaskServiceRegistry) : TaskServiceRegistry :=
  {| services := services r;
     serviceConfigs := <[serviceId := cfg]> (serviceConfigs r) |}.

Definition getServiceConfig (r : TaskServiceRegistry) (serviceId : string)
  : option ServiceConfig :=
  serviceConfigs r !! serviceId.

Definition clear (r : TaskServiceRegistry) : TaskServiceRegistry := new.

Definition size (r : TaskServiceRegistry) : nat := size (services r).

End ServiceRegistry.

(** ** TaskRegistry.ts *)

Record TaskType : Type := {
  name : string;
  description : string;
  version : string;
  type_priority : TaskPriority;
  type_config : TaskConfig;
  createTask : string -> gmap string JsValue -> Task
}.

Module TaskRegistry.

Record TaskTypeConfig : Type := {
  enabled : bool;
  priority : Z;
  settings : gmap string JsValue;
  dependencies : option (list string);
  tags : option (list string)
}.

Record TaskRegistryImpl : Type := {
  taskTypes : gmap string TaskType;
  taskTypeConfigs : gmap string TaskTypeConfig
}.

Definition new : TaskRegistryImpl :=
  {| taskTypes := ∅; taskTypeConfigs := ∅ |}.

Definition already_registered_message (taskTypeName : string) : string :=
  "Task type " ++ taskTypeName ++ " is already registered".

Definition not_registered_message (taskTypeName : string) : string :=
  "Task type " ++ taskTypeName ++ " is not registered".

Definition hasTaskType (r : TaskRegistryImpl) (taskTypeName : string) : bool :=
  Map_has (taskTypes r) taskTypeName.

Definition getTaskType (r : TaskRegistryImpl) (taskTypeName : string)
  : option TaskType :=
  taskTypes r !! taskTypeName.

Definition register (taskType : TaskType) : Method TaskRegistryImpl unit :=
  do r <- get;
  if Map_has (taskTypes r) (name taskType)
  then throw (Error (already_registered_message (name taskType)))
  else modify (λ r, {| taskTypes := <[name taskType := taskType]> (taskTypes r);
                       taskTypeConfigs := taskTypeConfigs r |}).

Definition unregister (taskTypeName : string) : Method TaskRegistryImpl unit :=
  do r <- get;
  if negb (Map_has (taskTypes r) taskTypeName)
  then throw (Error (not_registered_message taskTypeName))
  else modify (λ r, {| taskTypes := delete taskTypeName (taskTypes r);
                       taskTypeConfigs := delete taskTypeName (taskTypeConfigs r) |}).

Definition registerTaskTypeConfig (taskTypeName : string) (cfg : TaskTypeConfig)
  : Method TaskRegistryImpl unit :=
  do r <- get;
  if negb (hasTaskType r taskTypeName)
  then throw (Error (not_registered_message taskTypeName))
  else modify (λ r, {| taskTypes := taskTypes r;
                       taskTypeConfigs := <[taskTypeName := cfg]> (taskTypeConfigs r) |}).

Definition getTaskTypeConfig (r : TaskRegistryImpl) (taskTypeName : string)
  : option TaskTypeConfig :=
  taskTypeConfigs r !! taskTypeName.

Definition clear (r : TaskRegistryImpl) : TaskRegistryImpl := new.

Definition size (r : TaskRegistryImpl) : nat := size (taskTypes r).

End TaskRegistry.

(** ** TaskFactory.ts *)

Module TaskFactory.

(** The factory holds a reference to the registry; [registry] is the
    content of that registry when a method runs. *)
Record TaskFactoryImpl : Type := {
  registry : TaskRegistry.TaskRegistryImpl;
  taskCache : gmap string Task
}.

Definition new (registry : TaskRegistry.TaskRegistryImpl) : TaskFactoryImpl :=
  {| registry := registry; taskCache := ∅ |}.

Definition type_not_found_message (taskTypeName : string) : string :=
  "Task type " ++ taskTypeName ++ " not found".

Definition cache_key (taskTypeName id : string) : string :=
  taskTypeName ++ ":" ++ id.

(** [createTask(taskTypeName, id, inputs)].  A task type and a cached task
    are objects, so [!taskType] and [if (cachedTask)] only test for
    [undefined]. *)
Definition createTask (taskTypeName id : string) (inputs : gmap string JsValue)
  : Method TaskFactoryImpl Task :=
  do f <- get;
  match TaskRegistry.getTaskType (registry f) taskTypeName with
  | None => throw (Error (type_not_found_message taskTypeName))
  | Some taskType =>
      let cacheKey := cache_key taskTypeName id in
      match taskCache f !! cacheKey with
      | Some cachedTask => ret cachedTask
      | None =>
          let task := taskType.(createTask) id inputs in
          modify (λ f, {| registry := registry f;
                          taskCache := <[cacheKey := task]> (taskCache f) |});;
          ret task
      end
  end.

Definition isTaskTypeSupported (f : TaskFactoryImpl) (taskTypeName : string) : bool :=
  TaskRegistry.hasTaskType (registry f) taskTypeName.

Definition getTaskTypeInfo (f : TaskFactoryImpl) (taskTypeName : string)
  : option TaskType :=
  TaskRegistry.getTaskType (registry f) taskTypeName.

Record TaskSpec : Type := {
  spec_type : string;
  spec_id : string;
  spec_inputs : gmap string JsValue
}.

Definition createTasks (taskSpecs : list TaskSpec) : Method TaskFactoryImpl (list Task) :=
  Array_map taskSpecs (λ spec, createTask (spec_type spec) (spec_id spec) (spec_inputs spec)).

Definition clearCache (f : TaskFactoryImpl) : TaskFactoryImpl :=
  {| registry := registry f; taskCache := ∅ |}.

Definition getCacheSize (f : TaskFactoryImpl) : nat := size (taskCache f).

(** *** createTaskGenerator *)

(** The closure returned by [createTaskGenerator]: the captured arguments
    and the captured variable [counter], shared by [next] and
    [createBatch]. *)
Record TaskGenerator : Type := {
  gen_taskTypeName : string;
  gen_inputs : gmap string JsValue;
  counter : nat
}.

Definition createTaskGenerator (taskTypeName : string) (inputs : gmap string JsValue)
  : TaskGenerator :=
  {| gen_taskTypeName := taskTypeName; gen_inputs := inputs; counter := 0 |}.

(** [`${taskTypeName}-${++counter}`]: increments the captured counter and
    yields the id built from the new value. *)
Definition mint_id : Method (TaskGenerator * TaskFactoryImpl) string :=
  do '(g, _) <- get;
  modify (λ '(g, f), ({| gen_taskTypeName := gen_taskTypeName g;
                         gen_inputs := gen_inputs g;
                         counter := S (counter g) |}, f));;
  ret (gen_taskTypeName g ++ "-" ++ decimal (S (counter g))).

Definition on_factory {A} (c : Method TaskFactoryImpl A)
  : Method (TaskGenerator * TaskFactoryImpl) A :=
  on_field snd (λ f '(g, _), (g, f)) c.

Definition next : Method (TaskGenerator * TaskFactoryImpl) Task :=
  do '(g, _) <- get;
  do taskId <- mint_id;
  on_factory (createTask (gen_taskTypeName g) taskId (gen_inputs g)).

Definition createBatch (count : nat) : Method (TaskGenerator * TaskFactoryImpl) (list Task) :=
  do '(g, _) <- get;
  Array_from count
    (do taskId <- mint_id;
     on_factory (createTask (gen_taskTypeName g) taskId (gen_inputs g))).

(** *** createTaskBuilder *)

(** The variables captured by the builder; [id] and [priority] are
    declared without a value, so they start as [undefined]. *)
Record TaskBuilder : Type := {
  builder_taskTypeName : string;
  builder_id : option string;
  builder_inputs : gmap string JsValue;
  builder_priority : option Z
}.

Definition createTaskBuilder (taskTypeName : string) : TaskBuilder :=
  {| builder_taskTypeName := taskTypeName;
     builder_id := None;
     builder_inputs := ∅;
     builder_priority := None |}.

Definition withId (taskId : string) (b : TaskBuilder) : TaskBuilder :=
  {| builder_taskTypeName := builder_taskTypeName b;
     builder_id := Some taskId;
     builder_inputs := builder_inputs b;
     builder_priority := builder_priority b |}.

(** [{ ...inputs, ...taskInputs }]: later keys win. *)
Definition withInputs (taskInputs : gmap string JsValue) (b : TaskBuilder) : TaskBuilder :=
  {| builder_taskTypeName := builder_taskTypeName b;
     builder_id := builder_id b;
     builder_inputs := taskInputs ∪ builder_inputs b;
     builder_priority := builder_priority b |}.

Definition withInput (key : string) (value : JsValue) (b : TaskBuilder) : TaskBuilder :=
  {| builder_taskTypeName := builder_taskTypeName b;
     builder_id := builder_id b;
     builder_inputs := <[key := value]> (builder_inputs b);
     builder_priority := builder_priority b |}.

Definition withPriority (taskPriority : Z) (b : TaskBuilder) : TaskBuilder :=
  {| builder_taskTypeName := builder_taskTypeName b;
     builder_id := builder_id b;
     builder_inputs := builder_inputs b;
     builder_priority := Some taskPriority |}.

(** [!id] for a variable of type [string] that may still be [undefined]. *)
Definition id_is_falsy (id : option string) : bool :=
  match id with
  | None => true
  | Some s => String.eqb s ""
  end.

Definition missing_id_message : string := "Task ID is required".

Definition build (b : TaskBuilder) : Method TaskFactoryImpl Task :=
  if id_is_falsy (builder_id b) then throw (Error missing_id_message)
  else createTask (builder_taskTypeName b) (default "" (builder_id b)) (builder_inputs b).

(** *** Cache management *)

(** [removeFromCache(taskId)].  [entries] is the sequence in which the loop
    visits the cache, that is, its entries in insertion order; the first
    entry whose task has the id is deleted and the loop stops. *)
Definition removeFromCache (entries : list (string * Task)) (taskId : string)
    (f : TaskFactoryImpl) : TaskFactoryImpl :=
  match List.find (λ entry, String.eqb (id entry.2) taskId) entries with
  | Some (key, _) => {| registry := registry f; taskCache := delete key (taskCache f) |}
  | None => f
  end.

(** *** createLazyTask *)

(** The closure returned by [createLazyTask]: the captured arguments and the
    captured variable [task], [null] until the first [get]. *)
Record LazyTask : Type := {
  lazy_taskTypeName : string;
  lazy_id : string;
  lazy_inputs : gmap string JsValue;
  lazy_task : option Task
}.

Definition createLazyTask (taskTypeName id : string) (inputs : gmap string JsValue)
  : LazyTask :=
  {| lazy_taskTypeName := taskTypeName; lazy_id := id; lazy_inputs := inputs;
     lazy_task := None |}.

Definition lazy_set (task : option Task) (l : LazyTask) : LazyTask :=
  {| lazy_taskTypeName := lazy_taskTypeName l; lazy_id := lazy_id l;
     lazy_inputs := lazy_inputs l; lazy_task := task |}.

(** The handle's [get()]. *)
Definition lazy_get : Method (LazyTask * TaskFactoryImpl) Task :=
  do '(l, _) <- get;
  match lazy_task l with
  | Some task => ret task
  | None =>
      do task <- on_field snd (λ f '(l, _), (l, f))
                   (createTask (lazy_taskTypeName l) (lazy_id l) (lazy_inputs l));
      modify (λ '(l, f), (lazy_set (Some task) l, f));;
      ret task
  end.

Definition isInitialized (l : LazyTask) : bool :=
  bool_decide (lazy_task l ≠ None).

Definition reset (l : LazyTask) : LazyTask := lazy_set None l.

End TaskFactory.

(** ** PluginManager.ts *)

Module PluginManager.

Record PluginConfig : Type := {
  enabled : bool;
  priority : Z;
  settings : gmap string JsValue
}.

Record PluginContext : Type := {
  context_registry : TaskRegistry.TaskRegistryImpl;
  context_services : ServiceRegistry.TaskServiceRegistry;
  context_config : PluginConfig
}.

(** What a call of [initialize] comes to.  The context hands the plugin the
    live registry, the live services and the live configuration object, so
    the call is given by the way its promise settles together with the
    contents it leaves in these three objects. *)
Record Initialization : Type := {
  init_outcome : Thrown + unit;
  init_registry : TaskRegistry.TaskRegistryImpl;
  init_services : ServiceRegistry.TaskServiceRegistry;
  init_config : PluginConfig
}.

(** An [initialize] that only settles and touches nothing it is handed. *)
Definition settles (outcome : Thrown + unit) (context : PluginContext) : Initialization :=
  {| init_outcome := outcome;
     init_registry := context_registry context;
     init_services := context_services context;
     init_config := context_config context |}.

(** An object that passes [isValidPlugin].  [initialize] takes the contents
    of the context's objects at the time of the call; [destroy] is handed
    nothing and is given by the way its promise settles; [getTaskTypes]
    returns the same array on every call. *)
Record TaskPlugin : Type := {
  plugin_name : string;
  plugin_version : string;
  plugin_description : string;
  initialize : PluginContext -> Initialization;
  destroy : Thrown + unit;
  getTaskTypes : list TaskType
}.

(** What [import(pluginPath)] followed by [new PluginClass()] and the
    structural check can come to. *)
Inductive Imported : Type :=
| ImportRejects (e : Thrown)
| NoPluginClass
| ConstructorThrows (e : Thrown)
| InvalidStructure
| Constructed (plugin : TaskPlugin).

(** The plugin manager.  A configuration is a mutable object that the map
    holds by reference: [pluginConfigs] maps a name to the reference of its
    configuration object and [configObjects] holds the objects, so that one
    object stored under two names is one object. *)
Record PluginManagerImpl : Type := {
  plugins : gmap string TaskPlugin;
  pluginConfigs : gmap string nat;
  configObjects : gmap nat PluginConfig;
  registry : TaskRegistry.TaskRegistryImpl;
  services : ServiceRegistry.TaskServiceRegistry
}.

Definition new (registry : TaskRegistry.TaskRegistryImpl)
  (services : ServiceRegistry.TaskServiceRegistry) : PluginManagerImpl :=
  {| plugins := ∅; pluginConfigs := ∅; configObjects := ∅;
     registry := registry; services := services |}.

Definition with_registry (r : TaskRegistry.TaskRegistryImpl) (m : PluginManagerImpl)
  : PluginManagerImpl :=
  {| plugins := plugins m; pluginConfigs := pluginConfigs m;
     configObjects := configObjects m;
     registry := r; services := services m |}.

(** [this.pluginConfigs.get(pluginName)], read through the reference. *)
Definition getPluginConfig (m : PluginManagerImpl) (pluginName : string)
  : option PluginConfig :=
  pluginConfigs m !! pluginName ≫= λ config, configObjects m !! config.

Definition on_registry {A} (c : Method TaskRegistry.TaskRegistryImpl A)
  : Method PluginManagerImpl A :=
  on_field registry with_registry c.

Definition default_config : PluginConfig :=
  {| enabled := true; priority := 5; settings := ∅ |}.

Definition load_error_message (pluginPath cause : string) : string :=
  "Failed to load plugin from " ++ pluginPath ++ ": " ++ cause.

Definition unload_error_message (pluginName cause : string) : string :=
  "Failed to unload plugin " ++ pluginName ++ ": " ++ cause.

Definition not_loaded_message (pluginName : string) : string :=
  "Plugin " ++ pluginName ++ " is not loaded".

Definition already_loaded_message (pluginName : string) : string :=
  "Plugin " ++ pluginName ++ " is already loaded".

(** The context handed to [initialize]: the two registries and the
    configuration registered for the plugin's name, or else the default
    one. *)
Definition plugin_context (m : PluginManagerImpl) (plugin : TaskPlugin) : PluginContext :=
  {| context_registry := registry m;
     context_services := services m;
     context_config :=
       default default_config (getPluginConfig m (plugin_name plugin)) |}.

(** The manager after [initialize] has run on the context: registry and
    services are as the call left them, and so is the configuration object
    when it is the one stored under the plugin's name (the default one is a
    new object that only the plugin holds). *)
Definition initialized (plugin : TaskPlugin) (run : Initialization)
    (m : PluginManagerImpl) : PluginManagerImpl :=
  {| plugins := plugins m;
     pluginConfigs := pluginConfigs m;
     configObjects :=
       match pluginConfigs m !! plugin_name plugin with
       | Some config => alter (λ _, init_config run) config (configObjects m)
       | None => configObjects m
       end;
     registry := init_registry run;
     services := init_services run |}.

Section Loader.
(** The module system: what each path resolves to. *)
Variable import : string -> Imported.

(** [loadPlugin(pluginPath)].  The calls of the plugin manager are taken one
    at a time, so no other call overlaps with its awaits; what happens to the
    manager while [initialize] is awaited is what the plugin itself does to
    the objects of the context.  The success line on the console is
    dropped. *)
Definition loadPlugin (pluginPath : string) : Method PluginManagerImpl unit :=
  try_catch
    (match import pluginPath with
     | ImportRejects e => throw e
     | NoPluginClass => throw (Error ("No plugin class found in " ++ pluginPath))
     | ConstructorThrows e => throw e
     | InvalidStructure => throw (Error ("Invalid plugin structure in " ++ pluginPath))
     | Constructed plugin =>
         do m <- get;
         if Map_has (plugins m) (plugin_name plugin)
         then throw (Error (already_loaded_message (plugin_name plugin)))
         else
           let context := plugin_context m plugin in
           let run := initialize plugin context in
           await (init_outcome run) (initialized plugin run);;
           let taskTypes := getTaskTypes plugin in
           for_of taskTypes (λ taskType, on_registry (TaskRegistry.register taskType));;
           modify (λ m, {| plugins := <[plugin_name plugin := plugin]> (plugins m);
                           pluginConfigs := pluginConfigs m;
                           configObjects := configObjects m;
                           registry := registry m;
                           services := services m |})
     end)
    (λ error, throw (Error (load_error_message pluginPath (error_text error)))).
End Loader.

Definition unloadPlugin (pluginName : string) : Method PluginManagerImpl unit :=
  do m <- get;
  match plugins m !! pluginName with
  | None => throw (Error (not_loaded_message pluginName))
  | Some plugin =>
      try_catch
        (await (destroy plugin) uninterrupted;;
         let taskTypes := getTaskTypes plugin in
         for_of taskTypes
           (λ taskType,
              do m <- get;
              if TaskRegistry.hasTaskType (registry m) (name taskType)
              then on_registry (TaskRegistry.unregister (name taskType))
              else ret tt);;
         modify (λ m, {| plugins := delete pluginName (plugins m);
                         pluginConfigs := delete pluginName (pluginConfigs m);
                         configObjects := configObjects m;
                         registry := registry m;
                         services := services m |}))
        (λ error, throw (Error (unload_error_message pluginName (error_text error))))
  end.


Definition getPlugin (m : PluginManagerImpl) (pluginName : string) : option TaskPlugin :=
  plugins m !! pluginName.

(** A caller makes a configuration object: it gets a reference that is not
    in use. *)
Definition new_config (content : PluginConfig) (m : PluginManagerImpl)
  : nat * PluginManagerImpl :=
  let config := fresh (dom (configObjects m)) in
  (config,
   {| plugins := plugins m;
      pluginConfigs := pluginConfigs m;
      configObjects := <[config := content]> (configObjects m);
      registry := registry m;
      services := services m |}).

(** [registerPluginConfig(pluginName, config)] stores the object it is
    given, not a copy of it. *)
Definition registerPluginConfig (pluginName : string) (config : nat)
  (m : PluginManagerImpl) : PluginManagerImpl :=
  {| plugins := plugins m;
     pluginConfigs := <[pluginName := config]> (pluginConfigs m);
     configObjects := configObjects m;
     registry := registry m;
     services := services m |}.

Definition size (m : PluginManagerImpl) : nat := size (plugins m).

(** *** Enabling and disabling *)

Definition with_enabled (flag : bool) (config : PluginConfig) : PluginConfig :=
  {| enabled := flag; priority := priority config; settings := settings config |}.

(** [config.enabled = flag] *)
Definition assign_enabled (flag : bool) (config : nat) (m : PluginManagerImpl)
  : PluginManagerImpl :=
  {| plugins := plugins m;
     pluginConfigs := pluginConfigs m;
     configObjects := alter (with_enabled flag) config (configObjects m);
     registry := registry m;
     services := services m |}.

(** [enablePlugin(pluginName)]: the flag is set on the stored configuration
    object itself, or else on a new object that starts disabled with priority
    5, and the object is stored under the name. *)
Definition enablePlugin (pluginName : string) (m : PluginManagerImpl) : PluginManagerImpl :=
  let '(config, m) :=
    match pluginConfigs m !! pluginName with
    | Some config => (config, m)
    | None => new_config {| enabled := false; priority := 5; settings := ∅ |} m
    end in
  registerPluginConfig pluginName config (assign_enabled true config m).

Definition disablePlugin (pluginName : string) (m : PluginManagerImpl) : PluginManagerImpl :=
  let '(config, m) :=
    match pluginConfigs m !! pluginName with
    | Some config => (config, m)
    | None => new_config {| enabled := true; priority := 5; settings := ∅ |} m
    end in
  registerPluginConfig pluginName config (assign_enabled false config m).

Definition isPluginEnabled (m : PluginManagerImpl) (pluginName : string) : bool :=
  match getPluginConfig m pluginName with
  | Some config => enabled config
  | None => true
  end.

(** *** Plugin information *)

Record PluginInfo : Type := {
  info_name : string;
  info_version : string;
  info_description : string;
  info_taskTypes : list string;
  info_config : option PluginConfig
}.

Definition getPluginInfo (m : PluginManagerImpl) (pluginName : string) : option PluginInfo :=
  match plugins m !! pluginName with
  | None => None
  | Some plugin =>
      Some {| info_name := plugin_name plugin;
              info_version := plugin_version plugin;
              info_description := plugin_description plugin;
              info_taskTypes := List.map name (getTaskTypes plugin);
              info_config := getPluginConfig m pluginName |}
  end.

(** *** clear *)

(** [clear()].  [pluginNames] is the array [getLoadedPlugins()] returns: the
    names of the loaded plugins in insertion order. *)
Definition clear (pluginNames : list string) : Method PluginManagerImpl unit :=
  for_of pluginNames unloadPlugin.

(** *** reloadPlugin *)

(** [s.split('/')] *)
Fixpoint split_slash (s : string) : list string :=
  match s with
  | EmptyString => [EmptyString]
  | String c rest =>
      if Ascii.eqb c "/"%char then EmptyString :: split_slash rest
      else match split_slash rest with
           | segment :: segments => String c segment :: segments
           | [] => [String c EmptyString]
           end
  end.

Definition ends_with (suffix s : string) : bool :=
  (String.length suffix <=? String.length s)%nat
  && String.eqb
       (String.substring (String.length s - String.length suffix) (String.length suffix) s)
       suffix.

(** [s.replace(/\.(js|ts)$/, '')] *)
Definition drop_js_ts_extension (s : string) : string :=
  if ends_with ".js" s || ends_with ".ts" s
  then String.substring 0 (String.length s - 3) s
  else s.

(** [pluginPath.split('/').pop()?.replace(/\.(js|ts)$/, '') || 'unknown'] *)
Definition plugin_name_of_path (pluginPath : string) : string :=
  let base := drop_js_ts_extension (List.last (split_slash pluginPath) "") in
  if String.eqb base "" then "unknown" else base.

Section Reloader.
Variable import : string -> Imported.

Definition reloadPlugin (pluginPath : string) : Method PluginManagerImpl unit :=
  let pluginName := plugin_name_of_path pluginPath in
  do m <- get;
  (if Map_has (plugins m) pluginName then unloadPlugin pluginName else ret tt);;
  loadPlugin import pluginPath.
End Reloader.

End PluginManager.

(** ** TaskManager.ts *)

Module TaskManager.

Record TaskManagerImpl : Type := {
  tasks : gmap string Task;
  taskStates : gmap string TaskStatus;
  activeTasks : gmap string Task;
  serviceRegistry : ServiceRegistry.TaskServiceRegistry;
  stateMachine : StateMachine.TaskStateMachineImpl
}.

Definition new : TaskManagerImpl :=
  {| tasks := ∅; taskStates := ∅; activeTasks := ∅;
     serviceRegistry := ServiceRegistry.new;
     stateMachine := StateMachine.new |}.

(** The three in-place updates the methods make. *)
Definition tasks_set (taskId : string) (task : Task) (m : TaskManagerImpl) :=
  {| tasks := <[taskId := task]> (tasks m); taskStates := taskStates m;
     activeTasks := activeTasks m; serviceRegistry := serviceRegistry m;
     stateMachine := stateMachine m |}.

Definition taskStates_set (taskId : string) (st : TaskStatus) (m : TaskManagerImpl) :=
  {| tasks := tasks m; taskStates := <[taskId := st]> (taskStates m);
     activeTasks := activeTasks m; serviceRegistry := serviceRegistry m;
     stateMachine := stateMachine m |}.

Definition activeTasks_set (taskId : string) (task : Task) (m : TaskManagerImpl) :=
  {| tasks := tasks m; taskStates := taskStates m;
     activeTasks := <[taskId := task]> (activeTasks m);
     serviceRegistry := serviceRegistry m; stateMachine := stateMachine m |}.

Definition activeTasks_delete (taskId : string) (m : TaskManagerImpl) :=
  {| tasks := tasks m; taskStates := taskStates m;
     activeTasks := delete taskId (activeTasks m);
     serviceRegistry := serviceRegistry m; stateMachine := stateMachine m |}.

(** [`task-${Date.now()}-${Math.random().toString(36).substr(2, 9)}`], with
    the clock reading and the random suffix supplied by the caller. *)
Definition generateTaskId (now : nat) (suffix : string) : string :=
  "task-" ++ decimal now ++ "-" ++ suffix.

Definition mock_metrics : TaskMetrics :=
  {| duration := Some 100%Z; ioOperations := 1; networkRequests := 0; errorCount := 0 |}.

Definition mockTask (taskId taskType : string) (now : nat) : Task :=
  {| id := taskId;
     type := taskType;
     status := CREATED;
     priority := NORMAL;
     createdAt := Z.of_nat now;
     updatedAt := Z.of_nat now;
     execute := λ _, inr {| success := true;
                            output := JsStr ("Task " ++ taskId ++ " executed successfully");
                            metrics := mock_metrics |};
     cancel := λ _, inr tt;
     pause := inr tt;
     resume := inr tt |}.

Definition createTask (taskType : string) (inputs : gmap string JsValue)
  (now : nat) (suffix : string) : Method TaskManagerImpl string :=
  let taskId := generateTaskId now suffix in
  modify (tasks_set taskId (mockTask taskId taskType now));;
  modify (taskStates_set taskId CREATED);;
  ret taskId.

Definition not_found_message (taskId : string) : string :=
  "Task " ++ taskId ++ " not found".

Definition not_executable_message (taskId : string) : string :=
  "Task " ++ taskId ++ " is not in executable state".

Definition not_running_message (taskId : string) : string :=
  "Task " ++ taskId ++ " is not running".

Definition not_paused_message (taskId : string) : string :=
  "Task " ++ taskId ++ " is not paused".

Definition default_task_config : TaskConfig :=
  {| timeout := 30000;
     retryPolicy := {| maxRetries := 3; backoffMs := 1000; exponential := false |};
     resourceLimits := {| maxMemory := 100; maxCpu := 80; maxConcurrent := 10 |};
     environment := ∅ |}.

Definition execution_context (m : TaskManagerImpl) : TaskContext :=
  {| inputs := ∅;
     config := default_task_config;
     services := ServiceRegistry.services (serviceRegistry m);
     cancellationToken := {| isCancellationRequested := false |} |}.

(** [executeTask(taskId)].  [interleaved] is what other callers do to the
    manager while this call is suspended on [task.execute]. *)
Definition executeTask (taskId : string) (interleaved : TaskManagerImpl -> TaskManagerImpl)
  : Method TaskManagerImpl TaskResult :=
  do m <- get;
  match tasks m !! taskId with
  | None => throw (Error (not_found_message taskId))
  | Some task =>
      let currentStatus := taskStates m !! taskId in
      if bool_decide (currentStatus ≠ Some CREATED)
         && bool_decide (currentStatus ≠ Some QUEUED)
      then throw (Error (not_executable_message taskId))
      else
        modify (activeTasks_set taskId task);;
        try_finally
          (try_catch
             (modify (taskStates_set taskId RUNNING);;
              do m <- get;
              let context := execution_context m in
              do result <- await (execute task context) interleaved;
              modify (taskStates_set taskId COMPLETED);;
              ret result)
             (λ error,
                modify (taskStates_set taskId FAILED);;
                throw error))
          (activeTasks_delete taskId)
  end.

Definition cancelTask (taskId : string) (reason : option string)
  (interleaved : TaskManagerImpl -> TaskManagerImpl) : Method TaskManagerImpl unit :=
  do m <- get;
  match tasks m !! taskId with
  | None => throw (Error (not_found_message taskId))
  | Some task =>
      await (cancel task reason) interleaved;;
      modify (taskStates_set taskId CANCELLED);;
      modify (activeTasks_delete taskId)
  end.

Definition pauseTask (taskId : string)
  (interleaved : TaskManagerImpl -> TaskManagerImpl) : Method TaskManagerImpl unit :=
  do m <- get;
  match tasks m !! taskId with
  | None => throw (Error (not_found_message taskId))
  | Some task =>
      let currentStatus := taskStates m !! taskId in
      if bool_decide (currentStatus ≠ Some RUNNING)
      then throw (Error (not_running_message taskId))
      else
        await (pause task) interleaved;;
        modify (taskStates_set taskId PAUSED)
  end.

Definition resumeTask (taskId : string)
  (interleaved : TaskManagerImpl -> TaskManagerImpl) : Method TaskManagerImpl unit :=
  do m <- get;
  match tasks m !! taskId with
  | None => throw (Error (not_paused_message taskId))
  | Some task =>
      let currentStatus := taskStates m !! taskId in
      if bool_decide (currentStatus ≠ Some PAUSED)
      then throw (Error (not_paused_message taskId))
      else
        await (resume task) interleaved;;
        modify (taskStates_set taskId RUNNING)
  end.

Definition getTaskStatus (m : TaskManagerImpl) (taskId : string) : option TaskStatus :=
  taskStates m !! taskId.

Definition getActiveTasks (m : TaskManagerImpl) : gset string := dom (activeTasks m).

Definition getTask (m : TaskManagerImpl) (taskId : string) : option Task :=
  tasks m !! taskId.

(** [dispose()]: the cancellations it fires are not awaited and their
    failures only reach the console. *)
Definition dispose (m : TaskManagerImpl) : TaskManagerImpl :=
  {| tasks := ∅; taskStates := ∅; activeTasks := ∅;
     serviceRegistry := ServiceRegistry.clear (serviceRegistry m);
     stateMachine := stateMachine m |}.

End TaskManager.

(** ** Sample objects *)

(** A task in status [created], as [TaskManager.createTask] builds it. *)
Definition created_task : Task := TaskManager.mockTask "t1" "echo" 0.

(** A task type whose tasks carry the id they were asked for. *)
Definition sample_type (typeName : string) : TaskType :=
  {| name := typeName;
     description := "A sample task type";
     version := "1.0.0";
     type_priority := NORMAL;
     type_config := TaskManager.default_task_config;
     createTask := λ taskId _, TaskManager.mockTask taskId typeName 0 |}.

Definition echo_type : TaskType := sample_type "echo".

(** A registry that holds [echo] only. *)
Definition echo_registry : TaskRegistry.TaskRegistryImpl :=
  (TaskRegistry.register echo_type TaskRegistry.new).2.

(** A manager with one task, just created, and the same manager after that
    task has been executed to completion. *)
Definition sample_task_id : string := TaskManager.generateTaskId 1 "k3x9a2b7c".

Definition created_manager : TaskManager.TaskManagerImpl :=
  (TaskManager.createTask "echo" ∅ 1 "k3x9a2b7c" TaskManager.new).2.

Definition completed_manager : TaskManager.TaskManagerImpl :=
  (TaskManager.executeTask sample_task_id uninterrupted created_manager).2.

(** A task whose [execute] rejects, and a manager that holds it as queued. *)
Definition failing_task : Task :=
  {| id := "t2"; type := "flaky"; status := CREATED; priority := NORMAL;
     createdAt := 0; updatedAt := 0;
     execute := λ _, inl (Error "boom");
     cancel := λ _, inr tt;
     pause := inr tt;
     resume := inr tt |}.

Definition failing_manager : TaskManager.TaskManagerImpl :=
  TaskManager.taskStates_set "t2" QUEUED
    (TaskManager.tasks_set "t2" failing_task TaskManager.new).

(** The state of a generator for type [T] whose counter stands at [n]. *)
Definition generator_at (T : string) (inputs : gmap string JsValue) (n : nat)
  : TaskFactory.TaskGenerator :=
  {| TaskFactory.gen_taskTypeName := T;
     TaskFactory.gen_inputs := inputs;
     TaskFactory.counter := n |}.

(** The manager as the task sees it when [execute] is called: marked active
    and running. *)
Definition started (taskId : string) (task : Task) (m : TaskManager.TaskManagerImpl)
  : TaskManager.TaskManagerImpl :=
  TaskManager.taskStates_set taskId RUNNING (TaskManager.activeTasks_set taskId task m).

(** The task that [created_manager] holds. *)
Definition sample_task : Task := TaskManager.mockTask sample_task_id "echo" 1.

(** The registry after the task types of [l] were stored one after the
    other. *)
Definition register_all (l : list TaskType) (r : TaskRegistry.TaskRegistryImpl)
  : TaskRegistry.TaskRegistryImpl :=
  foldl (λ r t, {| TaskRegistry.taskTypes := <[name t := t]> (TaskRegistry.taskTypes r);
                   TaskRegistry.taskTypeConfigs := TaskRegistry.taskTypeConfigs r |}) r l.

(** Two plugins: one contributes the type [b], the other the types [a] and
    [b]; and the module system that resolves their paths. *)
Definition sample_plugin (pluginName : string) (types : list TaskType)
  : PluginManager.TaskPlugin :=
  {| PluginManager.plugin_name := pluginName;
     PluginManager.plugin_version := "1.0.0";
     PluginManager.plugin_description := "A sample plugin";
     PluginManager.initialize := PluginManager.settles (inr tt);
     PluginManager.destroy := inr tt;
     PluginManager.getTaskTypes := types |}.

Definition plugin_b : PluginManager.TaskPlugin :=
  sample_plugin "b-plugin" [sample_type "b"].

Definition plugin_ab : PluginManager.TaskPlugin :=
  sample_plugin "ab-plugin" [sample_type "a"; sample_type "b"].

(** A plugin whose [destroy] rejects. *)
Definition stubborn_plugin : PluginManager.TaskPlugin :=
  {| PluginManager.plugin_name := "stubborn";
     PluginManager.plugin_version := "1.0.0";
     PluginManager.plugin_description := "A plugin that cannot be destroyed";
     PluginManager.initialize := PluginManager.settles (inr tt);
     PluginManager.destroy := inl (Error "still busy");
     PluginManager.getTaskTypes := [sample_type "c"] |}.

Definition sample_import (pluginPath : string) : PluginManager.Imported :=
  if String.eqb pluginPath "./b-plugin.js" then PluginManager.Constructed plugin_b
  else if String.eqb pluginPath "./ab-plugin.js" then PluginManager.Constructed plugin_ab
  else if String.eqb pluginPath "./stubborn.js" then PluginManager.Constructed stubborn_plugin
  else if String.eqb pluginPath "./broken.js" then PluginManager.InvalidStructure
  else PluginManager.ImportRejects (Error ("Cannot find module '" ++ pluginPath ++ "'")).

Definition empty_plugin_manager : PluginManager.PluginManagerImpl :=
  PluginManager.new TaskRegistry.new ServiceRegistry.new.

(** The plugin manager after [b-plugin] was loaded. *)
Definition manager_with_b : PluginManager.PluginManagerImpl :=
  (PluginManager.loadPlugin sample_import "./b-plugin.js" empty_plugin_manager).2.

(** The plugin manager after [stubborn] was loaded and given a
    configuration. *)
Definition manager_with_stubborn : PluginManager.PluginManagerImpl :=
  let '(config, m) :=
    PluginManager.new_config PluginManager.default_config
      (PluginManager.loadPlugin sample_import "./stubborn.js" empty_plugin_manager).2 in
  PluginManager.registerPluginConfig "stubborn" config m.

(** Every per-type configuration belongs to a registered task type. *)
Definition configs_of_registered (r : TaskRegistry.TaskRegistryImpl) : Prop :=
  ∀ taskTypeName,
    is_Some (TaskRegistry.taskTypeConfigs r !! taskTypeName) →
    is_Some (TaskRegistry.taskTypes r !! taskTypeName).

Definition sample_type_config : TaskRegistry.TaskTypeConfig :=
  {| TaskRegistry.enabled := true;
     TaskRegistry.priority := 10;
     TaskRegistry.settings := ∅;
     TaskRegistry.dependencies := None;
     TaskRegistry.tags := None |}.

Definition sample_service_config : ServiceRegistry.ServiceConfig :=
  {| ServiceRegistry.singleton := Some true;
     ServiceRegistry.dependencies := None;
     ServiceRegistry.tags := Some ["core"] |}.

(** A service registry that holds the object [1] under "logger". *)
Definition logger_registry : ServiceRegistry.TaskServiceRegistry :=
  (ServiceRegistry.registerService "logger" (JsObj 1) ServiceRegistry.new).2.

(** [entries] lists the entries of the map [m], each once, in some order. *)
Definition enumerates {V} (entries : list (string * V)) (m : gmap string V) : Prop :=
  NoDup entries.*1 ∧ ∀ k v, (k, v) ∈ entries ↔ m !! k = Some v.

(** The factory [f] when the registry it points to has become [r]. *)
Definition registry_now (r : TaskRegistry.TaskRegistryImpl) (f : TaskFactory.TaskFactoryImpl)
  : TaskFactory.TaskFactoryImpl :=
  {| TaskFactory.registry := r; TaskFactory.taskCache := TaskFactory.taskCache f |}.

(** A registry with the two task types [a] and [a:b]. *)
Definition colon_registry : TaskRegistry.TaskRegistryImpl :=
  register_all [sample_type "a"; sample_type "a:b"] TaskRegistry.new.

(** The registry after the loop of [unloadPlugin] went through the task
    types of [l]: each name still registered at its turn is unregistered. *)
Definition unregister_all (l : list TaskType) (r : TaskRegistry.TaskRegistryImpl)
  : TaskRegistry.TaskRegistryImpl :=
  foldl (λ r t,
           if TaskRegistry.hasTaskType r (name t)
           then {| TaskRegistry.taskTypes := delete (name t) (TaskRegistry.taskTypes r);
                   TaskRegistry.taskTypeConfigs :=
                     delete (name t) (TaskRegistry.taskTypeConfigs r) |}
           else r) r l.

(** A module system in which the file name differs from the name the plugin
    gives itself. *)
Definition versioned_import (pluginPath : string) : PluginManager.Imported :=
  if String.eqb pluginPath "./plugins/b-plugin.v2.js" then PluginManager.Constructed plugin_b
  else PluginManager.ImportRejects (Error ("Cannot find module '" ++ pluginPath ++ "'")).


(** Every configuration reference stored under a name points to an
    object. *)
Definition configs_allocated (m : PluginManager.PluginManagerImpl) : Prop :=
  ∀ pluginName config,
    PluginManager.pluginConfigs m !! pluginName = Some config →
    is_Some (PluginManager.configObjects m !! config).

(** Two names hold one and the same configuration object. *)
Definition same_config_object (m : PluginManager.PluginManagerImpl)
    (pluginName other : string) : Prop :=
  ∃ config,
    PluginManager.pluginConfigs m !! pluginName = Some config
    ∧ PluginManager.pluginConfigs m !! other = Some config.

(** One configuration object registered under two names. *)
Definition manager_sharing : PluginManager.PluginManagerImpl :=
  let '(config, m) := PluginManager.new_config PluginManager.default_config manager_with_b in
  PluginManager.registerPluginConfig "twin" config
    (PluginManager.registerPluginConfig "b-plugin" config m).

(** A plugin whose [initialize] registers its task type itself, through the
    registry of the context, and a service next to it. *)
Definition eager_plugin : PluginManager.TaskPlugin :=
  {| PluginManager.plugin_name := "eager";
     PluginManager.plugin_version := "1.0.0";
     PluginManager.plugin_description := "registers on its own";
     PluginManager.initialize := λ context,
       {| PluginManager.init_outcome := inr tt;
          PluginManager.init_registry :=
            (TaskRegistry.register (sample_type "e")
               (PluginManager.context_registry context)).2;
          PluginManager.init_services :=
            (ServiceRegistry.registerService "eager-log" (JsStr "log")
               (PluginManager.context_services context)).2;
          PluginManager.init_config := PluginManager.context_config context |};
     PluginManager.destroy := inr tt;
     PluginManager.getTaskTypes := [sample_type "e"] |}.

Definition eager_import (pluginPath : string) : PluginManager.Imported :=
  if String.eqb pluginPath "./eager.js" then PluginManager.Constructed eager_plugin
  else PluginManager.ImportRejects (Error ("Cannot find module '" ++ pluginPath ++ "'")).

(** No task of the manager is recorded as queued or retrying. *)
Definition no_waiting_status (m : TaskManager.TaskManagerImpl) : Prop :=
  ∀ taskId s, TaskManager.taskStates m !! taskId = Some s → s ≠ QUEUED ∧ s ≠ RETRYING.

(** The sample manager while its task is being executed. *)
Definition running_manager : TaskManager.TaskManagerImpl :=
  started sample_task_id sample_task created_manager.

(** * Properties *)

(** ** The state machine *)

Example canTransition_created_running :
  StateMachine.canTransition StateMachine.new CREATED RUNNING = true.
Proof. reflexivity. Qed.

Example canTransition_completed_running :
  StateMachine.canTransition StateMachine.new COMPLETED RUNNING = false.
Proof. reflexivity. Qed.

Example allowed_running :
  StateMachine.getAllowedTransitions StateMachine.new RUNNING
  = [COMPLETED; FAILED; CANCELLED; PAUSED].
Proof. reflexivity. Qed.

Lemma canTransition_no_entry (sm : StateMachine.TaskStateMachineImpl) (from to : TaskStatus) :
  StateMachine.transitions sm !! from = None →
  StateMachine.canTransition sm from to = false.
Proof. intros H. unfold StateMachine.canTransition. by rewrite H. Qed.

Lemma canTransition_new_canonical (from to : TaskStatus) :
  StateMachine.canTransition StateMachine.new from to = StateMachine.canonical_edge from to.
Proof. destruct from, to; reflexivity. Qed.

(** C3: on a freshly constructed state machine, [canTransition from to] is
    true exactly for the edges of the canonical table, for all 64 pairs of
    states; [completed] has no outgoing edge (and no entry in the map at
    all); and on any state machine, a [from] state without an entry in the
    map gives [false], not an exception. *)
Theorem canTransition_canonical_table :
  (∀ from to : TaskStatus,
     StateMachine.canTransition StateMachine.new from to
     = StateMachine.canonical_edge from to)
  ∧ (∀ to : TaskStatus, StateMachine.canTransition StateMachine.new COMPLETED to = false)
  ∧ StateMachine.getAllowedTransitions StateMachine.new COMPLETED = []
  ∧ (∀ (sm : StateMachine.TaskStateMachineImpl) (from to : TaskStatus),
       StateMachine.transitions sm !! from = None →
       StateMachine.canTransition sm from to = false).
Proof.
  split; [exact canTransition_new_canonical|].
  split; [intros []; reflexivity|].
  split; [reflexivity|].
  exact canTransition_no_entry.
Qed.

Lemma canTransition_canonical_table_witness :
  StateMachine.transitions (StateMachine.removeTransition StateMachine.new FAILED QUEUED)
    !! COMPLETED = None
  ∧ StateMachine.canTransition
      (StateMachine.removeTransition StateMachine.new FAILED QUEUED) COMPLETED QUEUED = false.
Proof.
  split; [reflexivity|].
  apply (proj2 (proj2 (proj2 canTransition_canonical_table))). reflexivity.
Defined.

(** [transition] is total and never touches the task: both the rejected and
    the accepted call hand the task back as it was. *)
Lemma transition_task_unchanged (sm : StateMachine.TaskStateMachineImpl)
    (task : Task) (to : TaskStatus) :
  StateMachine.task_after (StateMachine.transition sm task to) = task.
Proof. unfold StateMachine.transition. by destruct (negb _). Qed.

(** C2, as stated, fails: an accepted [transition] from [created] to
    [running] resolves, yet the task still has status [created] and its old
    update timestamp. *)
Lemma transition_does_not_commit :
  let run := StateMachine.transition StateMachine.new created_task RUNNING in
  StateMachine.settled run = inr tt
  ∧ status (StateMachine.task_after run) ≠ RUNNING
  ∧ status (StateMachine.task_after run) = CREATED
  ∧ updatedAt (StateMachine.task_after run) = updatedAt created_task.
Proof. repeat split; try reflexivity. discriminate. Qed.

(** C2, amended: [transition(task, to)] takes the source state from the
    task's current status; when that edge is not in the graph it rejects with
    the error "Invalid state transition from <from> to <to>"; when the edge
    is in the graph it resolves after writing one line to the console; in
    both cases the task's status and update timestamp are left as they
    were. *)
Theorem transition_validates_without_commit
    (sm : StateMachine.TaskStateMachineImpl) (task : Task) (to : TaskStatus) :
  let run := StateMachine.transition sm task to in
  (StateMachine.canTransition sm (status task) to = false →
     StateMachine.settled run
     = inl (Error ("Invalid state transition from " ++ status_value (status task)
                     ++ " to " ++ status_value to))
     ∧ StateMachine.console run = [])
  ∧ (StateMachine.canTransition sm (status task) to = true →
       StateMachine.settled run = inr tt
       ∧ length (StateMachine.console run) = 1)
  ∧ StateMachine.task_after run = task
  ∧ status (StateMachine.task_after run) = status task
  ∧ updatedAt (StateMachine.task_after run) = updatedAt task.
Proof.
  cbn zeta. rewrite transition_task_unchanged.
  unfold StateMachine.transition.
  split; [|split; [|done]]; intros ->; done.
Qed.

Lemma transition_validates_without_commit_witness :
  (StateMachine.canTransition StateMachine.new (status created_task) COMPLETED = false
   ∧ StateMachine.settled (StateMachine.transition StateMachine.new created_task COMPLETED)
     = inl (Error "Invalid state transition from created to completed"))
  ∧ (StateMachine.canTransition StateMachine.new (status created_task) RUNNING = true
     ∧ StateMachine.settled (StateMachine.transition StateMachine.new created_task RUNNING)
       = inr tt).
Proof.
  split; (split; [reflexivity|]).
  - apply (proj1 (transition_validates_without_commit StateMachine.new created_task COMPLETED)).
    reflexivity.
  - apply (proj1 (proj2 (transition_validates_without_commit
                           StateMachine.new created_task RUNNING))).
    reflexivity.
Defined.

(** ** Maps as the registries use them *)

Lemma Map_has_true {V} (m : gmap string V) (k : string) :
  Map_has m k = true ↔ is_Some (m !! k).
Proof. unfold Map_has. apply bool_decide_eq_true. Qed.

Lemma Map_has_false {V} (m : gmap string V) (k : string) :
  Map_has m k = false ↔ m !! k = None.
Proof.
  unfold Map_has.
  rewrite bool_decide_eq_false, eq_None_not_Some. done.
Qed.

Lemma Map_has_insert {V} (m : gmap string V) (k : string) (v : V) :
  Map_has (<[k := v]> m) k = true.
Proof. apply Map_has_true. rewrite lookup_insert_eq. eauto. Qed.

Lemma Map_has_delete {V} (m : gmap string V) (k : string) :
  Map_has (delete k m) k = false.
Proof. apply Map_has_false, lookup_delete_eq. Qed.

(** ** The task-type registry *)

Lemma register_present (r : TaskRegistry.TaskRegistryImpl) (t : TaskType) :
  TaskRegistry.hasTaskType r (name t) = true →
  TaskRegistry.register t r
  = (inl (Error (TaskRegistry.already_registered_message (name t))), r).
Proof.
  unfold TaskRegistry.hasTaskType, TaskRegistry.register, bind, get. cbn.
  by intros ->.
Qed.

Lemma register_absent (r : TaskRegistry.TaskRegistryImpl) (t : TaskType) :
  TaskRegistry.hasTaskType r (name t) = false →
  TaskRegistry.register t r
  = (inr tt, {| TaskRegistry.taskTypes := <[name t := t]> (TaskRegistry.taskTypes r);
                TaskRegistry.taskTypeConfigs := TaskRegistry.taskTypeConfigs r |}).
Proof.
  unfold TaskRegistry.hasTaskType, TaskRegistry.register, bind, get. cbn.
  by intros ->.
Qed.

Lemma unregister_present (r : TaskRegistry.TaskRegistryImpl) (n : string) :
  TaskRegistry.hasTaskType r n = true →
  TaskRegistry.unregister n r
  = (inr tt, {| TaskRegistry.taskTypes := delete n (TaskRegistry.taskTypes r);
                TaskRegistry.taskTypeConfigs := delete n (TaskRegistry.taskTypeConfigs r) |}).
Proof.
  unfold TaskRegistry.hasTaskType, TaskRegistry.unregister, bind, get. cbn.
  by intros ->.
Qed.

Lemma unregister_absent (r : TaskRegistry.TaskRegistryImpl) (n : string) :
  TaskRegistry.hasTaskType r n = false →
  TaskRegistry.unregister n r
  = (inl (Error (TaskRegistry.not_registered_message n)), r).
Proof.
  unfold TaskRegistry.hasTaskType, TaskRegistry.unregister, bind, get. cbn.
  by intros ->.
Qed.

(** C6: in any registry and for any task type [t], (1) when the name of [t]
    is present, [register t] fails with "Task type <name> is already
    registered" and changes nothing, and this is what a second [register]
    right after a successful one meets; (2) [unregister] of a present name
    succeeds, after which the name is absent, its per-type configuration is
    gone, and registering a type [t'] of the same name succeeds and makes
    [t'] the registered type; (3) [unregister] of an absent name fails with
    "Task type <name> is not registered" and changes nothing. *)
Theorem register_unregister_contract
    (r : TaskRegistry.TaskRegistryImpl) (t t' : TaskType) :
  name t' = name t →
  (TaskRegistry.hasTaskType r (name t) = true →
     TaskRegistry.register t' r
     = (inl (Error ("Task type " ++ name t ++ " is already registered")), r))
  ∧ (TaskRegistry.hasTaskType r (name t) = false →
       ∃ r1, TaskRegistry.register t r = (inr tt, r1)
             ∧ TaskRegistry.getTaskType r1 (name t) = Some t
             ∧ TaskRegistry.register t' r1
               = (inl (Error ("Task type " ++ name t ++ " is already registered")), r1))
  ∧ (TaskRegistry.hasTaskType r (name t) = true →
       ∃ r1 r2, TaskRegistry.unregister (name t) r = (inr tt, r1)
                ∧ TaskRegistry.hasTaskType r1 (name t) = false
                ∧ TaskRegistry.getTaskType r1 (name t) = None
                ∧ TaskRegistry.getTaskTypeConfig r1 (name t) = None
                ∧ TaskRegistry.register t' r1 = (inr tt, r2)
                ∧ TaskRegistry.getTaskType r2 (name t) = Some t')
  ∧ (TaskRegistry.hasTaskType r (name t) = false →
       TaskRegistry.unregister (name t) r
       = (inl (Error ("Task type " ++ name t ++ " is not registered")), r)).
Proof.
  intros Hname. repeat split.
  - intros H. rewrite <- Hname in *. by apply register_present.
  - intros H. eexists. split; [by apply register_absent|]. split.
    + unfold TaskRegistry.getTaskType. cbn. apply lookup_insert_eq.
    + rewrite <- Hname. apply register_present. rewrite Hname.
      apply Map_has_insert.
  - intros H. do 2 eexists. split; [by apply unregister_present|].
    split; [apply Map_has_delete|].
    split; [apply lookup_delete_eq|].
    split; [apply lookup_delete_eq|]. split.
    + apply register_absent. rewrite Hname. apply Map_has_delete.
    + unfold TaskRegistry.getTaskType. cbn. rewrite Hname. apply lookup_insert_eq.
  - intros H. by apply unregister_absent.
Qed.

Lemma register_unregister_contract_witness :
  (TaskRegistry.hasTaskType TaskRegistry.new (name echo_type) = false
   ∧ ∃ r1, TaskRegistry.register echo_type TaskRegistry.new = (inr tt, r1)
           ∧ TaskRegistry.getTaskType r1 (name echo_type) = Some echo_type
           ∧ TaskRegistry.register echo_type r1
             = (inl (Error "Task type echo is already registered"), r1))
  ∧ (TaskRegistry.hasTaskType echo_registry (name echo_type) = true
     ∧ ∃ r1 r2, TaskRegistry.unregister (name echo_type) echo_registry = (inr tt, r1)
                ∧ TaskRegistry.hasTaskType r1 (name echo_type) = false
                ∧ TaskRegistry.getTaskType r1 (name echo_type) = None
                ∧ TaskRegistry.getTaskTypeConfig r1 (name echo_type) = None
                ∧ TaskRegistry.register echo_type r1 = (inr tt, r2)
                ∧ TaskRegistry.getTaskType r2 (name echo_type) = Some echo_type).
Proof.
  split; (split; [reflexivity|]).
  - apply (proj1 (proj2 (register_unregister_contract
                           TaskRegistry.new echo_type echo_type eq_refl))).
    reflexivity.
  - apply (proj1 (proj2 (proj2 (register_unregister_contract
                                  echo_registry echo_type echo_type eq_refl)))).
    reflexivity.
Defined.

(** ** The service registry *)

Lemma registerService_present (r : ServiceRegistry.TaskServiceRegistry)
    (serviceId : string) (service : JsValue) :
  ServiceRegistry.hasService r serviceId = true →
  ServiceRegistry.registerService serviceId service r
  = (inl (Error (ServiceRegistry.already_registered_message serviceId)), r).
Proof.
  unfold ServiceRegistry.hasService, ServiceRegistry.registerService, bind, get. cbn.
  by intros ->.
Qed.

Lemma registerService_absent (r : ServiceRegistry.TaskServiceRegistry)
    (serviceId : string) (service : JsValue) :
  ServiceRegistry.hasService r serviceId = false →
  ServiceRegistry.registerService serviceId service r
  = (inr tt, {| ServiceRegistry.services := <[serviceId := service]> (ServiceRegistry.services r);
                ServiceRegistry.serviceConfigs := ServiceRegistry.serviceConfigs r |}).
Proof.
  unfold ServiceRegistry.hasService, ServiceRegistry.registerService, bind, get. cbn.
  by intros ->.
Qed.

Lemma getService_unregistered (r : ServiceRegistry.TaskServiceRegistry) (serviceId : string) :
  ServiceRegistry.hasService r serviceId = false →
  ServiceRegistry.getService serviceId r
  = (inl (Error (ServiceRegistry.not_found_message serviceId)), r).
Proof.
  intros H%Map_has_false.
  unfold ServiceRegistry.getService, Map_get, bind, get. cbn.
  by rewrite H.
Qed.

(** What [getService] really tests is the truthiness of the stored value. *)
Lemma getService_stored (r : ServiceRegistry.TaskServiceRegistry)
    (serviceId : string) (service : JsValue) :
  ServiceRegistry.services r !! serviceId = Some service →
  ServiceRegistry.getService serviceId r
  = if truthy service then (inr service, r)
    else (inl (Error (ServiceRegistry.not_found_message serviceId)), r).
Proof.
  intros H.
  unfold ServiceRegistry.getService, Map_get, bind, get. cbn.
  rewrite H. cbn. by destruct (truthy service).
Qed.

(** C7, at the failing input: the number [0] is registered under "retries"
    without error and [hasService] reports it, yet [getService] throws
    "Service retries not found" instead of returning the instance. *)
Theorem getService_rejects_registered_falsy_instance :
  ∃ r1,
    ServiceRegistry.registerService "retries" (JsNum 0) ServiceRegistry.new = (inr tt, r1)
    ∧ ServiceRegistry.hasService r1 "retries" = true
    ∧ ServiceRegistry.services r1 !! "retries" = Some (JsNum 0)
    ∧ ServiceRegistry.getService "retries" r1
      = (inl (Error "Service retries not found"), r1).
Proof. eexists. repeat split. Qed.

(** ** The task builder *)

Lemma build_falsy_id (b : TaskFactory.TaskBuilder) (f : TaskFactory.TaskFactoryImpl) :
  TaskFactory.id_is_falsy (TaskFactory.builder_id b) = true →
  TaskFactory.build b f = (inl (Error TaskFactory.missing_id_message), f).
Proof. unfold TaskFactory.build. by intros ->. Qed.

(** C10: for every type name and every factory state,
    [createTaskBuilder(T).withId("").build()] throws "Task ID is required"
    and leaves the factory as it was (whether or not [T] is registered), as
    does [build()] with no id set; in general [build()] throws that error
    whenever the id is [undefined] or the empty string, and with any other
    id it is the call [createTask(T, id, inputs)]. *)
Theorem build_rejects_empty_id (T : string) (f : TaskFactory.TaskFactoryImpl) :
  TaskFactory.build (TaskFactory.withId "" (TaskFactory.createTaskBuilder T)) f
  = (inl (Error "Task ID is required"), f)
  ∧ TaskFactory.build (TaskFactory.createTaskBuilder T) f
    = (inl (Error "Task ID is required"), f)
  ∧ (∀ b : TaskFactory.TaskBuilder,
       TaskFactory.builder_id b = None ∨ TaskFactory.builder_id b = Some "" →
       TaskFactory.build b f = (inl (Error "Task ID is required"), f))
  ∧ (∀ (b : TaskFactory.TaskBuilder) (taskId : string),
       TaskFactory.builder_id b = Some taskId → taskId ≠ "" →
       TaskFactory.build b f
       = TaskFactory.createTask (TaskFactory.builder_taskTypeName b) taskId
           (TaskFactory.builder_inputs b) f).
Proof.
  split; [reflexivity|]. split; [reflexivity|]. split.
  - intros b [H|H]; apply build_falsy_id; by rewrite H.
  - intros b taskId H Hne. unfold TaskFactory.build. rewrite H. cbn.
    destruct (String.eqb_spec taskId ""); done.
Qed.

Lemma build_rejects_empty_id_witness :
  TaskFactory.build (TaskFactory.withId "" (TaskFactory.createTaskBuilder "echo"))
    (TaskFactory.new echo_registry)
  = (inl (Error "Task ID is required"), TaskFactory.new echo_registry)
  ∧ TaskFactory.build
      (TaskFactory.withId "builder-task" (TaskFactory.createTaskBuilder "echo"))
      (TaskFactory.new echo_registry)
    = TaskFactory.createTask "echo" "builder-task" ∅ (TaskFactory.new echo_registry).
Proof.
  pose proof (build_rejects_empty_id "echo" (TaskFactory.new echo_registry))
    as (_ & _ & Hfalsy & Hset).
  split.
  - apply Hfalsy. right. reflexivity.
  - apply Hset; [reflexivity | discriminate].
Defined.

(** ** The task generator *)

(** With the type registered, [createTask] cannot fail: it returns the cached
    task of that key, or else builds one and caches it. *)
Lemma createTask_registered (f : TaskFactory.TaskFactoryImpl) (T taskId : string)
    (inputs : gmap string JsValue) (ty : TaskType) :
  TaskRegistry.getTaskType (TaskFactory.registry f) T = Some ty →
  TaskFactory.createTask T taskId inputs f
  = match TaskFactory.taskCache f !! TaskFactory.cache_key T taskId with
    | Some cachedTask => (inr cachedTask, f)
    | None =>
        (inr (createTask ty taskId inputs),
         {| TaskFactory.registry := TaskFactory.registry f;
            TaskFactory.taskCache :=
              <[TaskFactory.cache_key T taskId := createTask ty taskId inputs]>
                (TaskFactory.taskCache f) |})
    end.
Proof.
  intros H. unfold TaskFactory.createTask, bind, get. cbn. rewrite H.
  by destruct (TaskFactory.taskCache f !! _).
Qed.

Lemma createTask_registered_ok (f : TaskFactory.TaskFactoryImpl) (T taskId : string)
    (inputs : gmap string JsValue) (ty : TaskType) :
  TaskRegistry.getTaskType (TaskFactory.registry f) T = Some ty →
  ∃ task f', TaskFactory.createTask T taskId inputs f = (inr task, f')
             ∧ TaskFactory.registry f' = TaskFactory.registry f.
Proof.
  intros H. rewrite (createTask_registered _ _ _ _ _ H).
  destruct (TaskFactory.taskCache f !! _); eauto.
Qed.

(** One minting step: the counter goes up by one and the factory is called
    with the type name, a dash and the new counter value. *)
Lemma mint_and_create (T : string) (inputs : gmap string JsValue) (n : nat)
    (f : TaskFactory.TaskFactoryImpl) :
  (do taskId <- TaskFactory.mint_id;
   TaskFactory.on_factory (TaskFactory.createTask T taskId inputs))
    (generator_at T inputs n, f)
  = let '(r, f') := TaskFactory.createTask T (T ++ "-" ++ decimal (S n)) inputs f in
    (r, (generator_at T inputs (S n), f')).
Proof.
  unfold TaskFactory.mint_id, TaskFactory.on_factory, on_field, bind, get, modify, ret.
  cbn -[TaskFactory.createTask decimal]. reflexivity.
Qed.

Lemma next_mints (T : string) (inputs : gmap string JsValue) (n : nat)
    (f : TaskFactory.TaskFactoryImpl) :
  TaskFactory.next (generator_at T inputs n, f)
  = let '(r, f') := TaskFactory.createTask T (T ++ "-" ++ decimal (S n)) inputs f in
    (r, (generator_at T inputs (S n), f')).
Proof.
  unfold TaskFactory.next. unfold bind at 1. unfold get at 1. cbn beta iota.
  apply mint_and_create.
Qed.

Lemma createBatch_step (T : string) (inputs : gmap string JsValue) (n k : nat)
    (f : TaskFactory.TaskFactoryImpl) :
  TaskFactory.createBatch (S k) (generator_at T inputs n, f)
  = match TaskFactory.createTask T (T ++ "-" ++ decimal (S n)) inputs f with
    | (inr task, f') =>
        match TaskFactory.createBatch k (generator_at T inputs (S n), f') with
        | (inr rest, s) => (inr (task :: rest), s)
        | (inl e, s) => (inl e, s)
        end
    | (inl e, f') => (inl e, (generator_at T inputs (S n), f'))
    end.
Proof.
  unfold TaskFactory.createBatch. unfold bind at 1 3. unfold get at 1 2.
  cbn [Array_from generator_at TaskFactory.gen_taskTypeName TaskFactory.gen_inputs].
  unfold bind at 1. rewrite mint_and_create.
  destruct (TaskFactory.createTask T _ inputs f) as [[e|task] f']; [reflexivity|].
  unfold bind at 1.
  by destruct (Array_from k _ _) as [[e|rest] s].
Qed.

Lemma createBatch_zero (g : TaskFactory.TaskGenerator) (f : TaskFactory.TaskFactoryImpl) :
  TaskFactory.createBatch 0 (g, f) = (inr [], (g, f)).
Proof. reflexivity. Qed.

Lemma cache_key_inj (T id1 id2 : string) :
  TaskFactory.cache_key T id1 = TaskFactory.cache_key T id2 → id1 = id2.
Proof.
  unfold TaskFactory.cache_key. intros H.
  apply (inj (String.app T)) in H. by apply (inj (String.app ":")) in H.
Qed.

Lemma minted_ids_differ (T : string) (n m : nat) :
  decimal n ≠ decimal m →
  TaskFactory.cache_key T (T ++ "-" ++ decimal n)
  ≠ TaskFactory.cache_key T (T ++ "-" ++ decimal m).
Proof.
  intros Hne H. apply cache_key_inj in H.
  apply (inj (String.app T)) in H. by apply (inj (String.app "-")) in H.
Qed.

(** C8: with [T] registered, [createBatch(3)] on a fresh generator makes the
    three factory calls [createTask(T, "T-1")], [createTask(T, "T-2")],
    [createTask(T, "T-3")] in this order, each on the factory state the
    previous one left, none of them fails, and it returns their three
    results in the same order, leaving the counter at 3.  When the cache
    holds none of the three keys, these are the tasks the type's own
    [createTask] builds for the ids T-1, T-2 and T-3.  Every [next()] call
    with the counter at [n] asks the factory for the id made of the type
    name, a dash and [n + 1], and leaves the counter at [n + 1]. *)
Theorem createBatch_three_sequential_ids
    (f : TaskFactory.TaskFactoryImpl) (T : string) (inputs : gmap string JsValue)
    (ty : TaskType) :
  TaskRegistry.getTaskType (TaskFactory.registry f) T = Some ty →
  let g := TaskFactory.createTaskGenerator T inputs in
  (∃ a b c f1 f2 f3,
     TaskFactory.createTask T (T ++ "-1") inputs f = (inr a, f1)
     ∧ TaskFactory.createTask T (T ++ "-2") inputs f1 = (inr b, f2)
     ∧ TaskFactory.createTask T (T ++ "-3") inputs f2 = (inr c, f3)
     ∧ TaskFactory.createBatch 3 (g, f) = (inr [a; b; c], (generator_at T inputs 3, f3)))
  ∧ ((∀ taskId, TaskFactory.taskCache f !! TaskFactory.cache_key T taskId = None) →
     (TaskFactory.createBatch 3 (g, f)).1
     = inr [createTask ty (T ++ "-1") inputs;
            createTask ty (T ++ "-2") inputs;
            createTask ty (T ++ "-3") inputs])
  ∧ (∀ (n : nat) (f0 : TaskFactory.TaskFactoryImpl),
       TaskFactory.next (generator_at T inputs n, f0)
       = let '(r, f') :=
           TaskFactory.createTask T (T ++ "-" ++ decimal (S n)) inputs f0 in
         (r, (generator_at T inputs (S n), f'))).
Proof.
  intros Hty g.
  change g with (generator_at T inputs 0).
  change (T ++ "-1") with (T ++ "-" ++ decimal 1).
  change (T ++ "-2") with (T ++ "-" ++ decimal 2).
  change (T ++ "-3") with (T ++ "-" ++ decimal 3).
  split; [|split].
  - destruct (createTask_registered_ok f T (T ++ "-" ++ decimal 1) inputs ty Hty)
      as (a & f1 & Ha & Hr1).
    assert (Hty1 : TaskRegistry.getTaskType (TaskFactory.registry f1) T = Some ty)
      by (by rewrite Hr1).
    destruct (createTask_registered_ok f1 T (T ++ "-" ++ decimal 2) inputs ty Hty1)
      as (b & f2 & Hb & Hr2).
    assert (Hty2 : TaskRegistry.getTaskType (TaskFactory.registry f2) T = Some ty)
      by (by rewrite Hr2).
    destruct (createTask_registered_ok f2 T (T ++ "-" ++ decimal 3) inputs ty Hty2)
      as (c & f3 & Hc & Hr3).
    exists a, b, c, f1, f2, f3. repeat (split; [done|]).
    rewrite createBatch_step, Ha, createBatch_step, Hb, createBatch_step, Hc.
    by rewrite createBatch_zero.
  - intros Hfresh.
    rewrite createBatch_step, (createTask_registered _ _ _ _ _ Hty), Hfresh.
    rewrite createBatch_step, (createTask_registered _ _ _ _ ty) by done. cbn [TaskFactory.taskCache].
    rewrite lookup_insert_ne, Hfresh by (by apply minted_ids_differ).
    rewrite createBatch_step, (createTask_registered _ _ _ _ ty) by done. cbn [TaskFactory.taskCache].
    rewrite !lookup_insert_ne, Hfresh by (by apply minted_ids_differ).
    by rewrite createBatch_zero.
  - intros n f0. apply next_mints.
Qed.

Lemma createBatch_three_sequential_ids_witness :
  TaskRegistry.getTaskType (TaskFactory.registry (TaskFactory.new echo_registry)) "echo"
  = Some echo_type
  ∧ (TaskFactory.createBatch 3
       (TaskFactory.createTaskGenerator "echo" ∅, TaskFactory.new echo_registry)).1
    = inr [createTask echo_type "echo-1" ∅;
           createTask echo_type "echo-2" ∅;
           createTask echo_type "echo-3" ∅].
Proof.
  split; [reflexivity|].
  pose proof (createBatch_three_sequential_ids
                (TaskFactory.new echo_registry) "echo" ∅ echo_type eq_refl)
    as (_ & Hfresh & _).
  apply Hfresh. intros taskId. reflexivity.
Defined.

Example echo_batch_ids :
  match (TaskFactory.createBatch 3
           (TaskFactory.createTaskGenerator "echo" ∅, TaskFactory.new echo_registry)).1 with
  | inr batch => List.map id batch
  | inl _ => []
  end = ["echo-1"; "echo-2"; "echo-3"].
Proof. reflexivity. Qed.

(** ** The task manager *)

Example sample_task_created :
  TaskManager.getTaskStatus created_manager sample_task_id = Some CREATED.
Proof. reflexivity. Qed.

Example sample_task_completed :
  TaskManager.getTaskStatus completed_manager sample_task_id = Some COMPLETED
  ∧ TaskManager.activeTasks completed_manager !! sample_task_id = None.
Proof. split; reflexivity. Qed.

Lemma executeTask_unknown (m : TaskManager.TaskManagerImpl) (taskId : string)
    (interleaved : TaskManager.TaskManagerImpl → TaskManager.TaskManagerImpl) :
  TaskManager.tasks m !! taskId = None →
  TaskManager.executeTask taskId interleaved m
  = (inl (Error (TaskManager.not_found_message taskId)), m).
Proof. intros H. unfold TaskManager.executeTask, bind, get. cbn. by rewrite H. Qed.

Lemma executeTask_not_executable (m : TaskManager.TaskManagerImpl) (taskId : string)
    (task : Task)
    (interleaved : TaskManager.TaskManagerImpl → TaskManager.TaskManagerImpl) :
  TaskManager.tasks m !! taskId = Some task →
  TaskManager.taskStates m !! taskId ≠ Some CREATED →
  TaskManager.taskStates m !! taskId ≠ Some QUEUED →
  TaskManager.executeTask taskId interleaved m
  = (inl (Error (TaskManager.not_executable_message taskId)), m).
Proof.
  intros H Hc Hq. unfold TaskManager.executeTask, bind, get. cbn. rewrite H.
  by rewrite !bool_decide_eq_true_2.
Qed.

Lemma executeTask_accepted (m : TaskManager.TaskManagerImpl) (taskId : string)
    (task : Task)
    (interleaved : TaskManager.TaskManagerImpl → TaskManager.TaskManagerImpl) :
  TaskManager.tasks m !! taskId = Some task →
  TaskManager.taskStates m !! taskId = Some CREATED
  ∨ TaskManager.taskStates m !! taskId = Some QUEUED →
  TaskManager.executeTask taskId interleaved m
  = match execute task (TaskManager.execution_context m) with
    | inr result =>
        (inr result,
         TaskManager.activeTasks_delete taskId
           (TaskManager.taskStates_set taskId COMPLETED
              (interleaved (started taskId task m))))
    | inl error =>
        (inl error,
         TaskManager.activeTasks_delete taskId
           (TaskManager.taskStates_set taskId FAILED
              (interleaved (started taskId task m))))
    end.
Proof.
  intros H Hs. unfold TaskManager.executeTask, bind at 1, get at 1. cbn beta iota.
  rewrite H.
  assert (bool_decide (TaskManager.taskStates m !! taskId ≠ Some CREATED)
          && bool_decide (TaskManager.taskStates m !! taskId ≠ Some QUEUED) = false) as ->.
  { destruct Hs as [-> | ->]; by cbn. }
  unfold try_finally, try_catch, bind, modify, get, await, ret, throw, started.
  cbn. by destruct (execute task _).
Qed.

Lemma status_after_finish (taskId : string) (st : TaskStatus)
    (m : TaskManager.TaskManagerImpl) :
  let m' := TaskManager.activeTasks_delete taskId (TaskManager.taskStates_set taskId st m) in
  TaskManager.taskStates m' !! taskId = Some st
  ∧ TaskManager.activeTasks m' !! taskId = None.
Proof. cbn. by rewrite lookup_insert_eq, lookup_delete_eq. Qed.

(** C4: [executeTask(id)] throws "Task <id> not found" when the id is
    unknown and "Task <id> is not in executable state" when the recorded
    status is neither [created] nor [queued], in both cases without changing
    the manager.  When the call is accepted and the task's [execute] resolves
    with a result, that result is returned and the status is [completed];
    when [execute] rejects with an error, that same error is thrown and the
    status is [failed].  In both outcomes the last update removes the task
    from the active set, whatever other callers did to the manager while the
    task was running. *)
Theorem executeTask_contract (m : TaskManager.TaskManagerImpl) (taskId : string)
    (interleaved : TaskManager.TaskManagerImpl → TaskManager.TaskManagerImpl) :
  (TaskManager.tasks m !! taskId = None →
     TaskManager.executeTask taskId interleaved m
     = (inl (Error ("Task " ++ taskId ++ " not found")), m))
  ∧ (∀ task : Task,
       TaskManager.tasks m !! taskId = Some task →
       TaskManager.taskStates m !! taskId ≠ Some CREATED →
       TaskManager.taskStates m !! taskId ≠ Some QUEUED →
       TaskManager.executeTask taskId interleaved m
       = (inl (Error ("Task " ++ taskId ++ " is not in executable state")), m))
  ∧ (∀ (task : Task) (result : TaskResult),
       TaskManager.tasks m !! taskId = Some task →
       TaskManager.taskStates m !! taskId = Some CREATED
       ∨ TaskManager.taskStates m !! taskId = Some QUEUED →
       execute task (TaskManager.execution_context m) = inr result →
       ∃ m1 m',
         TaskManager.executeTask taskId interleaved m = (inr result, m')
         ∧ m' = TaskManager.activeTasks_delete taskId m1
         ∧ TaskManager.taskStates m' !! taskId = Some COMPLETED
         ∧ TaskManager.activeTasks m' !! taskId = None)
  ∧ (∀ (task : Task) (error : Thrown),
       TaskManager.tasks m !! taskId = Some task →
       TaskManager.taskStates m !! taskId = Some CREATED
       ∨ TaskManager.taskStates m !! taskId = Some QUEUED →
       execute task (TaskManager.execution_context m) = inl error →
       ∃ m1 m',
         TaskManager.executeTask taskId interleaved m = (inl error, m')
         ∧ m' = TaskManager.activeTasks_delete taskId m1
         ∧ TaskManager.taskStates m' !! taskId = Some FAILED
         ∧ TaskManager.activeTasks m' !! taskId = None).
Proof.
  split; [apply executeTask_unknown|].
  split; [intros task; apply executeTask_not_executable|].
  split.
  - intros task result Htask Hs Hrun.
    rewrite (executeTask_accepted _ _ _ _ Htask Hs), Hrun.
    eexists _, _. split; [reflexivity|]. split; [reflexivity|].
    apply status_after_finish.
  - intros task error Htask Hs Hrun.
    rewrite (executeTask_accepted _ _ _ _ Htask Hs), Hrun.
    eexists _, _. split; [reflexivity|]. split; [reflexivity|].
    apply status_after_finish.
Qed.

Lemma executeTask_contract_witness :
  TaskManager.executeTask "ghost" uninterrupted TaskManager.new
  = (inl (Error "Task ghost not found"), TaskManager.new)
  ∧ TaskManager.executeTask sample_task_id uninterrupted completed_manager
    = (inl (Error "Task task-1-k3x9a2b7c is not in executable state"), completed_manager)
  ∧ (∃ m1 m',
       TaskManager.executeTask sample_task_id uninterrupted created_manager
       = (inr {| success := true;
                 output := JsStr "Task task-1-k3x9a2b7c executed successfully";
                 metrics := TaskManager.mock_metrics |}, m')
       ∧ m' = TaskManager.activeTasks_delete sample_task_id m1
       ∧ TaskManager.taskStates m' !! sample_task_id = Some COMPLETED
       ∧ TaskManager.activeTasks m' !! sample_task_id = None)
  ∧ (∃ m1 m',
       TaskManager.executeTask "t2" uninterrupted failing_manager
       = (inl (Error "boom"), m')
       ∧ m' = TaskManager.activeTasks_delete "t2" m1
       ∧ TaskManager.taskStates m' !! "t2" = Some FAILED
       ∧ TaskManager.activeTasks m' !! "t2" = None).
Proof.
  split; [|split; [|split]].
  - apply (proj1 (executeTask_contract TaskManager.new "ghost" uninterrupted)).
    reflexivity.
  - apply (proj1 (proj2 (executeTask_contract completed_manager sample_task_id uninterrupted))
             sample_task).
    + reflexivity.
    + discriminate.
    + discriminate.
  - apply (proj1 (proj2 (proj2 (executeTask_contract
                                  created_manager sample_task_id uninterrupted)))
             sample_task).
    + reflexivity.
    + left. reflexivity.
    + reflexivity.
  - apply (proj2 (proj2 (proj2 (executeTask_contract failing_manager "t2" uninterrupted)))
             failing_task).
    + reflexivity.
    + right. reflexivity.
    + reflexivity.
Defined.

Lemma cancelTask_known (m : TaskManager.TaskManagerImpl) (taskId : string) (task : Task)
    (reason : option string)
    (interleaved : TaskManager.TaskManagerImpl → TaskManager.TaskManagerImpl) :
  TaskManager.tasks m !! taskId = Some task →
  TaskManager.cancelTask taskId reason interleaved m
  = match cancel task reason with
    | inr _ =>
        (inr tt,
         TaskManager.activeTasks_delete taskId
           (TaskManager.taskStates_set taskId CANCELLED (interleaved m)))
    | inl error => (inl error, interleaved m)
    end.
Proof.
  intros H. unfold TaskManager.cancelTask, bind at 1, get. cbn beta iota. rewrite H.
  unfold bind, await, modify. by destruct (cancel task reason).
Qed.

Lemma pauseTask_running (m : TaskManager.TaskManagerImpl) (taskId : string) (task : Task)
    (interleaved : TaskManager.TaskManagerImpl → TaskManager.TaskManagerImpl) :
  TaskManager.tasks m !! taskId = Some task →
  TaskManager.taskStates m !! taskId = Some RUNNING →
  TaskManager.pauseTask taskId interleaved m
  = match pause task with
    | inr _ => (inr tt, TaskManager.taskStates_set taskId PAUSED (interleaved m))
    | inl error => (inl error, interleaved m)
    end.
Proof.
  intros H Hs. unfold TaskManager.pauseTask, bind at 1, get. cbn beta iota.
  rewrite H, Hs. cbn. unfold bind, await, modify. by destruct (pause task).
Qed.

Lemma pauseTask_not_running (m : TaskManager.TaskManagerImpl) (taskId : string)
    (task : Task)
    (interleaved : TaskManager.TaskManagerImpl → TaskManager.TaskManagerImpl) :
  TaskManager.tasks m !! taskId = Some task →
  TaskManager.taskStates m !! taskId ≠ Some RUNNING →
  TaskManager.pauseTask taskId interleaved m
  = (inl (Error (TaskManager.not_running_message taskId)), m).
Proof.
  intros H Hs. unfold TaskManager.pauseTask, bind at 1, get. cbn beta iota.
  rewrite H. by rewrite bool_decide_eq_true_2.
Qed.

Lemma resumeTask_paused (m : TaskManager.TaskManagerImpl) (taskId : string) (task : Task)
    (interleaved : TaskManager.TaskManagerImpl → TaskManager.TaskManagerImpl) :
  TaskManager.tasks m !! taskId = Some task →
  TaskManager.taskStates m !! taskId = Some PAUSED →
  TaskManager.resumeTask taskId interleaved m
  = match resume task with
    | inr _ => (inr tt, TaskManager.taskStates_set taskId RUNNING (interleaved m))
    | inl error => (inl error, interleaved m)
    end.
Proof.
  intros H Hs. unfold TaskManager.resumeTask, bind at 1, get. cbn beta iota.
  rewrite H, Hs. cbn. unfold bind, await, modify. by destruct (resume task).
Qed.

Lemma resumeTask_not_paused (m : TaskManager.TaskManagerImpl) (taskId : string)
    (task : Task)
    (interleaved : TaskManager.TaskManagerImpl → TaskManager.TaskManagerImpl) :
  TaskManager.tasks m !! taskId = Some task →
  TaskManager.taskStates m !! taskId ≠ Some PAUSED →
  TaskManager.resumeTask taskId interleaved m
  = (inl (Error (TaskManager.not_paused_message taskId)), m).
Proof.
  intros H Hs. unfold TaskManager.resumeTask, bind at 1, get. cbn beta iota.
  rewrite H. by rewrite bool_decide_eq_true_2.
Qed.

(** C1, as stated, fails: the manager's state machine has no edge from
    [completed] to [cancelled], yet [cancelTask] on a completed task succeeds
    and records [cancelled]. *)
Lemma cancelTask_bypasses_state_machine :
  TaskManager.taskStates completed_manager !! sample_task_id = Some COMPLETED
  ∧ StateMachine.canTransition (TaskManager.stateMachine completed_manager)
      COMPLETED CANCELLED = false
  ∧ ∃ m', TaskManager.cancelTask sample_task_id None uninterrupted completed_manager
          = (inr tt, m')
          ∧ TaskManager.taskStates m' !! sample_task_id = Some CANCELLED.
Proof.
  split; [reflexivity|]. split; [reflexivity|].
  eexists. split; reflexivity.
Qed.

(** When another caller pauses the task while it runs, [executeTask] still
    writes [completed] at the end: the status moves from [paused] to
    [completed], which is no edge of the graph either. *)
Example executeTask_overwrites_interleaved_pause :
  let pause_it m := (TaskManager.pauseTask sample_task_id uninterrupted m).2 in
  TaskManager.taskStates (pause_it (started sample_task_id sample_task created_manager))
    !! sample_task_id = Some PAUSED
  ∧ TaskManager.taskStates
      (TaskManager.executeTask sample_task_id pause_it created_manager).2
      !! sample_task_id = Some COMPLETED
  ∧ StateMachine.canTransition StateMachine.new PAUSED COMPLETED = false.
Proof. repeat split. Qed.

(** The other way round: the task settles while [pauseTask] waits for the
    task's [pause], and [pauseTask] then writes [paused] over [completed]. *)
Example pauseTask_overwrites_interleaved_completion :
  let finish m :=
    TaskManager.activeTasks_delete sample_task_id
      (TaskManager.taskStates_set sample_task_id COMPLETED m) in
  TaskManager.taskStates running_manager !! sample_task_id = Some RUNNING
  ∧ TaskManager.taskStates (finish running_manager) !! sample_task_id = Some COMPLETED
  ∧ TaskManager.taskStates
      (TaskManager.pauseTask sample_task_id finish running_manager).2
      !! sample_task_id = Some PAUSED
  ∧ StateMachine.canTransition StateMachine.new COMPLETED PAUSED = false.
Proof. repeat split. Qed.

(** The edges of the canonical graph that lead to the statuses the manager
    writes. *)
Lemma edges_into_written_statuses (before : TaskStatus) :
  (StateMachine.canTransition StateMachine.new before COMPLETED = true ↔ before = RUNNING)
  ∧ (StateMachine.canTransition StateMachine.new before FAILED = true ↔ before = RUNNING)
  ∧ (StateMachine.canTransition StateMachine.new before PAUSED = true ↔ before = RUNNING)
  ∧ (StateMachine.canTransition StateMachine.new before RUNNING = true
     ↔ before = CREATED ∨ before = QUEUED ∨ before = PAUSED ∨ before = RETRYING)
  ∧ (StateMachine.canTransition StateMachine.new before CANCELLED = true
     ↔ before ≠ COMPLETED ∧ before ≠ FAILED ∧ before ≠ CANCELLED).
Proof.
  destruct before; vm_compute; intuition congruence.
Qed.

(** C1, amended: the task manager never consults its state machine.
    [executeTask], [pauseTask] and [resumeTask] test the recorded status
    against fixed values instead (created or queued; running; paused) and
    reject the call without any change when the test fails.  [executeTask]
    records [running] directly after its test, and that change is an edge of
    the manager's state machine.  Every other status is written after an
    await, over whatever status is recorded at that moment: [completed] or
    [failed] when the task settles and [paused] after the task's [pause] are
    edges exactly when the status at that moment is still [running];
    [running] after the task's [resume] is an edge exactly when the status
    at that moment is [created], [queued], [paused] or [retrying], so it is
    one when the status is still [paused].  When other calls changed the
    status during the await the write can be a non-edge.  [cancelTask] tests
    nothing: for a known task in any status, once the task's [cancel]
    resolves it records [cancelled] and removes the task from the active set,
    which is an edge exactly when the status at that moment is not
    [completed], [failed] or [cancelled].  [createTask] records [created] for
    the id it returns. *)
Theorem status_changes_guarded_by_fixed_checks
    (m : TaskManager.TaskManagerImpl) (taskId : string) (task : Task) (s : TaskStatus)
    (reason : option string)
    (interleaved : TaskManager.TaskManagerImpl → TaskManager.TaskManagerImpl) :
  TaskManager.stateMachine m = StateMachine.new →
  TaskManager.tasks m !! taskId = Some task →
  TaskManager.taskStates m !! taskId = Some s →
  let sm := TaskManager.stateMachine m in
  (s = CREATED ∨ s = QUEUED →
     StateMachine.canTransition sm s RUNNING = true
     ∧ TaskManager.taskStates (started taskId task m) !! taskId = Some RUNNING
     ∧ ∃ r st,
         TaskManager.executeTask taskId interleaved m
         = (r, TaskManager.activeTasks_delete taskId
                 (TaskManager.taskStates_set taskId st
                    (interleaved (started taskId task m))))
         ∧ (st = COMPLETED ∨ st = FAILED)
         ∧ ∀ before,
             TaskManager.taskStates (interleaved (started taskId task m)) !! taskId
             = Some before →
             (StateMachine.canTransition sm before st = true ↔ before = RUNNING))
  ∧ (s ≠ CREATED → s ≠ QUEUED →
       TaskManager.executeTask taskId interleaved m
       = (inl (Error ("Task " ++ taskId ++ " is not in executable state")), m))
  ∧ (s = RUNNING → pause task = inr tt →
       TaskManager.pauseTask taskId interleaved m
       = (inr tt, TaskManager.taskStates_set taskId PAUSED (interleaved m))
       ∧ ∀ before,
           TaskManager.taskStates (interleaved m) !! taskId = Some before →
           (StateMachine.canTransition sm before PAUSED = true ↔ before = RUNNING))
  ∧ (s ≠ RUNNING →
       TaskManager.pauseTask taskId interleaved m
       = (inl (Error ("Task " ++ taskId ++ " is not running")), m))
  ∧ (s = PAUSED → resume task = inr tt →
       TaskManager.resumeTask taskId interleaved m
       = (inr tt, TaskManager.taskStates_set taskId RUNNING (interleaved m))
       ∧ ∀ before,
           TaskManager.taskStates (interleaved m) !! taskId = Some before →
           (StateMachine.canTransition sm before RUNNING = true
            ↔ before = CREATED ∨ before = QUEUED ∨ before = PAUSED ∨ before = RETRYING))
  ∧ (s ≠ PAUSED →
       TaskManager.resumeTask taskId interleaved m
       = (inl (Error ("Task " ++ taskId ++ " is not paused")), m))
  ∧ (cancel task reason = inr tt →
       ∃ m', TaskManager.cancelTask taskId reason interleaved m = (inr tt, m')
             ∧ m' = TaskManager.activeTasks_delete taskId
                      (TaskManager.taskStates_set taskId CANCELLED (interleaved m))
             ∧ TaskManager.taskStates m' !! taskId = Some CANCELLED
             ∧ TaskManager.activeTasks m' !! taskId = None
             ∧ ∀ before,
                 TaskManager.taskStates (interleaved m) !! taskId = Some before →
                 (StateMachine.canTransition sm before CANCELLED = true
                  ↔ before ≠ COMPLETED ∧ before ≠ FAILED ∧ before ≠ CANCELLED))
  ∧ (∀ (taskType : string) (inputs : gmap string JsValue) (now : nat) (suffix : string),
       TaskManager.getTaskStatus
         (TaskManager.createTask taskType inputs now suffix m).2
         (TaskManager.generateTaskId now suffix) = Some CREATED).
Proof.
  intros Hsm Htask Hs sm. subst sm. rewrite Hsm.
  split; [|split; [|split; [|split; [|split; [|split; [|split]]]]]];
    [..|intros; apply lookup_insert_eq].
  - intros Hor.
    split; [by destruct Hor as [-> | ->]|].
    split; [apply lookup_insert_eq|].
    rewrite (executeTask_accepted m taskId task interleaved Htask)
      by (destruct Hor as [-> | ->]; auto).
    destruct (execute task _) as [error|result].
    + exists (inl error), FAILED. split; [done|]. split; [by right|].
      intros before _. apply edges_into_written_statuses.
    + exists (inr result), COMPLETED. split; [done|]. split; [by left|].
      intros before _. apply edges_into_written_statuses.
  - intros Hc Hq. apply (executeTask_not_executable _ _ task); [done|..];
      rewrite Hs; congruence.
  - intros -> Hp. split; [by rewrite (pauseTask_running _ _ task), Hp|].
    intros before _. apply edges_into_written_statuses.
  - intros Hne. apply (pauseTask_not_running _ _ task); [done|].
    rewrite Hs; congruence.
  - intros -> Hr. split; [by rewrite (resumeTask_paused _ _ task), Hr|].
    intros before _. apply edges_into_written_statuses.
  - intros Hne. apply (resumeTask_not_paused _ _ task); [done|].
    rewrite Hs; congruence.
  - intros Hcancel. eexists. rewrite (cancelTask_known _ _ task) by done.
    rewrite Hcancel. split; [reflexivity|]. split; [reflexivity|].
    split; [apply status_after_finish|]. split; [apply status_after_finish|].
    intros before _. apply edges_into_written_statuses.
Qed.

Lemma status_changes_guarded_by_fixed_checks_witness :
  TaskManager.stateMachine created_manager = StateMachine.new
  ∧ TaskManager.taskStates created_manager !! sample_task_id = Some CREATED
  ∧ StateMachine.canTransition (TaskManager.stateMachine created_manager)
      CREATED RUNNING = true
  ∧ TaskManager.pauseTask sample_task_id uninterrupted created_manager
    = (inl (Error "Task task-1-k3x9a2b7c is not running"), created_manager)
  ∧ ∃ m', TaskManager.cancelTask sample_task_id None uninterrupted completed_manager
          = (inr tt, m')
          ∧ TaskManager.taskStates m' !! sample_task_id = Some CANCELLED
          ∧ TaskManager.activeTasks m' !! sample_task_id = None.
Proof.
  pose proof (status_changes_guarded_by_fixed_checks
                created_manager sample_task_id
                sample_task CREATED None uninterrupted
                eq_refl eq_refl eq_refl) as (Hexec & _ & _ & Hpause & _).
  pose proof (status_changes_guarded_by_fixed_checks
                completed_manager sample_task_id
                sample_task COMPLETED None uninterrupted
                eq_refl eq_refl eq_refl) as (_ & _ & _ & _ & _ & _ & Hcancel & _).
  split; [reflexivity|]. split; [reflexivity|].
  split; [apply Hexec; by left|].
  split; [apply Hpause; discriminate|].
  destruct (Hcancel eq_refl) as (m' & Hrun & _ & Hstatus & Hactive & _).
  by exists m'.
Defined.

(** ** The plugin manager *)

(** The registration loop of [loadPlugin] only touches the registry. *)
Lemma register_loop_on_registry (l : list TaskType) (m : PluginManager.PluginManagerImpl) :
  for_of l (λ taskType, PluginManager.on_registry (TaskRegistry.register taskType)) m
  = let '(r, reg) := for_of l TaskRegistry.register (PluginManager.registry m) in
    (r, PluginManager.with_registry reg m).
Proof.
  revert m. induction l as [|t l IH]; intros m.
  - by destruct m.
  - cbn [for_of]. unfold bind.
    unfold PluginManager.on_registry at 1, on_field.
    destruct (TaskRegistry.register t (PluginManager.registry m)) as [[e|[]] reg1];
      [reflexivity|].
    rewrite IH. cbn [PluginManager.registry PluginManager.with_registry].
    by destruct (for_of l TaskRegistry.register reg1).
Qed.

(** What the loop leaves when all registrations succeed, and when one of them
    fails: the task types before the failing one are stored, and stay. *)
Lemma register_loop_run (l : list TaskType) (r : TaskRegistry.TaskRegistryImpl) :
  match for_of l TaskRegistry.register r with
  | (inr _, r') => r' = register_all l r
  | (inl e, r') =>
      ∃ pre t post,
        l = (pre ++ t :: post)%list
        ∧ for_of pre TaskRegistry.register r = (inr tt, register_all pre r)
        ∧ r' = register_all pre r
        ∧ TaskRegistry.hasTaskType r' (name t) = true
        ∧ e = Error (TaskRegistry.already_registered_message (name t))
  end.
Proof.
  revert r. induction l as [|t l IH]; intros r; [reflexivity|].
  cbn [for_of]. unfold bind.
  destruct (TaskRegistry.hasTaskType r (name t)) eqn:Hhas.
  - rewrite (register_present _ _ Hhas). by exists [], t, l.
  - rewrite (register_absent _ _ Hhas).
    specialize (IH {| TaskRegistry.taskTypes := <[name t := t]> (TaskRegistry.taskTypes r);
                      TaskRegistry.taskTypeConfigs := TaskRegistry.taskTypeConfigs r |}).
    destruct (for_of l TaskRegistry.register _) as [[e|u] r'].
    + destruct IH as (pre & t1 & post & -> & Hpre & -> & Hcol & ->).
      exists (t :: pre), t1, post. repeat split; [|done].
      cbn [for_of]. unfold bind. by rewrite (register_absent _ _ Hhas), Hpre.
    + by rewrite IH.
Qed.

(** Every type stored by a run of successful registrations is still there
    under its name afterwards, and was not there before. *)
Lemma register_loop_keeps (pre : list TaskType) (r : TaskRegistry.TaskRegistryImpl) :
  (for_of pre TaskRegistry.register r).1 = inr tt →
  ∀ t, t ∈ pre →
    TaskRegistry.getTaskType (register_all pre r) (name t) = Some t
    ∧ TaskRegistry.getTaskType r (name t) = None.
Proof.
  revert r. induction pre as [|t0 pre IH]; intros r Hok t Hin.
  { by apply elem_of_nil in Hin. }
  cbn [for_of] in Hok. unfold bind in Hok.
  destruct (TaskRegistry.hasTaskType r (name t0)) eqn:Hhas.
  { by rewrite (register_present _ _ Hhas) in Hok. }
  rewrite (register_absent _ _ Hhas) in Hok.
  set (r1 := {| TaskRegistry.taskTypes := <[name t0 := t0]> (TaskRegistry.taskTypes r);
                TaskRegistry.taskTypeConfigs := TaskRegistry.taskTypeConfigs r |}) in *.
  assert (Hpres : ∀ l r0 n x, (for_of l TaskRegistry.register r0).1 = inr tt →
            TaskRegistry.getTaskType r0 n = Some x →
            TaskRegistry.getTaskType (register_all l r0) n = Some x).
  { clear. induction l as [|t1 l IHl]; intros r0 n x Hok Hx; [done|].
    cbn [for_of] in Hok. unfold bind in Hok.
    destruct (TaskRegistry.hasTaskType r0 (name t1)) eqn:Hhas.
    { by rewrite (register_present _ _ Hhas) in Hok. }
    rewrite (register_absent _ _ Hhas) in Hok.
    cbn [register_all foldl]. apply IHl.
    - by destruct (for_of l TaskRegistry.register _) as [[?|[]] ?].
    - unfold TaskRegistry.getTaskType in *. cbn.
      rewrite lookup_insert_ne; [done|].
      intros <-. apply Map_has_false in Hhas. congruence. }
  assert (Hok1 : (for_of pre TaskRegistry.register r1).1 = inr tt).
  { by destruct (for_of pre TaskRegistry.register r1) as [[?|[]] ?]. }
  cbn [register_all foldl]. fold r1. fold (register_all pre r1).
  apply elem_of_cons in Hin as [-> | Hin].
  - split; [|by apply Map_has_false in Hhas].
    apply Hpres; [done|]. unfold TaskRegistry.getTaskType, r1. cbn.
    apply lookup_insert_eq.
  - destruct (IH r1 Hok1 t Hin) as [Hstored Hfresh]. split; [done|].
    unfold TaskRegistry.getTaskType, r1 in Hfresh. cbn in Hfresh.
    apply lookup_insert_None in Hfresh as [? ?]. done.
Qed.

(** An [initialize] that touches nothing leaves the manager as it was. *)
Lemma initialized_settles (plugin : PluginManager.TaskPlugin) (outcome : Thrown + unit)
    (m : PluginManager.PluginManagerImpl) :
  PluginManager.initialized plugin
    (PluginManager.settles outcome (PluginManager.plugin_context m plugin)) m = m.
Proof.
  destruct m as [ps cs os r sv].
  unfold PluginManager.initialized, PluginManager.settles, PluginManager.plugin_context,
    PluginManager.getPluginConfig.
  cbn. f_equal.
  destruct (cs !! PluginManager.plugin_name plugin) as [config|] eqn:Hc; [|done].
  cbn. apply map_eq. intros i. destruct (decide (i = config)) as [->|Hne].
  - rewrite lookup_alter_eq. by destruct (os !! config).
  - by rewrite lookup_alter_ne.
Qed.

(** [loadPlugin] on a path that resolves to a well-shaped plugin, stage by
    stage. *)
Lemma loadPlugin_constructed (import : string → PluginManager.Imported)
    (pluginPath : string) (m : PluginManager.PluginManagerImpl)
    (plugin : PluginManager.TaskPlugin) :
  import pluginPath = PluginManager.Constructed plugin →
  PluginManager.loadPlugin import pluginPath m
  = if Map_has (PluginManager.plugins m) (PluginManager.plugin_name plugin)
    then (inl (Error (PluginManager.load_error_message pluginPath
                        (PluginManager.already_loaded_message
                           (PluginManager.plugin_name plugin)))), m)
    else
      let run := PluginManager.initialize plugin (PluginManager.plugin_context m plugin) in
      let m1 := PluginManager.initialized plugin run m in
      match PluginManager.init_outcome run with
      | inl e0 =>
          (inl (Error (PluginManager.load_error_message pluginPath (error_text e0))), m1)
      | inr _ =>
          match for_of (PluginManager.getTaskTypes plugin) TaskRegistry.register
                  (PluginManager.init_registry run) with
          | (inl e0, reg) =>
              (inl (Error (PluginManager.load_error_message pluginPath (error_text e0))),
               PluginManager.with_registry reg m1)
          | (inr _, reg) =>
              (inr tt,
               {| PluginManager.plugins :=
                    <[PluginManager.plugin_name plugin := plugin]> (PluginManager.plugins m);
                  PluginManager.pluginConfigs := PluginManager.pluginConfigs m;
                  PluginManager.configObjects := PluginManager.configObjects m1;
                  PluginManager.registry := reg;
                  PluginManager.services := PluginManager.init_services run |})
          end
      end.
Proof.
  intros Himport. unfold PluginManager.loadPlugin, try_catch. rewrite Himport.
  unfold bind at 1, get at 1. cbn beta iota.
  destruct (Map_has (PluginManager.plugins m) (PluginManager.plugin_name plugin));
    [reflexivity|].
  cbv zeta. unfold bind at 1, await.
  destruct (PluginManager.init_outcome (PluginManager.initialize plugin _)) as [e0|[]];
    [reflexivity|].
  unfold bind at 1. rewrite register_loop_on_registry.
  cbn [PluginManager.registry PluginManager.initialized].
  by destruct (for_of (PluginManager.getTaskTypes plugin) TaskRegistry.register _)
       as [[e0|[]] reg].
Qed.

Example load_b_plugin :
  PluginManager.loadPlugin sample_import "./b-plugin.js" empty_plugin_manager
  = (inr tt, manager_with_b)
  ∧ PluginManager.getPlugin manager_with_b "b-plugin" = Some plugin_b
  ∧ TaskRegistry.hasTaskType (PluginManager.registry manager_with_b) "b" = true.
Proof. repeat split. Qed.

(** C5, as stated, fails: with the type [b] already registered, loading the
    plugin that contributes [a] and [b] fails at [b] with a load error, the
    plugin is not recorded, and yet its type [a] stays in the registry, where
    it was not before. *)
Lemma loadPlugin_leaves_partial_registration :
  ∃ m',
    PluginManager.loadPlugin sample_import "./ab-plugin.js" manager_with_b
    = (inl (Error "Failed to load plugin from ./ab-plugin.js: Task type b is already registered"),
       m')
    ∧ PluginManager.getPlugin m' "ab-plugin" = None
    ∧ TaskRegistry.hasTaskType (PluginManager.registry manager_with_b) "a" = false
    ∧ sample_type "a" ∈ PluginManager.getTaskTypes plugin_ab
    ∧ TaskRegistry.hasTaskType (PluginManager.registry m') "a" = true.
Proof.
  eexists. split; [reflexivity|]. repeat split. by left.
Qed.

(** C5, amended: every failing [loadPlugin] call throws an error whose
    message is "Failed to load plugin from <path>: <cause>", and leaves the
    map of loaded plugins and the map from plugin names to configuration
    objects as they were.  When the failure is a module that does not
    resolve, a missing or invalid plugin shape, or a plugin name that is
    already loaded, the manager and the registry are entirely unchanged.
    Once [initialize] has been called nothing is rolled back: when it fails,
    the registry, the services and the plugin's configuration object are as
    [initialize] left them (so the manager is unchanged when [initialize]
    touched none of them); when a task-type registration fails, the registry
    is the one [initialize] left plus every task type of the plugin that
    precedes the failing one, and the services and the configuration object
    are as [initialize] left them. *)
Theorem loadPlugin_failure_effects
    (import : string → PluginManager.Imported) (pluginPath : string)
    (m m' : PluginManager.PluginManagerImpl) (e : Thrown) :
  PluginManager.loadPlugin import pluginPath m = (inl e, m') →
  (∃ cause, e = Error ("Failed to load plugin from " ++ pluginPath ++ ": " ++ cause))
  ∧ PluginManager.plugins m' = PluginManager.plugins m
  ∧ PluginManager.pluginConfigs m' = PluginManager.pluginConfigs m
  ∧ match import pluginPath with
    | PluginManager.Constructed plugin =>
        if Map_has (PluginManager.plugins m) (PluginManager.plugin_name plugin)
        then m' = m
        else
          let context := PluginManager.plugin_context m plugin in
          let run := PluginManager.initialize plugin context in
          PluginManager.services m' = PluginManager.init_services run
          ∧ PluginManager.configObjects m'
            = PluginManager.configObjects (PluginManager.initialized plugin run m)
          ∧ match PluginManager.init_outcome run with
            | inl cause =>
                e = Error (PluginManager.load_error_message pluginPath (error_text cause))
                ∧ m' = PluginManager.initialized plugin run m
                ∧ (run = PluginManager.settles (inl cause) context → m' = m)
            | inr _ =>
                ∃ pre t post,
                  PluginManager.getTaskTypes plugin = (pre ++ t :: post)%list
                  ∧ e = Error (PluginManager.load_error_message pluginPath
                                 (TaskRegistry.already_registered_message (name t)))
                  ∧ TaskRegistry.hasTaskType (PluginManager.registry m') (name t) = true
                  ∧ PluginManager.registry m'
                    = register_all pre (PluginManager.init_registry run)
                  ∧ ∀ t0, t0 ∈ pre →
                      TaskRegistry.getTaskType (PluginManager.registry m') (name t0)
                      = Some t0
                      ∧ TaskRegistry.getTaskType (PluginManager.init_registry run) (name t0)
                        = None
            end
    | _ => m' = m
    end.
Proof.
  destruct (import pluginPath) as [e0| |e0| |plugin] eqn:Himport.
  1-4: unfold PluginManager.loadPlugin, try_catch; rewrite Himport;
       intros [= <- <-]; by eauto 10.
  rewrite (loadPlugin_constructed _ _ _ _ Himport).
  destruct (Map_has (PluginManager.plugins m) (PluginManager.plugin_name plugin));
    [intros [= <- <-]; by eauto 10|].
  cbv zeta.
  set (context := PluginManager.plugin_context m plugin).
  set (run := PluginManager.initialize plugin context).
  destruct (PluginManager.init_outcome run) as [e0|[]] eqn:Hout.
  { intros [= <- <-]. split; [by eauto|]. do 4 (split; [done|]).
    split; [done|]. split; [done|].
    intros ->. apply initialized_settles. }
  pose proof (register_loop_run (PluginManager.getTaskTypes plugin)
                (PluginManager.init_registry run)) as Hrun.
  destruct (for_of (PluginManager.getTaskTypes plugin) TaskRegistry.register
              (PluginManager.init_registry run)) as [[e0|[]] reg']; [|done].
  intros [= <- <-].
  destruct Hrun as (pre & t & post & Hl & Hpre & -> & Hcol & ->).
  split; [by eauto|]. do 4 (split; [done|]).
  exists pre, t, post. cbn. do 4 (split; [done|]).
  apply register_loop_keeps. by rewrite Hpre.
Qed.

Lemma loadPlugin_failure_effects_witness :
  let m' := (PluginManager.loadPlugin sample_import "./ab-plugin.js" manager_with_b).2 in
  PluginManager.loadPlugin sample_import "./ab-plugin.js" manager_with_b
  = (inl (Error "Failed to load plugin from ./ab-plugin.js: Task type b is already registered"),
     m')
  ∧ PluginManager.plugins m' = PluginManager.plugins manager_with_b
  ∧ PluginManager.pluginConfigs m' = PluginManager.pluginConfigs manager_with_b.
Proof.
  intros m'.
  pose proof (loadPlugin_failure_effects sample_import "./ab-plugin.js" manager_with_b m'
                (Error "Failed to load plugin from ./ab-plugin.js: Task type b is already registered")
                eq_refl) as (_ & Hplugins & Hconfigs & _).
  split; [reflexivity|]. split; [exact Hplugins | exact Hconfigs].
Defined.

Example load_unresolved_module :
  PluginManager.loadPlugin sample_import "./missing.js" manager_with_b
  = (inl (Error "Failed to load plugin from ./missing.js: Cannot find module './missing.js'"),
     manager_with_b).
Proof. reflexivity. Qed.

Example load_same_plugin_twice :
  PluginManager.loadPlugin sample_import "./b-plugin.js" manager_with_b
  = (inl (Error "Failed to load plugin from ./b-plugin.js: Plugin b-plugin is already loaded"),
     manager_with_b).
Proof. reflexivity. Qed.




Example stubborn_type_still_registered :
  TaskRegistry.hasTaskType
    (PluginManager.registry (PluginManager.unloadPlugin "stubborn" manager_with_stubborn).2)
    "c" = true.
Proof. reflexivity. Qed.

(** * Further properties *)

(** ** Widening and narrowing the transition graph *)

Lemma Set_has_add (s : list TaskStatus) (x y : TaskStatus) :
  StateMachine.Set_has (StateMachine.Set_add s x) y
  = StateMachine.Set_has s y || bool_decide (x = y).
Proof.
  unfold StateMachine.Set_add, StateMachine.Set_has.
  destruct (bool_decide (x ∈ s)) eqn:Hx.
  - apply bool_decide_eq_true in Hx.
    destruct (decide (x = y)) as [<-|Hne].
    + by rewrite !bool_decide_eq_true_2.
    + by rewrite (bool_decide_eq_false_2 (x = y)), orb_false_r.
  - apply eq_true_iff_eq. rewrite orb_true_iff, !bool_decide_eq_true, elem_of_app.
    rewrite list_elem_of_singleton. intuition congruence.
Qed.

Lemma Set_has_delete (s : list TaskStatus) (x y : TaskStatus) :
  StateMachine.Set_has (StateMachine.Set_delete s x) y
  = StateMachine.Set_has s y && negb (bool_decide (x = y)).
Proof.
  unfold StateMachine.Set_delete, StateMachine.Set_has.
  apply eq_true_iff_eq.
  rewrite andb_true_iff, negb_true_iff, !bool_decide_eq_true, bool_decide_eq_false.
  rewrite list_elem_of_filter. intuition congruence.
Qed.

Lemma canTransition_addTransition
    (sm : StateMachine.TaskStateMachineImpl) (from to from' to' : TaskStatus) :
  StateMachine.canTransition (StateMachine.addTransition sm from to) from' to'
  = StateMachine.canTransition sm from' to'
    || (bool_decide (from = from') && bool_decide (to = to')).
Proof.
  unfold StateMachine.canTransition, StateMachine.addTransition. cbn.
  destruct (decide (from = from')) as [<-|Hne].
  - rewrite lookup_alter_eq, bool_decide_eq_true_2 by done. cbn.
    destruct (StateMachine.transitions sm !! from) as [s|] eqn:Hs.
    + rewrite Hs. cbn. apply Set_has_add.
    + rewrite lookup_insert_eq. cbn. apply Set_has_add.
  - rewrite lookup_alter_ne, (bool_decide_eq_false_2 (from = from')) by done.
    cbn. rewrite orb_false_r.
    destruct (StateMachine.transitions sm !! from); [done|].
    by rewrite lookup_insert_ne.
Qed.

(** X1: [addTransition(from, to)] makes exactly the pair [(from, to)] legal,
    on any state machine, whether or not [from] had an entry: afterwards
    [canTransition] answers as before on every other pair. *)
Theorem addTransition_adds_one_edge
    (sm : StateMachine.TaskStateMachineImpl) (from to from' to' : TaskStatus) :
  StateMachine.canTransition (StateMachine.addTransition sm from to) from' to'
  = StateMachine.canTransition sm from' to'
    || (bool_decide (from = from') && bool_decide (to = to')).
Proof. apply canTransition_addTransition. Qed.

Lemma canTransition_removeTransition
    (sm : StateMachine.TaskStateMachineImpl) (from to from' to' : TaskStatus) :
  StateMachine.canTransition (StateMachine.removeTransition sm from to) from' to'
  = StateMachine.canTransition sm from' to'
    && negb (bool_decide (from = from') && bool_decide (to = to')).
Proof.
  unfold StateMachine.canTransition, StateMachine.removeTransition. cbn.
  destruct (decide (from = from')) as [<-|Hne].
  - rewrite lookup_alter_eq, bool_decide_eq_true_2 by done. cbn.
    destruct (StateMachine.transitions sm !! from) as [s|]; [|done].
    cbn. apply Set_has_delete.
  - rewrite lookup_alter_ne, (bool_decide_eq_false_2 (from = from')) by done.
    cbn. by rewrite andb_true_r.
Qed.

(** X2: [removeTransition(from, to)] makes exactly the pair [(from, to)]
    illegal and is a no-operation when [from] has no entry: afterwards
    [canTransition] answers as before on every other pair. *)
Theorem removeTransition_removes_one_edge
    (sm : StateMachine.TaskStateMachineImpl) (from to from' to' : TaskStatus) :
  StateMachine.canTransition (StateMachine.removeTransition sm from to) from' to'
  = StateMachine.canTransition sm from' to'
    && negb (bool_decide (from = from') && bool_decide (to = to')).
Proof. apply canTransition_removeTransition. Qed.

(** X3: adding a pair that was illegal and removing it again, or removing a
    pair that was legal and adding it again, gives a state machine that
    answers every [canTransition] question as the original one. *)
Theorem add_remove_transition_round_trip
    (sm : StateMachine.TaskStateMachineImpl) (from to : TaskStatus) :
  (StateMachine.canTransition sm from to = false →
   ∀ from' to',
     StateMachine.canTransition
       (StateMachine.removeTransition (StateMachine.addTransition sm from to) from to)
       from' to'
     = StateMachine.canTransition sm from' to')
  ∧ (StateMachine.canTransition sm from to = true →
     ∀ from' to',
       StateMachine.canTransition
         (StateMachine.addTransition (StateMachine.removeTransition sm from to) from to)
         from' to'
       = StateMachine.canTransition sm from' to').
Proof.
  split; intros H from' to'.
  - rewrite canTransition_removeTransition, canTransition_addTransition.
    destruct (decide (from = from')) as [<-|?], (decide (to = to')) as [<-|?];
      rewrite ?H, ?bool_decide_eq_true_2, ?(bool_decide_eq_false_2 (from = _)),
        ?(bool_decide_eq_false_2 (to = _)) by done;
      cbn; by rewrite ?orb_false_r, ?andb_true_r.
  - rewrite canTransition_addTransition, canTransition_removeTransition.
    destruct (decide (from = from')) as [<-|?], (decide (to = to')) as [<-|?];
      rewrite ?H, ?bool_decide_eq_true_2, ?(bool_decide_eq_false_2 (from = _)),
        ?(bool_decide_eq_false_2 (to = _)) by done;
      cbn; by rewrite ?orb_false_r, ?andb_true_r.
Qed.

Lemma add_remove_transition_round_trip_witness :
  StateMachine.canTransition StateMachine.new COMPLETED QUEUED = false
  ∧ StateMachine.canTransition
      (StateMachine.removeTransition
         (StateMachine.addTransition StateMachine.new COMPLETED QUEUED) COMPLETED QUEUED)
      RUNNING PAUSED
    = StateMachine.canTransition StateMachine.new RUNNING PAUSED.
Proof.
  split; [reflexivity|].
  apply (proj1 (add_remove_transition_round_trip StateMachine.new COMPLETED QUEUED)).
  reflexivity.
Defined.

Lemma Extended_sets_duplicate_free (sm : StateMachine.TaskStateMachineImpl) :
  StateMachine.Extended sm →
  ∀ st l, StateMachine.transitions sm !! st = Some l → NoDup l.
Proof.
  induction 1 as [|sm from to _ IH|sm from to _ IH]; intros st l Hl.
  - destruct st; vm_compute in Hl; try discriminate Hl; injection Hl as <-;
      by apply (bool_decide_unpack _).
  - unfold StateMachine.addTransition in Hl. cbn in Hl.
    destruct (decide (from = st)) as [<-|Hne].
    + rewrite lookup_alter_eq in Hl.
      assert (∃ s, NoDup s ∧ l = StateMachine.Set_add s to) as (s & Hs & ->).
      { destruct (StateMachine.transitions sm !! from) as [s|] eqn:Hfrom.
        - rewrite Hfrom in Hl. injection Hl as <-. eauto.
        - rewrite lookup_insert_eq in Hl. injection Hl as <-.
          exists []. split; [constructor|done]. }
      unfold StateMachine.Set_add, StateMachine.Set_has.
      destruct (bool_decide (to ∈ s)) eqn:Hin; [done|].
      apply bool_decide_eq_false in Hin.
      apply NoDup_app. split; [done|]. split; [|apply NoDup_singleton].
      intros x Hx ->%list_elem_of_singleton. done.
    + rewrite lookup_alter_ne in Hl by done.
      destruct (StateMachine.transitions sm !! from); [by eapply IH|].
      rewrite lookup_insert_ne in Hl by done. by eapply IH.
  - unfold StateMachine.removeTransition in Hl. cbn in Hl.
    destruct (decide (from = st)) as [<-|Hne].
    + rewrite lookup_alter_eq in Hl.
      destruct (StateMachine.transitions sm !! from) as [s|] eqn:Hfrom; [|done].
      injection Hl as <-. apply NoDup_filter. by eapply IH.
    + rewrite lookup_alter_ne in Hl by done. by eapply IH.
Qed.

(** X4: on a constructed state machine, however it was widened and narrowed
    afterwards, [getAllowedTransitions(state)] lists no state twice, and it
    lists exactly the states [to] for which [canTransition(state, to)] is
    true. *)
Theorem getAllowedTransitions_exact
    (sm : StateMachine.TaskStateMachineImpl) (st : TaskStatus) :
  StateMachine.Extended sm →
  NoDup (StateMachine.getAllowedTransitions sm st)
  ∧ ∀ to, to ∈ StateMachine.getAllowedTransitions sm st
          ↔ StateMachine.canTransition sm st to = true.
Proof.
  intros Hext. unfold StateMachine.getAllowedTransitions, StateMachine.canTransition.
  destruct (StateMachine.transitions sm !! st) as [l|] eqn:Hl.
  - split; [by eapply Extended_sets_duplicate_free|].
    intros to. unfold StateMachine.Set_has. by rewrite bool_decide_eq_true.
  - split; [constructor|]. intros to. split; [by intros ?%elem_of_nil|done].
Qed.

Lemma getAllowedTransitions_exact_witness :
  NoDup (StateMachine.getAllowedTransitions
           (StateMachine.addTransition
              (StateMachine.addTransition StateMachine.new COMPLETED QUEUED)
              COMPLETED QUEUED)
           COMPLETED).
Proof.
  apply (getAllowedTransitions_exact
           (StateMachine.addTransition
              (StateMachine.addTransition StateMachine.new COMPLETED QUEUED)
              COMPLETED QUEUED) COMPLETED).
  do 2 apply StateMachine.Extended_add. apply StateMachine.Extended_new.
Defined.

Example add_transition_twice :
  StateMachine.getAllowedTransitions
    (StateMachine.addTransition
       (StateMachine.addTransition StateMachine.new COMPLETED QUEUED) COMPLETED QUEUED)
    COMPLETED = [QUEUED].
Proof. reflexivity. Qed.

Lemma legal_path_avoids (sm : StateMachine.TaskStateMachineImpl) (bad : TaskStatus) :
  (∀ from, StateMachine.canTransition sm from bad = false) →
  ∀ path from, StateMachine.legal_path sm from path = true → bad ∉ path.
Proof.
  intros Hbad. induction path as [|to rest IH]; intros from Hpath.
  - apply not_elem_of_nil.
  - cbn in Hpath. apply andb_true_iff in Hpath as [Hstep Hrest].
    apply not_elem_of_cons. split; [|by eapply IH].
    intros ->. by rewrite Hbad in Hstep.
Qed.

(** X5: in the transition graph a constructed state machine starts with, no
    sequence of accepted transitions, from whatever state, ever enters
    [created] or [retrying]; from [completed] no transition at all is
    accepted; and from every other state [completed] is reached by at most
    three accepted transitions. *)
Theorem canonical_graph_walks :
  (∀ from path,
     StateMachine.legal_path StateMachine.new from path = true →
     (CREATED ∉ path) ∧ (RETRYING ∉ path))
  ∧ (∀ path,
       StateMachine.legal_path StateMachine.new COMPLETED path = true → path = [])
  ∧ (∀ from, from ≠ COMPLETED →
       ∃ path, (length path ≤ 3)%nat
               ∧ StateMachine.legal_path StateMachine.new from path = true
               ∧ last path = Some COMPLETED).
Proof.
  split; [|split].
  - intros from path Hpath. split.
    + refine (legal_path_avoids StateMachine.new CREATED _ path from Hpath).
      by intros [].
    + refine (legal_path_avoids StateMachine.new RETRYING _ path from Hpath).
      by intros [].
  - intros [|to rest]; [done|]. by destruct to.
  - intros from Hne.
    assert (∀ path, (length path <=? 3)%nat = true →
              StateMachine.legal_path StateMachine.new from path = true →
              last path = Some COMPLETED →
              ∃ path, (length path ≤ 3)%nat
                      ∧ StateMachine.legal_path StateMachine.new from path = true
                      ∧ last path = Some COMPLETED) as Hgive.
    { intros path Hlen%Nat.leb_le ? ?. by exists path. }
    destruct from; try done.
    + by apply (Hgive [RUNNING; COMPLETED]).
    + by apply (Hgive [RUNNING; COMPLETED]).
    + by apply (Hgive [COMPLETED]).
    + by apply (Hgive [RUNNING; COMPLETED]).
    + by apply (Hgive [QUEUED; RUNNING; COMPLETED]).
    + by apply (Hgive [QUEUED; RUNNING; COMPLETED]).
    + by apply (Hgive [RUNNING; COMPLETED]).
Qed.

Lemma canonical_graph_walks_witness :
  StateMachine.legal_path StateMachine.new FAILED [QUEUED; RUNNING; PAUSED] = true
  ∧ (CREATED ∉ [QUEUED; RUNNING; PAUSED]) ∧ (RETRYING ∉ [QUEUED; RUNNING; PAUSED]).
Proof.
  split; [reflexivity|].
  apply (proj1 canonical_graph_walks FAILED [QUEUED; RUNNING; PAUSED]). reflexivity.
Defined.

(** ** More on the service registry *)

Lemma unregisterService_present (r : ServiceRegistry.TaskServiceRegistry) (serviceId : string) :
  ServiceRegistry.hasService r serviceId = true →
  ServiceRegistry.unregisterService serviceId r
  = (inr tt, {| ServiceRegistry.services := delete serviceId (ServiceRegistry.services r);
                ServiceRegistry.serviceConfigs :=
                  delete serviceId (ServiceRegistry.serviceConfigs r) |}).
Proof.
  unfold ServiceRegistry.hasService, ServiceRegistry.unregisterService, bind, get. cbn.
  by intros ->.
Qed.

Lemma unregisterService_absent (r : ServiceRegistry.TaskServiceRegistry) (serviceId : string) :
  ServiceRegistry.hasService r serviceId = false →
  ServiceRegistry.unregisterService serviceId r
  = (inl (Error (ServiceRegistry.not_registered_message serviceId)), r).
Proof.
  unfold ServiceRegistry.hasService, ServiceRegistry.unregisterService, bind, get. cbn.
  by intros ->.
Qed.

Lemma getService_frame (r r' : ServiceRegistry.TaskServiceRegistry) (serviceId : string) :
  ServiceRegistry.services r' !! serviceId = ServiceRegistry.services r !! serviceId →
  (ServiceRegistry.getService serviceId r').1 = (ServiceRegistry.getService serviceId r).1.
Proof.
  intros H. unfold ServiceRegistry.getService, Map_get, bind, get. cbn. rewrite H.
  by destruct (truthy _).
Qed.

(** X6: registering a truthy instance under a free id succeeds, after which
    [getService] returns that very instance and [size] has grown by one; the
    answer of [getService] for every other id is what it was before. *)
Theorem registerService_then_getService
    (r : ServiceRegistry.TaskServiceRegistry) (serviceId : string) (service : JsValue) :
  ServiceRegistry.hasService r serviceId = false →
  truthy service = true →
  ∃ r1,
    ServiceRegistry.registerService serviceId service r = (inr tt, r1)
    ∧ ServiceRegistry.getService serviceId r1 = (inr service, r1)
    ∧ ServiceRegistry.size r1 = S (ServiceRegistry.size r)
    ∧ ∀ other, other ≠ serviceId →
        (ServiceRegistry.getService other r1).1 = (ServiceRegistry.getService other r).1.
Proof.
  intros Hfree Htruthy. eexists. split; [by apply registerService_absent|]. split; [|split].
  - rewrite (getService_stored _ _ service); [by rewrite Htruthy|]. apply lookup_insert_eq.
  - unfold ServiceRegistry.size. cbn. apply map_size_insert_None.
    by apply Map_has_false.
  - intros other Hne. apply getService_frame. cbn. by apply lookup_insert_ne.
Qed.

Lemma registerService_then_getService_witness :
  ∃ r1,
    ServiceRegistry.registerService "logger" (JsObj 1) ServiceRegistry.new = (inr tt, r1)
    ∧ ServiceRegistry.getService "logger" r1 = (inr (JsObj 1), r1)
    ∧ ServiceRegistry.size r1 = S (ServiceRegistry.size ServiceRegistry.new)
    ∧ ∀ other, other ≠ "logger" →
        (ServiceRegistry.getService other r1).1
        = (ServiceRegistry.getService other ServiceRegistry.new).1.
Proof.
  apply (registerService_then_getService ServiceRegistry.new "logger" (JsObj 1));
    reflexivity.
Defined.

(** X7: [unregisterService] of an id that is not registered throws "Service
    <id> is not registered" and changes nothing.  For a registered id it
    succeeds and removes the instance together with the configuration stored
    under that id; [size] drops by one, [getService] then throws "Service
    <id> not found", other ids are untouched, and the id can be registered
    again. *)
Theorem unregisterService_contract
    (r : ServiceRegistry.TaskServiceRegistry) (serviceId : string) :
  (ServiceRegistry.hasService r serviceId = false →
     ServiceRegistry.unregisterService serviceId r
     = (inl (Error ("Service " ++ serviceId ++ " is not registered")), r))
  ∧ (ServiceRegistry.hasService r serviceId = true →
       ∃ r1,
         ServiceRegistry.unregisterService serviceId r = (inr tt, r1)
         ∧ ServiceRegistry.hasService r1 serviceId = false
         ∧ ServiceRegistry.getServiceConfig r1 serviceId = None
         ∧ S (ServiceRegistry.size r1) = ServiceRegistry.size r
         ∧ ServiceRegistry.getService serviceId r1
           = (inl (Error ("Service " ++ serviceId ++ " not found")), r1)
         ∧ (∀ other, other ≠ serviceId →
              ServiceRegistry.services r1 !! other = ServiceRegistry.services r !! other
              ∧ ServiceRegistry.getServiceConfig r1 other
                = ServiceRegistry.getServiceConfig r other)
         ∧ ∀ service, ∃ r2,
             ServiceRegistry.registerService serviceId service r1 = (inr tt, r2)).
Proof.
  split; [apply unregisterService_absent|].
  intros Hhas. eexists. split; [by apply unregisterService_present|].
  assert (Hgone : ServiceRegistry.hasService
            {| ServiceRegistry.services := delete serviceId (ServiceRegistry.services r);
               ServiceRegistry.serviceConfigs :=
                 delete serviceId (ServiceRegistry.serviceConfigs r) |} serviceId = false)
    by apply Map_has_delete.
  split; [done|]. split; [apply lookup_delete_eq|]. split; [|split; [|split]].
  - unfold ServiceRegistry.size. cbn.
    apply Map_has_true in Hhas. rewrite map_size_delete_Some by done.
    assert (size (ServiceRegistry.services r) ≠ 0); [|lia].
    intros Hzero%map_size_empty_inv. rewrite Hzero, lookup_empty in Hhas.
    by destruct Hhas.
  - by apply getService_unregistered.
  - intros other Hne. unfold ServiceRegistry.getServiceConfig. cbn.
    by rewrite !lookup_delete_ne.
  - intros service. eexists. by apply registerService_absent.
Qed.

Lemma unregisterService_contract_witness :
  ServiceRegistry.unregisterService "logger" ServiceRegistry.new
  = (inl (Error "Service logger is not registered"), ServiceRegistry.new)
  ∧ ∃ r1,
      ServiceRegistry.unregisterService "logger" logger_registry = (inr tt, r1)
      ∧ ServiceRegistry.hasService r1 "logger" = false.
Proof.
  pose proof (unregisterService_contract ServiceRegistry.new "logger") as [Habsent _].
  pose proof (unregisterService_contract logger_registry "logger") as [_ Hpresent].
  split; [by apply Habsent|].
  destruct (Hpresent eq_refl) as (r1 & Hrun & Hgone & _).
  by exists r1.
Defined.

(** X8: a service configuration is independent of the instance.  It can be
    stored for an id that has no instance, which does not make the service
    exist; [unregisterService] of that id then fails and leaves the
    configuration in place; and a later [registerService] of the id succeeds
    and keeps the configuration. *)
Theorem service_config_without_instance
    (r : ServiceRegistry.TaskServiceRegistry) (serviceId : string)
    (cfg : ServiceRegistry.ServiceConfig) :
  ServiceRegistry.hasService r serviceId = false →
  let r1 := ServiceRegistry.registerServiceConfig serviceId cfg r in
  ServiceRegistry.getServiceConfig r1 serviceId = Some cfg
  ∧ ServiceRegistry.hasService r1 serviceId = false
  ∧ ServiceRegistry.unregisterService serviceId r1
    = (inl (Error ("Service " ++ serviceId ++ " is not registered")), r1)
  ∧ ∀ service, ∃ r2,
      ServiceRegistry.registerService serviceId service r1 = (inr tt, r2)
      ∧ ServiceRegistry.getServiceConfig r2 serviceId = Some cfg.
Proof.
  intros Hfree r1.
  assert (Hfree1 : ServiceRegistry.hasService r1 serviceId = false) by done.
  split; [apply lookup_insert_eq|]. split; [done|].
  split; [by apply unregisterService_absent|].
  intros service. eexists. split; [by apply registerService_absent|].
  apply lookup_insert_eq.
Qed.

Lemma service_config_without_instance_witness :
  ServiceRegistry.hasService ServiceRegistry.new "cache" = false
  ∧ ServiceRegistry.getServiceConfig
      (ServiceRegistry.registerServiceConfig "cache" sample_service_config
         ServiceRegistry.new) "cache"
    = Some sample_service_config.
Proof.
  split; [reflexivity|].
  apply (service_config_without_instance ServiceRegistry.new "cache" sample_service_config).
  reflexivity.
Defined.

(** ** More on the task-type registry *)

Lemma map_size_delete_present {V} (m : gmap string V) (k : string) :
  is_Some (m !! k) → S (size (delete k m)) = size m.
Proof.
  intros Hk. rewrite map_size_delete_Some by done.
  assert (size m ≠ 0); [|lia].
  intros Hzero%map_size_empty_inv. rewrite Hzero, lookup_empty in Hk. by destruct Hk.
Qed.

Lemma registerTaskTypeConfig_present (r : TaskRegistry.TaskRegistryImpl) (n : string)
    (cfg : TaskRegistry.TaskTypeConfig) :
  TaskRegistry.hasTaskType r n = true →
  TaskRegistry.registerTaskTypeConfig n cfg r
  = (inr tt, {| TaskRegistry.taskTypes := TaskRegistry.taskTypes r;
                TaskRegistry.taskTypeConfigs := <[n := cfg]> (TaskRegistry.taskTypeConfigs r) |}).
Proof.
  unfold TaskRegistry.registerTaskTypeConfig, bind, get. cbn. by intros ->.
Qed.

Lemma registerTaskTypeConfig_absent (r : TaskRegistry.TaskRegistryImpl) (n : string)
    (cfg : TaskRegistry.TaskTypeConfig) :
  TaskRegistry.hasTaskType r n = false →
  TaskRegistry.registerTaskTypeConfig n cfg r
  = (inl (Error (TaskRegistry.not_registered_message n)), r).
Proof.
  unfold TaskRegistry.registerTaskTypeConfig, bind, get. cbn. by intros ->.
Qed.

(** X9: in the task-type registry a configuration never outlives its type
    nor precedes it: starting from an empty registry, after any sequence of
    [register], [unregister], [registerTaskTypeConfig] and [clear] calls,
    failed ones included, every name that has a configuration is a
    registered task type. *)
Theorem registry_configs_belong_to_types (r : TaskRegistry.TaskRegistryImpl) :
  configs_of_registered TaskRegistry.new
  ∧ (configs_of_registered r →
     (∀ t, configs_of_registered (TaskRegistry.register t r).2)
     ∧ (∀ n, configs_of_registered (TaskRegistry.unregister n r).2)
     ∧ (∀ n cfg, configs_of_registered (TaskRegistry.registerTaskTypeConfig n cfg r).2)
     ∧ configs_of_registered (TaskRegistry.clear r)).
Proof.
  assert (Hnew : configs_of_registered TaskRegistry.new).
  { intros n. cbn. rewrite lookup_empty. by intros []. }
  split; [done|]. intros Hinv. split; [|split; [|split]].
  - intros t. destruct (TaskRegistry.hasTaskType r (name t)) eqn:Hhas.
    + by rewrite (register_present _ _ Hhas).
    + rewrite (register_absent _ _ Hhas). intros n Hn. cbn in *.
      destruct (decide (name t = n)) as [<-|Hne].
      * rewrite lookup_insert_eq. eauto.
      * rewrite lookup_insert_ne by done. by apply Hinv.
  - intros n. destruct (TaskRegistry.hasTaskType r n) eqn:Hhas.
    + rewrite (unregister_present _ _ Hhas). intros n' Hn'. cbn in *.
      destruct (decide (n = n')) as [<-|Hne].
      * rewrite lookup_delete_eq in Hn'. by destruct Hn'.
      * rewrite lookup_delete_ne in Hn' by done.
        rewrite lookup_delete_ne by done. by apply Hinv.
    + by rewrite (unregister_absent _ _ Hhas).
  - intros n cfg. destruct (TaskRegistry.hasTaskType r n) eqn:Hhas.
    + rewrite (registerTaskTypeConfig_present _ _ _ Hhas). intros n' Hn'. cbn in *.
      destruct (decide (n = n')) as [<-|Hne].
      * by apply Map_has_true.
      * rewrite lookup_insert_ne in Hn' by done. by apply Hinv.
    + by rewrite (registerTaskTypeConfig_absent _ _ _ Hhas).
  - done.
Qed.

Lemma registry_configs_belong_to_types_witness :
  configs_of_registered echo_registry
  ∧ configs_of_registered
      (TaskRegistry.unregister "echo"
         (TaskRegistry.registerTaskTypeConfig "echo" sample_type_config echo_registry).2).2.
Proof.
  assert (H0 : configs_of_registered echo_registry).
  { apply (proj2 (registry_configs_belong_to_types TaskRegistry.new)).
    apply (proj1 (registry_configs_belong_to_types TaskRegistry.new)). }
  split; [exact H0|].
  apply (proj2 (registry_configs_belong_to_types
                  (TaskRegistry.registerTaskTypeConfig "echo" sample_type_config
                     echo_registry).2)).
  by apply (proj2 (registry_configs_belong_to_types echo_registry)).
Defined.

(** X10: [registerTaskTypeConfig] throws "Task type <name> is not
    registered" for an unregistered name and changes nothing.  For a
    registered name it succeeds, [getTaskTypeConfig] then returns the
    configuration given last (an earlier one is overwritten), the registered
    types are unchanged, and so are the configurations of all other names. *)
Theorem registerTaskTypeConfig_contract
    (r : TaskRegistry.TaskRegistryImpl) (n : string)
    (cfg cfg' : TaskRegistry.TaskTypeConfig) :
  (TaskRegistry.hasTaskType r n = false →
     TaskRegistry.registerTaskTypeConfig n cfg r
     = (inl (Error ("Task type " ++ n ++ " is not registered")), r))
  ∧ (TaskRegistry.hasTaskType r n = true →
       ∃ r1 r2,
         TaskRegistry.registerTaskTypeConfig n cfg r = (inr tt, r1)
         ∧ TaskRegistry.getTaskTypeConfig r1 n = Some cfg
         ∧ TaskRegistry.registerTaskTypeConfig n cfg' r1 = (inr tt, r2)
         ∧ TaskRegistry.getTaskTypeConfig r2 n = Some cfg'
         ∧ TaskRegistry.taskTypes r2 = TaskRegistry.taskTypes r
         ∧ ∀ other, other ≠ n →
             TaskRegistry.getTaskTypeConfig r2 other
             = TaskRegistry.getTaskTypeConfig r other).
Proof.
  split; [apply registerTaskTypeConfig_absent|].
  intros Hhas. eexists _, _.
  split; [by apply registerTaskTypeConfig_present|].
  split; [apply lookup_insert_eq|].
  split; [by apply registerTaskTypeConfig_present|].
  split; [apply lookup_insert_eq|]. split; [done|].
  intros other Hne. unfold TaskRegistry.getTaskTypeConfig. cbn.
  by rewrite !lookup_insert_ne.
Qed.

Lemma registerTaskTypeConfig_contract_witness :
  TaskRegistry.registerTaskTypeConfig "ghost" sample_type_config echo_registry
  = (inl (Error "Task type ghost is not registered"), echo_registry)
  ∧ ∃ r1, TaskRegistry.registerTaskTypeConfig "echo" sample_type_config echo_registry
          = (inr tt, r1)
          ∧ TaskRegistry.getTaskTypeConfig r1 "echo" = Some sample_type_config.
Proof.
  pose proof (registerTaskTypeConfig_contract echo_registry "ghost"
                sample_type_config sample_type_config) as [Habsent _].
  pose proof (registerTaskTypeConfig_contract echo_registry "echo"
                sample_type_config sample_type_config) as [_ Hpresent].
  split; [by apply Habsent|].
  destruct (Hpresent eq_refl) as (r1 & r2 & Hrun & Hget & _).
  by exists r1.
Defined.

(** ** More on the task factory *)

Lemma createTask_unregistered (f : TaskFactory.TaskFactoryImpl) (T taskId : string)
    (inputs : gmap string JsValue) :
  TaskRegistry.getTaskType (TaskFactory.registry f) T = None →
  TaskFactory.createTask T taskId inputs f
  = (inl (Error (TaskFactory.type_not_found_message T)), f).
Proof. intros H. unfold TaskFactory.createTask, bind, get. cbn. by rewrite H. Qed.

(** A successful [createTask] means the type is registered, and leaves its
    result in the cache under the key of the call. *)
Lemma createTask_success (f f1 : TaskFactory.TaskFactoryImpl) (T taskId : string)
    (inputs : gmap string JsValue) (task : Task) :
  TaskFactory.createTask T taskId inputs f = (inr task, f1) →
  is_Some (TaskRegistry.getTaskType (TaskFactory.registry f) T)
  ∧ TaskFactory.registry f1 = TaskFactory.registry f
  ∧ TaskFactory.taskCache f1 !! TaskFactory.cache_key T taskId = Some task.
Proof.
  destruct (TaskRegistry.getTaskType (TaskFactory.registry f) T) as [ty|] eqn:Hty.
  - rewrite (createTask_registered _ _ _ _ _ Hty).
    destruct (TaskFactory.taskCache f !! _) eqn:Hc; intros [= <- <-].
    + eauto.
    + split; [eauto|]. split; [done|]. apply lookup_insert_eq.
  - by rewrite (createTask_unregistered _ _ _ _ Hty).
Qed.

(** [createTask] never evicts or replaces what the cache holds. *)
Lemma createTask_keeps_cache (f f1 : TaskFactory.TaskFactoryImpl) (T taskId : string)
    (inputs : gmap string JsValue) (res : Thrown + Task) :
  TaskFactory.createTask T taskId inputs f = (res, f1) →
  TaskFactory.registry f1 = TaskFactory.registry f
  ∧ ∀ key task, TaskFactory.taskCache f !! key = Some task →
                TaskFactory.taskCache f1 !! key = Some task.
Proof.
  destruct (TaskRegistry.getTaskType (TaskFactory.registry f) T) as [ty|] eqn:Hty.
  - rewrite (createTask_registered _ _ _ _ _ Hty).
    destruct (TaskFactory.taskCache f !! TaskFactory.cache_key T taskId) eqn:Hc;
      intros [= <- <-]; [done|].
    split; [done|]. intros key task Hkey. cbn.
    rewrite lookup_insert_ne; [done|]. intros <-. congruence.
  - rewrite (createTask_unregistered _ _ _ _ Hty). by intros [= <- <-].
Qed.

Lemma createTask_cached (f : TaskFactory.TaskFactoryImpl) (T taskId : string)
    (inputs : gmap string JsValue) (task : Task) :
  is_Some (TaskRegistry.getTaskType (TaskFactory.registry f) T) →
  TaskFactory.taskCache f !! TaskFactory.cache_key T taskId = Some task →
  TaskFactory.createTask T taskId inputs f = (inr task, f).
Proof.
  intros [ty Hty] Hc. by rewrite (createTask_registered _ _ _ _ _ Hty), Hc.
Qed.

(** X11: creation is idempotent per type name and id.  Once
    [createTask(T, id, ..)] has succeeded, every later [createTask(T, id, ..)]
    returns that same task and leaves the factory untouched, whatever inputs
    it is given, and also when a different task type has meanwhile been
    registered under the name [T].  When the name has been unregistered the
    call throws "Task type <T> not found", and the task stays in the
    cache. *)
Theorem createTask_idempotent_per_key
    (f f1 : TaskFactory.TaskFactoryImpl) (T taskId : string)
    (inputs inputs' : gmap string JsValue) (task : Task) :
  TaskFactory.createTask T taskId inputs f = (inr task, f1) →
  TaskFactory.createTask T taskId inputs' f1 = (inr task, f1)
  ∧ (∀ (r' : TaskRegistry.TaskRegistryImpl) (ty' : TaskType),
       TaskRegistry.getTaskType r' T = Some ty' →
       TaskFactory.createTask T taskId inputs' (registry_now r' f1)
       = (inr task, registry_now r' f1))
  ∧ (∀ r' : TaskRegistry.TaskRegistryImpl,
       TaskRegistry.getTaskType r' T = None →
       TaskFactory.createTask T taskId inputs' (registry_now r' f1)
       = (inl (Error ("Task type " ++ T ++ " not found")), registry_now r' f1)
       ∧ TaskFactory.taskCache (registry_now r' f1) !! TaskFactory.cache_key T taskId
         = Some task).
Proof.
  intros Hrun. destruct (createTask_success _ _ _ _ _ _ Hrun) as (Hty & Hreg & Hc).
  split; [|split].
  - apply createTask_cached; [by rewrite Hreg | done].
  - intros r' ty' Hty'. apply createTask_cached; [by cbn; eauto | done].
  - intros r' Hnone. split; [by apply createTask_unregistered | done].
Qed.

Lemma createTask_idempotent_per_key_witness :
  let f := TaskFactory.new echo_registry in
  let f1 := (TaskFactory.createTask "echo" "t1" ∅ f).2 in
  TaskFactory.createTask "echo" "t1" ∅ f = (inr (createTask echo_type "t1" ∅), f1)
  ∧ TaskFactory.createTask "echo" "t1" {["mode" := JsStr "fast"]} f1
    = (inr (createTask echo_type "t1" ∅), f1).
Proof.
  intros f f1. split; [reflexivity|].
  apply (createTask_idempotent_per_key f f1 "echo" "t1" ∅ {["mode" := JsStr "fast"]}
           (createTask echo_type "t1" ∅)).
  reflexivity.
Defined.

(** X12: the cache key joins type name and id with a colon and nothing keeps
    the two apart.  When two calls agree on the joined key, as the type "a"
    with id "b:c" and the type "a:b" with id "c" do, the second call returns
    the task the first call created for the other type. *)
Theorem createTask_key_collision
    (f f1 : TaskFactory.TaskFactoryImpl) (T1 id1 T2 id2 : string)
    (inputs1 inputs2 : gmap string JsValue) (task : Task) :
  T1 ++ ":" ++ id1 = T2 ++ ":" ++ id2 →
  is_Some (TaskRegistry.getTaskType (TaskFactory.registry f) T2) →
  TaskFactory.createTask T1 id1 inputs1 f = (inr task, f1) →
  TaskFactory.createTask T2 id2 inputs2 f1 = (inr task, f1).
Proof.
  intros Hkey Hty2 Hrun.
  destruct (createTask_success _ _ _ _ _ _ Hrun) as (_ & Hreg & Hc).
  apply createTask_cached; [by rewrite Hreg|].
  unfold TaskFactory.cache_key in *. by rewrite <- Hkey.
Qed.

Lemma createTask_key_collision_witness :
  let f := TaskFactory.new colon_registry in
  let f1 := (TaskFactory.createTask "a" "b:c" ∅ f).2 in
  TaskFactory.createTask "a:b" "c" ∅ f1 = (inr (createTask (sample_type "a") "b:c" ∅), f1)
  ∧ type (createTask (sample_type "a") "b:c" ∅) = "a"
  ∧ id (createTask (sample_type "a") "b:c" ∅) = "b:c".
Proof.
  intros f f1. split; [|split; reflexivity].
  apply (createTask_key_collision f f1 "a" "b:c" "a:b" "c" ∅ ∅); reflexivity || (by eexists).
Defined.

Lemma createTasks_cons (spec : TaskFactory.TaskSpec) (specs : list TaskFactory.TaskSpec)
    (f : TaskFactory.TaskFactoryImpl) :
  TaskFactory.createTasks (spec :: specs) f
  = match TaskFactory.createTask (TaskFactory.spec_type spec) (TaskFactory.spec_id spec)
            (TaskFactory.spec_inputs spec) f with
    | (inr task, f1) =>
        match TaskFactory.createTasks specs f1 with
        | (inr rest, f2) => (inr (task :: rest), f2)
        | (inl e, f2) => (inl e, f2)
        end
    | (inl e, f1) => (inl e, f1)
    end.
Proof.
  unfold TaskFactory.createTasks. cbn [Array_map]. unfold bind at 1.
  destruct (TaskFactory.createTask _ _ _ f) as [[e|task] f1]; [done|].
  unfold bind. by destruct (Array_map specs _ f1) as [[e|rest] f2].
Qed.

Lemma createTasks_keeps_cache (specs : list TaskFactory.TaskSpec)
    (f f' : TaskFactory.TaskFactoryImpl) (res : Thrown + list Task) :
  TaskFactory.createTasks specs f = (res, f') →
  TaskFactory.registry f' = TaskFactory.registry f
  ∧ ∀ key task, TaskFactory.taskCache f !! key = Some task →
                TaskFactory.taskCache f' !! key = Some task.
Proof.
  revert f res. induction specs as [|spec specs IH]; intros f res.
  { by intros [= <- <-]. }
  rewrite createTasks_cons.
  destruct (TaskFactory.createTask _ _ _ f) as [[e|task] f1] eqn:Hone.
  - intros [= <- <-]. by eapply createTask_keeps_cache.
  - destruct (createTask_keeps_cache _ _ _ _ _ _ Hone) as [Hreg1 Hmono1].
    destruct (TaskFactory.createTasks specs f1) as [[e|rest] f2] eqn:Hrest;
      intros [= <- <-];
      destruct (IH _ _ Hrest) as [Hreg2 Hmono2];
      (split; [congruence | eauto]).
Qed.

(** X13: [createTasks] works through the specifications from left to right.
    When every type named is registered it succeeds and returns one task per
    specification, in the order of the input; each returned task is then the
    cache entry of its specification's type and id.  When some type is not
    registered, the call throws "Task type <name> not found" for the first
    such specification; the tasks of the specifications before it have been
    created and stay cached, although no task is returned. *)
Theorem createTasks_in_order
    (f : TaskFactory.TaskFactoryImpl) (specs : list TaskFactory.TaskSpec) :
  (Forall (λ spec, is_Some (TaskRegistry.getTaskType (TaskFactory.registry f)
                              (TaskFactory.spec_type spec))) specs →
   ∃ tasks f',
     TaskFactory.createTasks specs f = (inr tasks, f')
     ∧ Forall2 (λ spec task,
                  TaskFactory.taskCache f'
                    !! TaskFactory.cache_key (TaskFactory.spec_type spec)
                         (TaskFactory.spec_id spec) = Some task)
         specs tasks)
  ∧ (∀ pre bad post,
       specs = (pre ++ bad :: post)%list →
       Forall (λ spec, is_Some (TaskRegistry.getTaskType (TaskFactory.registry f)
                                  (TaskFactory.spec_type spec))) pre →
       TaskRegistry.getTaskType (TaskFactory.registry f) (TaskFactory.spec_type bad) = None →
       ∃ f',
         TaskFactory.createTasks specs f
         = (inl (Error ("Task type " ++ TaskFactory.spec_type bad ++ " not found")), f')
         ∧ Forall (λ spec,
                     is_Some (TaskFactory.taskCache f'
                                !! TaskFactory.cache_key (TaskFactory.spec_type spec)
                                     (TaskFactory.spec_id spec))) pre).
Proof.
  split.
  - revert f. induction specs as [|spec specs IH]; intros f Hall.
    { exists [], f. split; [done|constructor]. }
    apply Forall_cons in Hall as [[ty Hty] Hall].
    destruct (createTask_registered_ok f (TaskFactory.spec_type spec)
                (TaskFactory.spec_id spec) (TaskFactory.spec_inputs spec) ty Hty)
      as (task & f1 & Hone & Hreg1).
    destruct (IH f1) as (rest & f2 & Hrest & Hcached).
    { by rewrite Hreg1. }
    exists (task :: rest), f2. rewrite createTasks_cons, Hone, Hrest.
    split; [done|]. constructor; [|done].
    apply (createTasks_keeps_cache _ _ _ _ Hrest).
    by apply (createTask_success _ _ _ _ _ _ Hone).
  - intros pre bad post -> Hpre Hbad. revert f Hpre Hbad.
    induction pre as [|spec pre IH]; intros f Hpre Hbad.
    + exists f. cbn [app]. rewrite createTasks_cons.
      by rewrite (createTask_unregistered _ _ _ _ Hbad).
    + apply Forall_cons in Hpre as [[ty Hty] Hpre].
      destruct (createTask_registered_ok f (TaskFactory.spec_type spec)
                  (TaskFactory.spec_id spec) (TaskFactory.spec_inputs spec) ty Hty)
        as (task & f1 & Hone & Hreg1).
      destruct (IH f1) as (f2 & Hrest & Hcached); [by rewrite Hreg1..|].
      exists f2. cbn [app]. rewrite createTasks_cons, Hone, Hrest.
      split; [done|]. constructor; [|done]. exists task.
      apply (createTasks_keeps_cache _ _ _ _ Hrest).
      by apply (createTask_success _ _ _ _ _ _ Hone).
Qed.

Lemma createTasks_in_order_witness :
  let specs := [ {| TaskFactory.spec_type := "echo"; TaskFactory.spec_id := "task1";
                    TaskFactory.spec_inputs := ∅ |};
                 {| TaskFactory.spec_type := "echo"; TaskFactory.spec_id := "task2";
                    TaskFactory.spec_inputs := ∅ |} ] in
  ∃ tasks f',
    TaskFactory.createTasks specs (TaskFactory.new echo_registry) = (inr tasks, f')
    ∧ Forall2 (λ spec task,
                 TaskFactory.taskCache f'
                   !! TaskFactory.cache_key (TaskFactory.spec_type spec)
                        (TaskFactory.spec_id spec) = Some task)
        specs tasks.
Proof.
  intros specs.
  apply (proj1 (createTasks_in_order (TaskFactory.new echo_registry) specs)).
  repeat constructor; by eexists.
Defined.

Example createTasks_unknown_second :
  (TaskFactory.createTasks
     [ {| TaskFactory.spec_type := "echo"; TaskFactory.spec_id := "task1";
          TaskFactory.spec_inputs := ∅ |};
       {| TaskFactory.spec_type := "ghost"; TaskFactory.spec_id := "task2";
          TaskFactory.spec_inputs := ∅ |} ]
     (TaskFactory.new echo_registry)).1
  = inl (Error "Task type ghost not found").
Proof. reflexivity. Qed.

Lemma createBatch_keeps_cache (T : string) (inputs : gmap string JsValue) (n c : nat)
    (f f' : TaskFactory.TaskFactoryImpl) (g' : TaskFactory.TaskGenerator)
    (res : Thrown + list Task) :
  TaskFactory.createBatch n (generator_at T inputs c, f) = (res, (g', f')) →
  TaskFactory.registry f' = TaskFactory.registry f
  ∧ ∀ key task, TaskFactory.taskCache f !! key = Some task →
                TaskFactory.taskCache f' !! key = Some task.
Proof.
  revert c f res. induction n as [|n IH]; intros c f res.
  { rewrite createBatch_zero. by intros [= <- <- <-]. }
  rewrite createBatch_step.
  destruct (TaskFactory.createTask T _ inputs f) as [[e|task] f1] eqn:Hone.
  - intros [= <- <- <-]. by eapply createTask_keeps_cache.
  - destruct (createTask_keeps_cache _ _ _ _ _ _ Hone) as [Hreg1 Hmono1].
    destruct (TaskFactory.createBatch n _) as [[e|rest] [g2 f2]] eqn:Hrest;
      intros [= <- <- <-];
      destruct (IH _ _ _ Hrest) as [Hreg2 Hmono2];
      (split; [congruence | eauto]).
Qed.

Lemma createBatch_registered_run
    (f : TaskFactory.TaskFactoryImpl) (T : string) (inputs : gmap string JsValue)
    (ty : TaskType) (c n : nat) :
  TaskRegistry.getTaskType (TaskFactory.registry f) T = Some ty →
  ∃ tasks f',
    TaskFactory.createBatch n (generator_at T inputs c, f)
    = (inr tasks, (generator_at T inputs (c + n), f'))
    ∧ length tasks = n
    ∧ ∀ i task, tasks !! i = Some task →
        TaskFactory.taskCache f'
          !! TaskFactory.cache_key T (T ++ "-" ++ decimal (c + S i)) = Some task.
Proof.
  revert c f. induction n as [|n IH]; intros c f Hty.
  { exists [], f. rewrite createBatch_zero, Nat.add_0_r. by split. }
  destruct (createTask_registered_ok f T (T ++ "-" ++ decimal (S c)) inputs ty Hty)
    as (task & f1 & Hone & Hreg1).
  destruct (IH (S c) f1) as (rest & f2 & Hrest & Hlen & Hcached); [by rewrite Hreg1|].
  exists (task :: rest), f2. rewrite createBatch_step, Hone, Hrest.
  replace (S c + n) with (c + S n) by lia.
  split; [done|]. split; [by cbn; rewrite Hlen|].
  intros [|i] t Hi.
  - injection Hi as <-. rewrite Nat.add_1_r.
    apply (createBatch_keeps_cache _ _ _ _ _ _ _ _ Hrest).
    by apply (createTask_success _ _ _ _ _ _ Hone).
  - replace (c + S (S i)) with (S c + S i) by lia. by apply Hcached.
Qed.

(** X14: with the type registered, [createBatch(n)] on a generator whose
    counter stands at [c] succeeds for every [n], returns [n] tasks and
    leaves the counter at [c + n], so that a following [next()] or
    [createBatch] continues the numbering; the task at position [i] of the
    result is the cache entry for the id made of the type name, a dash and
    [c + i + 1]. *)
Theorem createBatch_mints_consecutive
    (f : TaskFactory.TaskFactoryImpl) (T : string) (inputs : gmap string JsValue)
    (ty : TaskType) (c n : nat) :
  TaskRegistry.getTaskType (TaskFactory.registry f) T = Some ty →
  ∃ tasks f',
    TaskFactory.createBatch n (generator_at T inputs c, f)
    = (inr tasks, (generator_at T inputs (c + n), f'))
    ∧ length tasks = n
    ∧ ∀ i task, tasks !! i = Some task →
        TaskFactory.taskCache f'
          !! TaskFactory.cache_key T (T ++ "-" ++ decimal (c + S i)) = Some task.
Proof. apply createBatch_registered_run. Qed.

Lemma createBatch_mints_consecutive_witness :
  ∃ tasks f',
    TaskFactory.createBatch 2 (generator_at "echo" ∅ 3, TaskFactory.new echo_registry)
    = (inr tasks, (generator_at "echo" ∅ 5, f'))
    ∧ length tasks = 2
    ∧ ∀ i task, tasks !! i = Some task →
        TaskFactory.taskCache f'
          !! TaskFactory.cache_key "echo" ("echo" ++ "-" ++ decimal (3 + S i)) = Some task.
Proof.
  apply (createBatch_mints_consecutive (TaskFactory.new echo_registry) "echo" ∅
           echo_type 3 2).
  reflexivity.
Defined.

Lemma generator_unregistered_run
    (f : TaskFactory.TaskFactoryImpl) (T : string) (inputs : gmap string JsValue)
    (c n : nat) :
  TaskRegistry.getTaskType (TaskFactory.registry f) T = None →
  TaskFactory.next (generator_at T inputs c, f)
  = (inl (Error ("Task type " ++ T ++ " not found")), (generator_at T inputs (S c), f))
  ∧ TaskFactory.createBatch (S n) (generator_at T inputs c, f)
    = (inl (Error ("Task type " ++ T ++ " not found")), (generator_at T inputs (S c), f))
  ∧ TaskFactory.createBatch 0 (generator_at T inputs c, f)
    = (inr [], (generator_at T inputs c, f)).
Proof.
  intros Hnone. split; [|split].
  - by rewrite next_mints, (createTask_unregistered _ _ _ _ Hnone).
  - by rewrite createBatch_step, (createTask_unregistered _ _ _ _ Hnone).
  - apply createBatch_zero.
Qed.

(** X15: with the type not registered, [next()] and [createBatch(n)] for
    [n > 0] throw "Task type <T> not found" after the first id has been
    minted: the factory is unchanged but the counter has advanced by one, so
    one number of the sequence is lost.  [createBatch(0)] returns the empty
    array and changes nothing. *)
Theorem generator_failure_consumes_counter
    (f : TaskFactory.TaskFactoryImpl) (T : string) (inputs : gmap string JsValue)
    (c n : nat) :
  TaskRegistry.getTaskType (TaskFactory.registry f) T = None →
  TaskFactory.next (generator_at T inputs c, f)
  = (inl (Error ("Task type " ++ T ++ " not found")), (generator_at T inputs (S c), f))
  ∧ TaskFactory.createBatch (S n) (generator_at T inputs c, f)
    = (inl (Error ("Task type " ++ T ++ " not found")), (generator_at T inputs (S c), f))
  ∧ TaskFactory.createBatch 0 (generator_at T inputs c, f)
    = (inr [], (generator_at T inputs c, f)).
Proof. apply generator_unregistered_run. Qed.

Lemma generator_failure_consumes_counter_witness :
  TaskFactory.next (generator_at "ghost" ∅ 0, TaskFactory.new echo_registry)
  = (inl (Error "Task type ghost not found"),
     (generator_at "ghost" ∅ 1, TaskFactory.new echo_registry)).
Proof.
  apply (generator_failure_consumes_counter (TaskFactory.new echo_registry) "ghost" ∅ 0 0).
  reflexivity.
Defined.

Lemma createBatch_from_cache (T : string) (inputs : gmap string JsValue)
    (f : TaskFactory.TaskFactoryImpl) (tasks : list Task) (c : nat) :
  is_Some (TaskRegistry.getTaskType (TaskFactory.registry f) T) →
  (∀ i task, tasks !! i = Some task →
     TaskFactory.taskCache f
       !! TaskFactory.cache_key T (T ++ "-" ++ decimal (c + S i)) = Some task) →
  TaskFactory.createBatch (length tasks) (generator_at T inputs c, f)
  = (inr tasks, (generator_at T inputs (c + length tasks), f)).
Proof.
  intros Hty. revert c. induction tasks as [|task rest IH]; intros c Hcached.
  { by rewrite createBatch_zero, Nat.add_0_r. }
  cbn [length]. rewrite createBatch_step.
  rewrite (createTask_cached f T _ inputs task Hty).
  - rewrite (IH (S c)).
    + by replace (S c + length rest) with (c + S (length rest)) by lia.
    + intros i t Hi. replace (S c + S i) with (c + S (S i)) by lia.
      by apply Hcached.
  - specialize (Hcached 0 task eq_refl). by rewrite Nat.add_1_r in Hcached.
Qed.

(** X16: generators share the factory's cache.  When [createBatch(n)] on a
    generator has succeeded, the same call on a second generator for the same
    type that starts from the same counter value (a fresh one, if the first
    was fresh) returns the very same tasks and creates nothing. *)
Theorem second_generator_returns_same_tasks
    (f f' : TaskFactory.TaskFactoryImpl) (T : string) (inputs inputs' : gmap string JsValue)
    (c n : nat) (g' : TaskFactory.TaskGenerator) (tasks : list Task) :
  TaskFactory.createBatch n (generator_at T inputs c, f) = (inr tasks, (g', f')) →
  TaskFactory.createBatch n (generator_at T inputs' c, f')
  = (inr tasks, (generator_at T inputs' (c + n), f')).
Proof.
  intros Hrun.
  destruct n as [|n].
  { rewrite createBatch_zero in Hrun. injection Hrun as <- <- <-.
    by rewrite createBatch_zero, Nat.add_0_r. }
  destruct (TaskRegistry.getTaskType (TaskFactory.registry f) T) as [ty|] eqn:Hty.
  - destruct (createBatch_registered_run f T inputs ty c (S n) Hty)
      as (tasks0 & f0 & Hrun0 & Hlen & Hcached).
    rewrite Hrun in Hrun0. injection Hrun0 as -> -> ->.
    rewrite <- Hlen. apply createBatch_from_cache; [|done].
    rewrite (proj1 (createBatch_keeps_cache _ _ _ _ _ _ _ _ Hrun)). eauto.
  - by rewrite (proj1 (proj2 (generator_unregistered_run f T inputs c n Hty)))
      in Hrun.
Qed.

Lemma second_generator_returns_same_tasks_witness :
  let f := TaskFactory.new echo_registry in
  let run := TaskFactory.createBatch 3 (generator_at "echo" ∅ 0, f) in
  ∃ tasks, run.1 = inr tasks
           ∧ TaskFactory.createBatch 3 (generator_at "echo" {["again" := JsBool true]} 0,
                                        run.2.2)
             = (inr tasks, (generator_at "echo" {["again" := JsBool true]} 3, run.2.2)).
Proof.
  intros f run. eexists. split; [reflexivity|].
  apply (second_generator_returns_same_tasks f run.2.2 "echo" ∅ {["again" := JsBool true]}
           0 3 run.2.1).
  reflexivity.
Defined.

(** The handle of a lazy task holding [task]. *)
Lemma lazy_get_initialized (l : TaskFactory.LazyTask) (task : Task)
    (f : TaskFactory.TaskFactoryImpl) :
  TaskFactory.lazy_task l = Some task →
  TaskFactory.lazy_get (l, f) = (inr task, (l, f)).
Proof.
  intros H. unfold TaskFactory.lazy_get, bind at 1, get at 1. cbn beta iota. by rewrite H.
Qed.

Lemma lazy_get_uninitialized (l : TaskFactory.LazyTask) (f : TaskFactory.TaskFactoryImpl) :
  TaskFactory.lazy_task l = None →
  TaskFactory.lazy_get (l, f)
  = match TaskFactory.createTask (TaskFactory.lazy_taskTypeName l)
            (TaskFactory.lazy_id l) (TaskFactory.lazy_inputs l) f with
    | (inr task, f1) => (inr task, (TaskFactory.lazy_set (Some task) l, f1))
    | (inl e, f1) => (inl e, (l, f1))
    end.
Proof.
  intros H. unfold TaskFactory.lazy_get, bind at 1, get at 1. cbn beta iota. rewrite H.
  unfold bind at 1, on_field. cbn [snd].
  by destruct (TaskFactory.createTask _ _ _ f) as [[e|task] f1].
Qed.

(** X17: a lazy task handle.  With the type registered, the first [get()]
    asks the factory and keeps the task, and [isInitialized()] turns true;
    every later [get()] returns the kept task without consulting the
    factory, whatever has happened to the factory or the registry since.
    After [reset()], [isInitialized()] is false and [get()] asks the factory
    again, which still returns the same task from its cache.  With the type
    not registered, [get()] throws "Task type <T> not found" and the handle
    stays uninitialized. *)
Theorem lazy_task_memoises
    (f : TaskFactory.TaskFactoryImpl) (T taskId : string) (inputs : gmap string JsValue) :
  let l := TaskFactory.createLazyTask T taskId inputs in
  TaskFactory.isInitialized l = false
  ∧ (is_Some (TaskRegistry.getTaskType (TaskFactory.registry f) T) →
     ∃ task f1,
       let l1 := TaskFactory.lazy_set (Some task) l in
       TaskFactory.createTask T taskId inputs f = (inr task, f1)
       ∧ TaskFactory.lazy_get (l, f) = (inr task, (l1, f1))
       ∧ TaskFactory.isInitialized l1 = true
       ∧ (∀ f2, TaskFactory.lazy_get (l1, f2) = (inr task, (l1, f2)))
       ∧ TaskFactory.isInitialized (TaskFactory.reset l1) = false
       ∧ TaskFactory.lazy_get (TaskFactory.reset l1, f1) = (inr task, (l1, f1)))
  ∧ (TaskRegistry.getTaskType (TaskFactory.registry f) T = None →
     TaskFactory.lazy_get (l, f)
     = (inl (Error ("Task type " ++ T ++ " not found")), (l, f))).
Proof.
  intros l. subst l.
  assert (Hfields : ∀ l0 (f0 : TaskFactory.TaskFactoryImpl),
            TaskFactory.lazy_taskTypeName l0 = T → TaskFactory.lazy_id l0 = taskId →
            TaskFactory.lazy_inputs l0 = inputs → TaskFactory.lazy_task l0 = None →
            TaskFactory.lazy_get (l0, f0)
            = match TaskFactory.createTask T taskId inputs f0 with
              | (inr task, f1) => (inr task, (TaskFactory.lazy_set (Some task) l0, f1))
              | (inl e, f1) => (inl e, (l0, f1))
              end).
  { intros l0 f0 <- <- <- Hnone. by apply lazy_get_uninitialized. }
  split; [done|]. split.
  - intros [ty Hty].
    destruct (createTask_registered_ok f T taskId inputs ty Hty)
      as (task & f1 & Hone & Hreg1).
    exists task, f1. cbn zeta. split; [done|].
    split; [by rewrite Hfields, Hone|].
    split; [done|].
    split; [intros f2; by apply lazy_get_initialized|].
    split; [done|].
    rewrite Hfields by done.
    rewrite (createTask_cached f1 T taskId inputs task); [done|by rewrite Hreg1; eauto|].
    by apply (createTask_success _ _ _ _ _ _ Hone).
  - intros Hnone. rewrite Hfields by done.
    by rewrite (createTask_unregistered _ _ _ _ Hnone).
Qed.

Lemma lazy_task_memoises_witness :
  let l := TaskFactory.createLazyTask "echo" "lazy-1" ∅ in
  ∃ task f1,
    TaskFactory.lazy_get (l, TaskFactory.new echo_registry)
    = (inr task, (TaskFactory.lazy_set (Some task) l, f1))
    ∧ TaskFactory.lazy_get
        (TaskFactory.lazy_set (Some task) l, TaskFactory.new TaskRegistry.new)
      = (inr task, (TaskFactory.lazy_set (Some task) l, TaskFactory.new TaskRegistry.new)).
Proof.
  intros l.
  destruct (proj1 (proj2 (lazy_task_memoises (TaskFactory.new echo_registry)
                            "echo" "lazy-1" ∅)))
    as (task & f1 & _ & Hget & _ & Hagain & _).
  { by eexists. }
  exists task, f1. split; [exact Hget | apply Hagain].
Defined.

Lemma removeFromCache_found (f : TaskFactory.TaskFactoryImpl)
    (entries : list (string * Task)) (taskId key : string) (task : Task) :
  List.find (λ entry, String.eqb (id entry.2) taskId) entries = Some (key, task) →
  TaskFactory.removeFromCache entries taskId f
  = {| TaskFactory.registry := TaskFactory.registry f;
       TaskFactory.taskCache := delete key (TaskFactory.taskCache f) |}.
Proof. intros H. unfold TaskFactory.removeFromCache. by rewrite H. Qed.

Lemma removeFromCache_run (f : TaskFactory.TaskFactoryImpl)
    (entries : list (string * Task)) (taskId : string) :
  enumerates entries (TaskFactory.taskCache f) →
  ((∀ key task, TaskFactory.taskCache f !! key = Some task → id task ≠ taskId) →
   TaskFactory.removeFromCache entries taskId f = f)
  ∧ (∀ key task,
       TaskFactory.taskCache f !! key = Some task → id task = taskId →
       ∃ key' task',
         TaskFactory.taskCache f !! key' = Some task'
         ∧ id task' = taskId
         ∧ TaskFactory.removeFromCache entries taskId f
           = {| TaskFactory.registry := TaskFactory.registry f;
                TaskFactory.taskCache := delete key' (TaskFactory.taskCache f) |}
         ∧ S (TaskFactory.getCacheSize (TaskFactory.removeFromCache entries taskId f))
           = TaskFactory.getCacheSize f).
Proof.
  intros [_ Henum]. split.
  - intros Hnone. unfold TaskFactory.removeFromCache.
    destruct (List.find _ entries) as [[key task]|] eqn:Hfind; [|done].
    apply find_some in Hfind as [Hin Hid]. cbn in Hid.
    apply list_elem_of_In, Henum in Hin.
    apply String.eqb_eq in Hid. by destruct (Hnone _ _ Hin).
  - intros key task Hkey Hid.
    destruct (List.find (λ entry, String.eqb (id entry.2) taskId) entries)
      as [[key' task']|] eqn:Hfind.
    + pose proof Hfind as Hfound.
      apply find_some in Hfind as [Hin Hid']. cbn in Hid'.
      apply list_elem_of_In, Henum in Hin. apply String.eqb_eq in Hid'.
      exists key', task'. rewrite (removeFromCache_found _ _ _ _ _ Hfound).
      repeat (split; [done|]).
      unfold TaskFactory.getCacheSize. cbn. apply map_size_delete_present. eauto.
    + apply Henum, list_elem_of_In in Hkey.
      apply (find_none _ _ Hfind) in Hkey. cbn in Hkey.
      rewrite Hid, String.eqb_refl in Hkey. done.
Qed.

(** X18: [removeFromCache(taskId)] looks at the tasks, not at the keys.  When
    no cached task has the id, the factory is unchanged.  When some cached
    task has it, exactly one cache entry is deleted, an entry whose task has
    that id, and the cache size drops by one; nothing else changes. *)
Theorem removeFromCache_contract (f : TaskFactory.TaskFactoryImpl)
    (entries : list (string * Task)) (taskId : string) :
  enumerates entries (TaskFactory.taskCache f) →
  ((∀ key task, TaskFactory.taskCache f !! key = Some task → id task ≠ taskId) →
   TaskFactory.removeFromCache entries taskId f = f)
  ∧ (∀ key task,
       TaskFactory.taskCache f !! key = Some task → id task = taskId →
       ∃ key' task',
         TaskFactory.taskCache f !! key' = Some task'
         ∧ id task' = taskId
         ∧ TaskFactory.removeFromCache entries taskId f
           = {| TaskFactory.registry := TaskFactory.registry f;
                TaskFactory.taskCache := delete key' (TaskFactory.taskCache f) |}
         ∧ S (TaskFactory.getCacheSize (TaskFactory.removeFromCache entries taskId f))
           = TaskFactory.getCacheSize f).
Proof. apply removeFromCache_run. Qed.

(** X19: creating a task and removing it by id is a round trip.  When
    [createTask(T, id, ..)] had to build the task, the type gave the task the
    id it was asked for, and no task cached before has that id, a following
    [removeFromCache(id)] puts the factory back as it was before the
    creation. *)
Theorem createTask_then_removeFromCache
    (f f1 : TaskFactory.TaskFactoryImpl) (T taskId : string)
    (inputs : gmap string JsValue) (ty : TaskType) (task : Task)
    (entries : list (string * Task)) :
  TaskRegistry.getTaskType (TaskFactory.registry f) T = Some ty →
  TaskFactory.taskCache f !! TaskFactory.cache_key T taskId = None →
  id (createTask ty taskId inputs) = taskId →
  (∀ key cached, TaskFactory.taskCache f !! key = Some cached → id cached ≠ taskId) →
  TaskFactory.createTask T taskId inputs f = (inr task, f1) →
  enumerates entries (TaskFactory.taskCache f1) →
  TaskFactory.getCacheSize f1 = S (TaskFactory.getCacheSize f)
  ∧ TaskFactory.removeFromCache entries taskId f1 = f.
Proof.
  intros Hty Hc Hhonest Hothers Hrun Henum.
  rewrite (createTask_registered _ _ _ _ _ Hty), Hc in Hrun.
  injection Hrun as <- <-. split.
  { unfold TaskFactory.getCacheSize. cbn. by apply map_size_insert_None. }
  destruct (proj2 (removeFromCache_run _ entries taskId Henum)
              (TaskFactory.cache_key T taskId) (createTask ty taskId inputs))
    as (key' & task' & Hkey' & Hid' & -> & _); [apply lookup_insert_eq | done |].
  cbn in Hkey' |- *.
  destruct (decide (key' = TaskFactory.cache_key T taskId)) as [->|Hne].
  - rewrite delete_insert_id by done. by destruct f.
  - rewrite lookup_insert_ne in Hkey' by done. by destruct (Hothers _ _ Hkey').
Qed.

Lemma enumerates_singleton {V} (k : string) (v : V) :
  enumerates [(k, v)] (<[k := v]> (∅ : gmap string V)).
Proof.
  split; [apply NoDup_singleton|]. intros k' v'.
  rewrite list_elem_of_singleton, lookup_insert_Some, lookup_empty.
  split; [intros [= -> ->]; by left | intros [[-> ->]|[_ ?]]; done].
Qed.

Lemma removeFromCache_contract_witness :
  let f1 := (TaskFactory.createTask "echo" "t1" ∅ (TaskFactory.new echo_registry)).2 in
  let entries := [("echo:t1", createTask echo_type "t1" ∅)] in
  enumerates entries (TaskFactory.taskCache f1)
  ∧ TaskFactory.removeFromCache entries "t2" f1 = f1
  ∧ ∃ key' task',
      TaskFactory.taskCache f1 !! key' = Some task'
      ∧ id task' = "t1"
      ∧ TaskFactory.removeFromCache entries "t1" f1
        = {| TaskFactory.registry := TaskFactory.registry f1;
             TaskFactory.taskCache := delete key' (TaskFactory.taskCache f1) |}
      ∧ S (TaskFactory.getCacheSize (TaskFactory.removeFromCache entries "t1" f1))
        = TaskFactory.getCacheSize f1.
Proof.
  intros f1 entries.
  assert (Henum : enumerates entries (TaskFactory.taskCache f1))
    by apply enumerates_singleton.
  split; [exact Henum|]. split.
  - apply (proj1 (removeFromCache_contract f1 entries "t2" Henum)).
    intros key task Hkey.
    change (<["echo:t1" := createTask echo_type "t1" ∅]> (∅ : gmap string Task) !! key
            = Some task) in Hkey.
    apply lookup_insert_Some in Hkey as [[_ <-]|[_ Hempty]]; [discriminate|].
    by rewrite lookup_empty in Hempty.
  - apply (proj2 (removeFromCache_contract f1 entries "t1" Henum)
             "echo:t1" (createTask echo_type "t1" ∅)); reflexivity.
Defined.

Lemma createTask_then_removeFromCache_witness :
  let f := TaskFactory.new echo_registry in
  let f1 := (TaskFactory.createTask "echo" "t1" ∅ f).2 in
  TaskFactory.getCacheSize f1 = S (TaskFactory.getCacheSize f)
  ∧ TaskFactory.removeFromCache [("echo:t1", createTask echo_type "t1" ∅)] "t1" f1 = f.
Proof.
  intros f f1.
  apply (createTask_then_removeFromCache f f1 "echo" "t1" ∅ echo_type
           (createTask echo_type "t1" ∅)).
  - reflexivity.
  - reflexivity.
  - reflexivity.
  - intros key cached Hkey.
    change ((∅ : gmap string Task) !! key = Some cached) in Hkey.
    by rewrite lookup_empty in Hkey.
  - reflexivity.
  - apply enumerates_singleton.
Defined.

(** ** More on the plugin manager *)

Example plugin_names_of_paths :
  PluginManager.plugin_name_of_path "/invalid/path/plugin.js" = "plugin"
  ∧ PluginManager.plugin_name_of_path "./plugins/b-plugin.v2.js" = "b-plugin.v2"
  ∧ PluginManager.plugin_name_of_path "b-plugin.ts" = "b-plugin"
  ∧ PluginManager.plugin_name_of_path "plugins/" = "unknown"
  ∧ PluginManager.plugin_name_of_path ".js" = "unknown"
  ∧ PluginManager.plugin_name_of_path "plugin.tsx" = "plugin.tsx"
  ∧ PluginManager.plugin_name_of_path "a.js.js" = "a.js"
  ∧ PluginManager.plugin_name_of_path "" = "unknown".
Proof. repeat split. Qed.

(** The registration loop goes through exactly when the names are pairwise
    different and none of them is registered yet. *)
Lemma register_loop_succeeds_iff (l : list TaskType) (r : TaskRegistry.TaskRegistryImpl) :
  (for_of l TaskRegistry.register r).1 = inr tt
  ↔ NoDup (List.map name l) ∧ ∀ t, t ∈ l → TaskRegistry.hasTaskType r (name t) = false.
Proof.
  revert r. induction l as [|t0 l IH]; intros r.
  { split; [|done]. intros _. split; [constructor|]. by intros t ?%elem_of_nil. }
  cbn [for_of List.map]. unfold bind.
  destruct (TaskRegistry.hasTaskType r (name t0)) eqn:Hhas.
  - rewrite (register_present _ _ Hhas). split; [done|].
    intros [_ Hfresh]. rewrite Hfresh in Hhas; [done|]. by left.
  - rewrite (register_absent _ _ Hhas).
    set (r1 := {| TaskRegistry.taskTypes := <[name t0 := t0]> (TaskRegistry.taskTypes r);
                  TaskRegistry.taskTypeConfigs := TaskRegistry.taskTypeConfigs r |}).
    assert (Hr1 : ∀ n, TaskRegistry.hasTaskType r1 n = false
                       ↔ n ≠ name t0 ∧ TaskRegistry.hasTaskType r n = false).
    { intros n. unfold TaskRegistry.hasTaskType. rewrite !Map_has_false. cbn.
      rewrite lookup_insert_None. intuition congruence. }
    specialize (IH r1).
    destruct (for_of l TaskRegistry.register r1) as [[e|[]] r2]; cbn in *.
    + split; [done|]. intros [Hnd Hfresh]. apply NoDup_cons in Hnd as [Hnotin Hnd].
      apply IH. split; [done|]. intros t Ht. apply Hr1. split.
      * intros Heq. apply Hnotin. rewrite <- Heq.
        apply list_elem_of_fmap. by exists t.
      * apply Hfresh. by right.
    + split; [|done]. intros _. destruct (proj1 IH eq_refl) as [Hnd Hfresh]. split.
      * apply NoDup_cons. split; [|done].
        intros (t & Heq & Ht)%list_elem_of_fmap.
        by destruct (proj1 (Hr1 _) (Hfresh t Ht)) as [Hne _].
      * intros t [->|Ht]%elem_of_cons; [done|].
        by apply (Hr1 (name t)), Hfresh.
Qed.


(** X20: for a path that resolves to a well-shaped plugin, [loadPlugin]
    succeeds exactly when no plugin of that name is loaded, [initialize]
    resolves, the names of the task types the plugin contributes are pairwise
    different, and none of them is registered in the registry as
    [initialize] leaves it (it is handed the live registry and can register
    and unregister types itself).  After a successful load the plugin is
    recorded under its name, every contributed task type is registered, the
    registry is the one [initialize] left plus the contributed types, and the
    services are as [initialize] left them. *)
Theorem loadPlugin_succeeds_iff
    (import : string → PluginManager.Imported) (pluginPath : string)
    (m : PluginManager.PluginManagerImpl) (plugin : PluginManager.TaskPlugin) :
  import pluginPath = PluginManager.Constructed plugin →
  let run := PluginManager.initialize plugin (PluginManager.plugin_context m plugin) in
  ((PluginManager.loadPlugin import pluginPath m).1 = inr tt
   ↔ Map_has (PluginManager.plugins m) (PluginManager.plugin_name plugin) = false
     ∧ PluginManager.init_outcome run = inr tt
     ∧ NoDup (List.map name (PluginManager.getTaskTypes plugin))
     ∧ ∀ t, t ∈ PluginManager.getTaskTypes plugin →
            TaskRegistry.hasTaskType (PluginManager.init_registry run) (name t) = false)
  ∧ ((PluginManager.loadPlugin import pluginPath m).1 = inr tt →
     let m' := (PluginManager.loadPlugin import pluginPath m).2 in
     PluginManager.getPlugin m' (PluginManager.plugin_name plugin) = Some plugin
     ∧ (∀ t, t ∈ PluginManager.getTaskTypes plugin →
            TaskRegistry.getTaskType (PluginManager.registry m') (name t) = Some t)
     ∧ PluginManager.registry m'
       = register_all (PluginManager.getTaskTypes plugin) (PluginManager.init_registry run)
     ∧ PluginManager.services m' = PluginManager.init_services run).
Proof.
  intros Himport run. rewrite (loadPlugin_constructed _ _ _ _ Himport).
  pose proof (register_loop_succeeds_iff (PluginManager.getTaskTypes plugin)
                (PluginManager.init_registry run)) as Hiff.
  pose proof (register_loop_run (PluginManager.getTaskTypes plugin)
                (PluginManager.init_registry run)) as Hrun.
  pose proof (register_loop_keeps (PluginManager.getTaskTypes plugin)
                (PluginManager.init_registry run)) as Hkeep.
  destruct (Map_has (PluginManager.plugins m) (PluginManager.plugin_name plugin)).
  { split; [split; [done|by intros [? _]]|done]. }
  cbv zeta. fold run.
  destruct (PluginManager.init_outcome run) as [e0|[]].
  { split; [split; [done|by intros (_ & ? & _)]|done]. }
  destruct (for_of (PluginManager.getTaskTypes plugin) TaskRegistry.register
              (PluginManager.init_registry run)) as [[e0|[]] reg]; cbn in *.
  - split; [|done]. split; [done|]. intros (_ & _ & Hnd & Hfresh).
    discriminate (proj2 Hiff (conj Hnd Hfresh)).
  - split.
    + split; [|done]. intros _. by destruct (proj1 Hiff eq_refl).
    + intros _. split; [apply lookup_insert_eq|]. split; [|done].
      intros t Ht. rewrite Hrun. by apply Hkeep.
Qed.

Lemma loadPlugin_succeeds_iff_witness :
  (PluginManager.loadPlugin sample_import "./b-plugin.js" empty_plugin_manager).1 = inr tt
  ∧ PluginManager.getPlugin
      (PluginManager.loadPlugin sample_import "./b-plugin.js" empty_plugin_manager).2
      "b-plugin" = Some plugin_b.
Proof.
  split; [reflexivity|].
  apply (proj2 (loadPlugin_succeeds_iff sample_import "./b-plugin.js"
                  empty_plugin_manager plugin_b eq_refl)).
  reflexivity.
Defined.

Lemma unregister_all_cons (t : TaskType) (l : list TaskType)
    (r : TaskRegistry.TaskRegistryImpl) :
  unregister_all (t :: l) r
  = unregister_all l
      (if TaskRegistry.hasTaskType r (name t)
       then {| TaskRegistry.taskTypes := delete (name t) (TaskRegistry.taskTypes r);
               TaskRegistry.taskTypeConfigs :=
                 delete (name t) (TaskRegistry.taskTypeConfigs r) |}
       else r).
Proof. reflexivity. Qed.

(** The loop of [unloadPlugin] cannot fail, since it unregisters only what
    it has just seen registered. *)
Lemma unload_loop_run (l : list TaskType) (m : PluginManager.PluginManagerImpl) :
  for_of l
    (λ taskType,
       do m <- get;
       if TaskRegistry.hasTaskType (PluginManager.registry m) (name taskType)
       then PluginManager.on_registry (TaskRegistry.unregister (name taskType))
       else ret tt) m
  = (inr tt, PluginManager.with_registry (unregister_all l (PluginManager.registry m)) m).
Proof.
  revert m. induction l as [|t l IH]; intros m.
  { by destruct m. }
  rewrite unregister_all_cons. cbn [for_of].
  unfold bind at 1 2, get at 1. cbn beta iota.
  destruct (TaskRegistry.hasTaskType (PluginManager.registry m) (name t)) eqn:Hhas.
  - unfold PluginManager.on_registry, on_field.
    rewrite (unregister_present _ _ Hhas). rewrite IH. by destruct m.
  - unfold ret. rewrite IH. by destruct m.
Qed.

Lemma unloadPlugin_resolved (m : PluginManager.PluginManagerImpl) (pluginName : string)
    (plugin : PluginManager.TaskPlugin) :
  PluginManager.plugins m !! pluginName = Some plugin →
  PluginManager.destroy plugin = inr tt →
  PluginManager.unloadPlugin pluginName m
  = (inr tt,
     {| PluginManager.plugins := delete pluginName (PluginManager.plugins m);
        PluginManager.pluginConfigs := delete pluginName (PluginManager.pluginConfigs m);
        PluginManager.configObjects := PluginManager.configObjects m;
        PluginManager.registry :=
          unregister_all (PluginManager.getTaskTypes plugin) (PluginManager.registry m);
        PluginManager.services := PluginManager.services m |}).
Proof.
  intros Hplugin Hdestroy.
  unfold PluginManager.unloadPlugin, bind at 1, get at 1. cbn beta iota.
  rewrite Hplugin. unfold try_catch, bind at 1, await, uninterrupted. rewrite Hdestroy.
  unfold bind at 1. by rewrite unload_loop_run.
Qed.

Lemma unloadPlugin_rejected (m : PluginManager.PluginManagerImpl) (pluginName : string)
    (plugin : PluginManager.TaskPlugin) (e : Thrown) :
  PluginManager.plugins m !! pluginName = Some plugin →
  PluginManager.destroy plugin = inl e →
  PluginManager.unloadPlugin pluginName m
  = (inl (Error (PluginManager.unload_error_message pluginName (error_text e))), m).
Proof.
  intros Hplugin Hdestroy.
  unfold PluginManager.unloadPlugin, bind at 1, get at 1. cbn beta iota.
  rewrite Hplugin. unfold try_catch, bind at 1, await, uninterrupted.
  by rewrite Hdestroy.
Qed.









(** What a plugin registers on its own in [initialize] is not taken back by
    [unloadPlugin] when it is not among the types of [getTaskTypes]; here it
    is among them, and the load fails on it. *)
Example eager_plugin_collides_with_itself :
  TaskRegistry.hasTaskType (PluginManager.registry empty_plugin_manager) "e" = false
  ∧ ∃ m',
      PluginManager.loadPlugin eager_import "./eager.js" empty_plugin_manager
      = (inl (Error "Failed to load plugin from ./eager.js: Task type e is already registered"),
         m')
      ∧ PluginManager.getPlugin m' "eager" = None
      ∧ TaskRegistry.hasTaskType (PluginManager.registry m') "e" = true
      ∧ ServiceRegistry.hasService (PluginManager.services m') "eager-log" = true.
Proof. split; [reflexivity|]. eexists. split; [reflexivity|]. repeat split. Qed.

(** A configuration reference that is in use is not the one a new object
    gets. *)
Lemma new_config_fresh (m : PluginManager.PluginManagerImpl) (content : PluginManager.PluginConfig)
    (config : nat) :
  is_Some (PluginManager.configObjects m !! config) →
  config ≠ (PluginManager.new_config content m).1.
Proof.
  intros Hused ->. cbn in Hused. apply elem_of_dom in Hused.
  by apply is_fresh in Hused.
Qed.

(** The configuration a name has after its flag was set: the flag is set on
    the stored object, or on a new one that starts from [initial]. *)
Lemma assign_flag_here (m : PluginManager.PluginManagerImpl) (pluginName : string)
    (flag : bool) (initial : PluginManager.PluginConfig) :
  configs_allocated m →
  let '(config, m0) :=
    match PluginManager.pluginConfigs m !! pluginName with
    | Some config => (config, m)
    | None => PluginManager.new_config initial m
    end in
  PluginManager.getPluginConfig
    (PluginManager.registerPluginConfig pluginName config
       (PluginManager.assign_enabled flag config m0)) pluginName
  = Some (PluginManager.with_enabled flag
            (default initial (PluginManager.getPluginConfig m pluginName))).
Proof.
  intros Halloc. unfold PluginManager.getPluginConfig.
  destruct (PluginManager.pluginConfigs m !! pluginName) as [config|] eqn:Hc; cbn.
  - destruct (Halloc _ _ Hc) as [content Hcontent].
    rewrite lookup_insert_eq. cbn. rewrite lookup_alter_eq, Hcontent. done.
  - rewrite lookup_insert_eq. cbn. by rewrite lookup_alter_eq, lookup_insert_eq.
Qed.

(** What another name sees after the flag of [pluginName] was set: the same
    as before, unless it holds the very object of [pluginName]. *)
Lemma assign_flag_elsewhere (m : PluginManager.PluginManagerImpl) (pluginName other : string)
    (flag : bool) (initial : PluginManager.PluginConfig) :
  configs_allocated m →
  other ≠ pluginName →
  let '(config, m0) :=
    match PluginManager.pluginConfigs m !! pluginName with
    | Some config => (config, m)
    | None => PluginManager.new_config initial m
    end in
  let m' := PluginManager.registerPluginConfig pluginName config
              (PluginManager.assign_enabled flag config m0) in
  (¬ same_config_object m pluginName other →
     PluginManager.getPluginConfig m' other = PluginManager.getPluginConfig m other)
  ∧ (same_config_object m pluginName other →
     PluginManager.getPluginConfig m' other
     = PluginManager.with_enabled flag <$> PluginManager.getPluginConfig m other).
Proof.
  intros Halloc Hne. unfold PluginManager.getPluginConfig, same_config_object.
  destruct (PluginManager.pluginConfigs m !! pluginName) as [config|] eqn:Hc; cbn.
  - rewrite lookup_insert_ne by done.
    destruct (PluginManager.pluginConfigs m !! other) as [config'|] eqn:Ho; cbn.
    + split.
      * intros Hdiff. rewrite lookup_alter_ne; [done|].
        intros ->. apply Hdiff. by exists config'.
      * intros (c & [= <-] & [= <-]). rewrite lookup_alter_eq. done.
    + split; [done|]. by intros (c & _ & ?).
  - rewrite lookup_insert_ne by done.
    split; [|by intros (c & ? & _)]. intros _.
    destruct (PluginManager.pluginConfigs m !! other) as [config'|] eqn:Ho; cbn; [|done].
    pose proof (new_config_fresh m initial config' (Halloc _ _ Ho)) as Hfresh.
    cbn in Hfresh.
    rewrite lookup_alter_ne by done. by rewrite lookup_insert_ne by done.
Qed.

(** X23: the enabled flag of a plugin.  A name without configuration counts
    as enabled.  After [disablePlugin] the name is disabled and after
    [enablePlugin] it is enabled, whatever was stored before and whether or
    not such a plugin is loaded; an existing configuration keeps its priority
    and settings, a missing one is created with priority 5 and no settings.
    The flag is set on the stored configuration object itself: another name
    that holds the same object changes with it, every other name keeps its
    configuration.  The loaded plugins are not affected. *)
Theorem enable_disable_plugin (m : PluginManager.PluginManagerImpl) (pluginName : string) :
  configs_allocated m →
  (PluginManager.getPluginConfig m pluginName = None →
     PluginManager.isPluginEnabled m pluginName = true
     ∧ PluginManager.getPluginConfig (PluginManager.enablePlugin pluginName m) pluginName
       = Some PluginManager.default_config
     ∧ PluginManager.getPluginConfig (PluginManager.disablePlugin pluginName m) pluginName
       = Some (PluginManager.with_enabled false PluginManager.default_config))
  ∧ (∀ config,
       PluginManager.getPluginConfig m pluginName = Some config →
       PluginManager.getPluginConfig (PluginManager.enablePlugin pluginName m) pluginName
       = Some (PluginManager.with_enabled true config)
       ∧ PluginManager.getPluginConfig (PluginManager.disablePlugin pluginName m) pluginName
         = Some (PluginManager.with_enabled false config))
  ∧ PluginManager.isPluginEnabled (PluginManager.enablePlugin pluginName m) pluginName = true
  ∧ PluginManager.isPluginEnabled (PluginManager.disablePlugin pluginName m) pluginName
    = false
  ∧ (∀ other, other ≠ pluginName → ¬ same_config_object m pluginName other →
       PluginManager.getPluginConfig (PluginManager.enablePlugin pluginName m) other
       = PluginManager.getPluginConfig m other
       ∧ PluginManager.getPluginConfig (PluginManager.disablePlugin pluginName m) other
         = PluginManager.getPluginConfig m other
       ∧ PluginManager.isPluginEnabled (PluginManager.enablePlugin pluginName m) other
         = PluginManager.isPluginEnabled m other
       ∧ PluginManager.isPluginEnabled (PluginManager.disablePlugin pluginName m) other
         = PluginManager.isPluginEnabled m other)
  ∧ (∀ other, same_config_object m pluginName other →
       PluginManager.isPluginEnabled (PluginManager.enablePlugin pluginName m) other = true
       ∧ PluginManager.isPluginEnabled (PluginManager.disablePlugin pluginName m) other
         = false)
  ∧ PluginManager.plugins (PluginManager.enablePlugin pluginName m) = PluginManager.plugins m
  ∧ PluginManager.plugins (PluginManager.disablePlugin pluginName m)
    = PluginManager.plugins m.
Proof.
  intros Halloc.
  pose proof (assign_flag_here m pluginName true
                {| PluginManager.enabled := false; PluginManager.priority := 5;
                   PluginManager.settings := ∅ |} Halloc) as Hon.
  pose proof (assign_flag_here m pluginName false
                {| PluginManager.enabled := true; PluginManager.priority := 5;
                   PluginManager.settings := ∅ |} Halloc) as Hoff.
  pose proof (λ other, assign_flag_elsewhere m pluginName other true
                {| PluginManager.enabled := false; PluginManager.priority := 5;
                   PluginManager.settings := ∅ |} Halloc) as Hon'.
  pose proof (λ other, assign_flag_elsewhere m pluginName other false
                {| PluginManager.enabled := true; PluginManager.priority := 5;
                   PluginManager.settings := ∅ |} Halloc) as Hoff'.
  unfold PluginManager.isPluginEnabled, PluginManager.enablePlugin,
    PluginManager.disablePlugin.
  destruct (PluginManager.pluginConfigs m !! pluginName) as [config|] eqn:Hc.
  - cbn [PluginManager.new_config] in *.
    rewrite Hon, Hoff.
    split; [by intros ->|]. split; [by intros c ->|].
    do 2 (split; [by destruct (PluginManager.getPluginConfig m pluginName)|]).
    split; [|split; [|done]].
    + intros other Hne Hdiff.
      by rewrite (proj1 (Hon' other Hne) Hdiff), (proj1 (Hoff' other Hne) Hdiff).
    + intros other Hsame.
      destruct (decide (other = pluginName)) as [->|Hne].
      { rewrite Hon, Hoff. by destruct (PluginManager.getPluginConfig m pluginName). }
      rewrite (proj2 (Hon' other Hne) Hsame), (proj2 (Hoff' other Hne) Hsame).
      destruct Hsame as (c & Hc1 & Hc2).
      destruct (Halloc _ _ Hc2) as [content Hcontent].
      unfold PluginManager.getPluginConfig. rewrite Hc2. cbn. by rewrite Hcontent.
  - cbn [PluginManager.new_config] in *.
    rewrite Hon, Hoff.
    assert (Hnone : PluginManager.getPluginConfig m pluginName = None).
    { unfold PluginManager.getPluginConfig. by rewrite Hc. }
    rewrite Hnone. cbn [default].
    split; [done|]. split; [by intros c [=]|]. do 2 (split; [done|]).
    split; [|split; [|done]].
    + intros other Hne Hdiff.
      by rewrite (proj1 (Hon' other Hne) Hdiff), (proj1 (Hoff' other Hne) Hdiff).
    + intros other (c & Hc1 & _). congruence.
Qed.

Lemma enable_disable_plugin_witness :
  configs_allocated manager_sharing
  ∧ same_config_object manager_sharing "b-plugin" "twin"
  ∧ PluginManager.isPluginEnabled manager_sharing "twin" = true
  ∧ PluginManager.isPluginEnabled (PluginManager.disablePlugin "b-plugin" manager_sharing)
      "b-plugin" = false
  ∧ PluginManager.isPluginEnabled (PluginManager.disablePlugin "b-plugin" manager_sharing)
      "twin" = false.
Proof.
  assert (Halloc : configs_allocated manager_sharing).
  { intros n config Hn.
    change (<["twin" := 0]> (<["b-plugin" := 0]> (∅ : gmap string nat)) !! n
            = Some config) in Hn.
    apply lookup_insert_Some in Hn as [[_ <-]|[_ Hn]]; [by eexists|].
    apply lookup_insert_Some in Hn as [[_ <-]|[_ Hn]]; [by eexists|].
    done. }
  assert (Hsame : same_config_object manager_sharing "b-plugin" "twin").
  { by exists 0. }
  destruct (enable_disable_plugin manager_sharing "b-plugin" Halloc)
    as (_ & _ & _ & Hoff & _ & Hshared & _).
  split; [exact Halloc|]. split; [exact Hsame|]. split; [reflexivity|].
  split; [exact Hoff | exact (proj2 (Hshared "twin" Hsame))].
Defined.

Lemma reloadPlugin_unfold (import : string → PluginManager.Imported) (pluginPath : string)
    (m : PluginManager.PluginManagerImpl) :
  PluginManager.reloadPlugin import pluginPath m
  = if Map_has (PluginManager.plugins m) (PluginManager.plugin_name_of_path pluginPath)
    then match PluginManager.unloadPlugin
                 (PluginManager.plugin_name_of_path pluginPath) m with
         | (inr _, m1) => PluginManager.loadPlugin import pluginPath m1
         | (inl e, m1) => (inl e, m1)
         end
    else PluginManager.loadPlugin import pluginPath m.
Proof.
  unfold PluginManager.reloadPlugin, bind at 1, get at 1. cbn beta iota.
  destruct (Map_has _ _); unfold bind; [|done].
  by destruct (PluginManager.unloadPlugin _ m) as [[e|[]] m1].
Qed.

(** X24: [reloadPlugin] finds the plugin to unload by the file name of the
    path, not by the name the plugin gives itself.  When a loaded plugin
    names itself differently from its file and no plugin is loaded under the
    file's name, [reloadPlugin] unloads nothing and then fails with "Failed
    to load plugin from <path>: Plugin <name> is already loaded", leaving the
    manager as it was. *)
Theorem reloadPlugin_name_mismatch
    (import : string → PluginManager.Imported) (pluginPath : string)
    (m : PluginManager.PluginManagerImpl) (plugin : PluginManager.TaskPlugin) :
  import pluginPath = PluginManager.Constructed plugin →
  Map_has (PluginManager.plugins m) (PluginManager.plugin_name plugin) = true →
  Map_has (PluginManager.plugins m) (PluginManager.plugin_name_of_path pluginPath) = false →
  PluginManager.reloadPlugin import pluginPath m
  = (inl (Error ("Failed to load plugin from " ++ pluginPath ++ ": Plugin "
                   ++ PluginManager.plugin_name plugin ++ " is already loaded")), m).
Proof.
  intros Himport Hloaded Hfile.
  rewrite reloadPlugin_unfold, Hfile, (loadPlugin_constructed _ _ _ _ Himport).
  by rewrite Hloaded.
Qed.

Lemma reloadPlugin_name_mismatch_witness :
  PluginManager.plugin_name_of_path "./plugins/b-plugin.v2.js" = "b-plugin.v2"
  ∧ PluginManager.reloadPlugin versioned_import "./plugins/b-plugin.v2.js" manager_with_b
    = (inl (Error "Failed to load plugin from ./plugins/b-plugin.v2.js: Plugin b-plugin is already loaded"),
       manager_with_b).
Proof.
  split; [reflexivity|].
  apply (reloadPlugin_name_mismatch versioned_import "./plugins/b-plugin.v2.js"
           manager_with_b plugin_b); reflexivity.
Defined.



Lemma clear_cons (n : string) (names : list string) (m : PluginManager.PluginManagerImpl) :
  PluginManager.clear (n :: names) m
  = match PluginManager.unloadPlugin n m with
    | (inr _, m1) => PluginManager.clear names m1
    | (inl e, m1) => (inl e, m1)
    end.
Proof.
  unfold PluginManager.clear. cbn [for_of]. unfold bind.
  by destruct (PluginManager.unloadPlugin n m) as [[e|[]] m1].
Qed.

Lemma clear_all_resolve (names : list string) (m : PluginManager.PluginManagerImpl) :
  NoDup names →
  (∀ n, n ∈ names →
     ∃ plugin, PluginManager.plugins m !! n = Some plugin
               ∧ PluginManager.destroy plugin = inr tt) →
  ∃ m',
    PluginManager.clear names m = (inr tt, m')
    ∧ (∀ n, PluginManager.plugins m' !! n
            = if decide (n ∈ names) then None else PluginManager.plugins m !! n)
    ∧ (∀ n, PluginManager.pluginConfigs m' !! n
            = if decide (n ∈ names) then None else PluginManager.pluginConfigs m !! n).
Proof.
  revert m. induction names as [|n0 names IH]; intros m Hnd Hall.
  { exists m. split; [done|].
    split; intros n; by destruct (decide _) as [?%elem_of_nil|]. }
  apply NoDup_cons in Hnd as [Hnotin Hnd].
  destruct (Hall n0) as (plugin & Hplugin & Hdestroy); [by left|].
  rewrite clear_cons, (unloadPlugin_resolved _ _ _ Hplugin Hdestroy).
  destruct (IH {| PluginManager.plugins := delete n0 (PluginManager.plugins m);
                  PluginManager.pluginConfigs := delete n0 (PluginManager.pluginConfigs m);
                  PluginManager.configObjects := PluginManager.configObjects m;
                  PluginManager.registry :=
                    unregister_all (PluginManager.getTaskTypes plugin)
                      (PluginManager.registry m);
                  PluginManager.services := PluginManager.services m |})
    as (m' & Hrun & Hplugins & Hconfigs); [done| |].
  { intros n Hn. cbn. rewrite lookup_delete_ne by (intros ->; done).
    apply Hall. by right. }
  exists m'. split; [done|]. cbn in Hplugins, Hconfigs.
  split; intros n; [rewrite Hplugins | rewrite Hconfigs];
    (destruct (decide (n ∈ names)) as [Hin|Hout];
     [by rewrite decide_True by (by right)|];
     destruct (decide (n = n0)) as [->|Hne];
     [rewrite decide_True by (by left); apply lookup_delete_eq
     |rewrite decide_False by (intros [?|?]%elem_of_cons; done);
      by apply lookup_delete_ne]).
Qed.

(** X26: [clear()] unloads the loaded plugins one after the other.  When the
    [destroy()] of every one of them resolves, it succeeds and leaves no
    plugin and none of their configurations.  When one [destroy()] rejects,
    [clear()] throws "Failed to unload plugin <name>: <message>" for the
    first such plugin in the order of loading: the plugins before it have
    been unloaded, that plugin and all after it are still loaded. *)
Theorem clear_unloads_in_order
    (m : PluginManager.PluginManagerImpl) (pluginNames : list string) :
  NoDup pluginNames →
  (∀ n, n ∈ pluginNames ↔ is_Some (PluginManager.plugins m !! n)) →
  ((∀ n plugin, PluginManager.plugins m !! n = Some plugin →
                PluginManager.destroy plugin = inr tt) →
   ∃ m',
     PluginManager.clear pluginNames m = (inr tt, m')
     ∧ PluginManager.plugins m' = ∅
     ∧ PluginManager.size m' = 0
     ∧ ∀ n, n ∈ pluginNames → PluginManager.getPluginConfig m' n = None)
  ∧ (∀ pre bad post plugin e,
       pluginNames = (pre ++ bad :: post)%list →
       (∀ n p, n ∈ pre → PluginManager.plugins m !! n = Some p →
               PluginManager.destroy p = inr tt) →
       PluginManager.plugins m !! bad = Some plugin →
       PluginManager.destroy plugin = inl e →
       ∃ m',
         PluginManager.clear pluginNames m
         = (inl (Error ("Failed to unload plugin " ++ bad ++ ": " ++ error_text e)), m')
         ∧ (∀ n, n ∈ pre → PluginManager.getPlugin m' n = None)
         ∧ ∀ n, n ∈ bad :: post →
                PluginManager.getPlugin m' n = PluginManager.getPlugin m n).
Proof.
  intros Hnd Hnames. split.
  - intros Hall.
    destruct (clear_all_resolve pluginNames m Hnd) as (m' & Hrun & Hplugins & Hconfigs).
    { intros n [plugin Hplugin]%Hnames. eauto. }
    assert (Hempty : PluginManager.plugins m' = ∅).
    { apply map_eq. intros n. rewrite Hplugins, lookup_empty.
      destruct (decide (n ∈ pluginNames)) as [|Hout]; [done|].
      apply eq_None_not_Some. by rewrite <- Hnames. }
    exists m'. split; [done|]. split; [done|]. split.
    + unfold PluginManager.size. rewrite Hempty. apply map_size_empty.
    + intros n Hn. unfold PluginManager.getPluginConfig.
      by rewrite Hconfigs, decide_True.
  - intros pre bad post plugin e -> Hpre Hbad Hdestroy.
    apply NoDup_app in Hnd as (Hndpre & Hdisjoint & Hndrest).
    destruct (clear_all_resolve pre m Hndpre) as (m1 & Hrun1 & Hplugins1 & _).
    { intros n Hn. destruct (proj1 (Hnames n)) as [p Hp].
      - apply elem_of_app. by left.
      - exists p. split; [done|]. by eapply Hpre. }
    assert (Hsplit : ∀ names m0,
              PluginManager.clear (pre ++ names)%list m0
              = match PluginManager.clear pre m0 with
                | (inr _, m1) => PluginManager.clear names m1
                | (inl e, m1) => (inl e, m1)
                end).
    { intros names. clear. induction pre as [|n pre IH]; intros m0; [done|].
      cbn [app]. rewrite !clear_cons.
      by destruct (PluginManager.unloadPlugin n m0) as [[e|[]] m1]. }
    assert (Hbad1 : PluginManager.plugins m1 !! bad = Some plugin).
    { rewrite Hplugins1, decide_False; [done|].
      intros Hin. apply (Hdisjoint _ Hin). by left. }
    exists m1. rewrite Hsplit, Hrun1, clear_cons.
    rewrite (unloadPlugin_rejected _ _ _ _ Hbad1 Hdestroy).
    split; [done|]. split.
    + intros n Hn. unfold PluginManager.getPlugin. by rewrite Hplugins1, decide_True.
    + intros n Hn. unfold PluginManager.getPlugin. rewrite Hplugins1, decide_False; [done|].
      intros Hin. by apply (Hdisjoint _ Hin).
Qed.

Lemma clear_unloads_in_order_witness :
  ∃ m',
    PluginManager.clear ["b-plugin"] manager_with_b = (inr tt, m')
    ∧ PluginManager.plugins m' = ∅
    ∧ PluginManager.size m' = 0.
Proof.
  assert (Hnames : ∀ n, n ∈ ["b-plugin"]
                        ↔ is_Some (PluginManager.plugins manager_with_b !! n)).
  { intros n. change (PluginManager.plugins manager_with_b)
      with (<["b-plugin" := plugin_b]> (∅ : gmap string PluginManager.TaskPlugin)).
    rewrite list_elem_of_singleton, lookup_insert_is_Some, lookup_empty.
    split; [intros ->; by left | intros [->|[_ []%is_Some_None]]; done]. }
  destruct (proj1 (clear_unloads_in_order manager_with_b ["b-plugin"]
                     (NoDup_singleton _) Hnames))
    as (m' & Hrun & Hempty & Hsize & _).
  { intros n plugin.
    change (PluginManager.plugins manager_with_b)
      with (<["b-plugin" := plugin_b]> (∅ : gmap string PluginManager.TaskPlugin)).
    intros [[_ <-]|[_ Hn]]%lookup_insert_Some; [done|].
    by rewrite lookup_empty in Hn. }
  by exists m'.
Defined.

(** ** More on the task manager *)

Lemma cancelTask_unknown (m : TaskManager.TaskManagerImpl) (taskId : string)
    (reason : option string)
    (interleaved : TaskManager.TaskManagerImpl → TaskManager.TaskManagerImpl) :
  TaskManager.tasks m !! taskId = None →
  TaskManager.cancelTask taskId reason interleaved m
  = (inl (Error (TaskManager.not_found_message taskId)), m).
Proof. intros H. unfold TaskManager.cancelTask, bind, get. cbn. by rewrite H. Qed.

Lemma executeTask_refused (m : TaskManager.TaskManagerImpl) (taskId : string)
    (s : TaskStatus)
    (interleaved : TaskManager.TaskManagerImpl → TaskManager.TaskManagerImpl) :
  TaskManager.taskStates m !! taskId = Some s → s ≠ CREATED → s ≠ QUEUED →
  ∃ message,
    TaskManager.executeTask taskId interleaved m = (inl (Error message), m)
    ∧ (message = TaskManager.not_found_message taskId
       ∨ message = TaskManager.not_executable_message taskId).
Proof.
  intros Hs Hc Hq.
  destruct (TaskManager.tasks m !! taskId) as [task|] eqn:Htask.
  - eexists. split; [|by right].
    apply (executeTask_not_executable _ _ task); [done|..]; rewrite Hs; congruence.
  - eexists. split; [|by left]. by apply executeTask_unknown.
Qed.

(** X27: a task is executed at most once.  After [executeTask] has been
    accepted and has settled, with a result or with an error and whatever
    other callers did meanwhile, and likewise after a [cancelTask] that went
    through, every further [executeTask] for the same id is refused without
    any change: with "Task <id> is not in executable state", or with "Task
    <id> not found" if the task has been disposed of. *)
Theorem executeTask_at_most_once
    (m : TaskManager.TaskManagerImpl) (taskId : string) (task : Task)
    (reason : option string)
    (interleaved again : TaskManager.TaskManagerImpl → TaskManager.TaskManagerImpl) :
  TaskManager.tasks m !! taskId = Some task →
  (TaskManager.taskStates m !! taskId = Some CREATED
   ∨ TaskManager.taskStates m !! taskId = Some QUEUED →
   let m' := (TaskManager.executeTask taskId interleaved m).2 in
   ∃ message,
     TaskManager.executeTask taskId again m' = (inl (Error message), m')
     ∧ (message = "Task " ++ taskId ++ " not found"
        ∨ message = "Task " ++ taskId ++ " is not in executable state"))
  ∧ (cancel task reason = inr tt →
     let m' := (TaskManager.cancelTask taskId reason interleaved m).2 in
     ∃ message,
       TaskManager.executeTask taskId again m' = (inl (Error message), m')
       ∧ (message = "Task " ++ taskId ++ " not found"
          ∨ message = "Task " ++ taskId ++ " is not in executable state")).
Proof.
  intros Htask. split.
  - intros Hs. rewrite (executeTask_accepted _ _ _ _ Htask Hs).
    destruct (execute task _) as [error|result]; cbn [snd]; cbv zeta.
    + apply (executeTask_refused _ _ FAILED); [apply lookup_insert_eq|done..].
    + apply (executeTask_refused _ _ COMPLETED); [apply lookup_insert_eq|done..].
  - intros Hcancel. rewrite (cancelTask_known _ _ _ _ _ Htask), Hcancel.
    cbn [snd]; cbv zeta.
    apply (executeTask_refused _ _ CANCELLED); [apply lookup_insert_eq|done..].
Qed.

Lemma executeTask_at_most_once_witness :
  ∃ message,
    TaskManager.executeTask sample_task_id uninterrupted completed_manager
    = (inl (Error message), completed_manager)
    ∧ (message = "Task " ++ sample_task_id ++ " not found"
       ∨ message = "Task " ++ sample_task_id ++ " is not in executable state").
Proof.
  apply (proj1 (executeTask_at_most_once created_manager sample_task_id sample_task
                  None uninterrupted uninterrupted eq_refl)).
  left. reflexivity.
Defined.

Lemma no_waiting_status_set (m : TaskManager.TaskManagerImpl) (taskId : string)
    (s : TaskStatus) :
  s ≠ QUEUED → s ≠ RETRYING → no_waiting_status m →
  no_waiting_status (TaskManager.taskStates_set taskId s m).
Proof.
  intros Hq Hr Hm id s' Hs'. cbn in Hs'.
  apply lookup_insert_Some in Hs' as [[_ <-]|[_ Hs']]; [done|]. by eapply Hm.
Qed.

(** X28: the manager never records a task as queued or retrying.  This holds
    for a new manager and is kept by [createTask], [executeTask],
    [cancelTask], [pauseTask], [resumeTask] and [dispose], whether they
    succeed or fail, provided whatever runs during their suspensions keeps it
    too.  Hence [executeTask] is only ever accepted for a task whose status
    is [created]: a failed or cancelled task cannot be run again through the
    manager. *)
Theorem manager_never_queues (m : TaskManager.TaskManagerImpl)
    (interleaved : TaskManager.TaskManagerImpl → TaskManager.TaskManagerImpl) :
  no_waiting_status TaskManager.new
  ∧ (no_waiting_status m →
     (∀ m0, no_waiting_status m0 → no_waiting_status (interleaved m0)) →
     (∀ taskType inputs now suffix,
        no_waiting_status (TaskManager.createTask taskType inputs now suffix m).2)
     ∧ (∀ taskId, no_waiting_status (TaskManager.executeTask taskId interleaved m).2)
     ∧ (∀ taskId reason,
          no_waiting_status (TaskManager.cancelTask taskId reason interleaved m).2)
     ∧ (∀ taskId, no_waiting_status (TaskManager.pauseTask taskId interleaved m).2)
     ∧ (∀ taskId, no_waiting_status (TaskManager.resumeTask taskId interleaved m).2)
     ∧ no_waiting_status (TaskManager.dispose m)
     ∧ ∀ taskId result m',
         TaskManager.executeTask taskId interleaved m = (inr result, m') →
         TaskManager.taskStates m !! taskId = Some CREATED).
Proof.
  assert (Hempty : ∀ m0, TaskManager.taskStates m0 = ∅ → no_waiting_status m0).
  { intros m0 H0 id s. rewrite H0. by rewrite lookup_empty. }
  split; [by apply Hempty|]. intros Hm Hk.
  assert (Hset : ∀ id s m0, s ≠ QUEUED → s ≠ RETRYING → no_waiting_status m0 →
                            no_waiting_status (TaskManager.taskStates_set id s m0))
    by (intros; by apply no_waiting_status_set).
  assert (Hactive : ∀ id t m0, no_waiting_status m0 →
                               no_waiting_status (TaskManager.activeTasks_set id t m0))
    by (intros id t m0 H0; exact H0).
  assert (Hdel : ∀ id m0, no_waiting_status m0 →
                          no_waiting_status (TaskManager.activeTasks_delete id m0))
    by (intros id m0 H0; exact H0).
  split; [|split; [|split; [|split; [|split; [|split]]]]].
  - intros taskType inputs now suffix. cbn. by apply Hset.
  - intros taskId.
    destruct (TaskManager.tasks m !! taskId) as [task|] eqn:Htask;
      [|by rewrite executeTask_unknown].
    destruct (decide (TaskManager.taskStates m !! taskId = Some CREATED
                      ∨ TaskManager.taskStates m !! taskId = Some QUEUED)) as [Hs|Hs].
    + rewrite (executeTask_accepted _ _ _ _ Htask Hs).
      destruct (execute task _); cbn [snd];
        apply Hdel, Hset; try done; apply Hk, Hset; try done; by apply Hactive.
    + rewrite (executeTask_not_executable _ _ task); [done..| |]; tauto.
  - intros taskId reason.
    destruct (TaskManager.tasks m !! taskId) as [task|] eqn:Htask;
      [|by rewrite cancelTask_unknown].
    rewrite (cancelTask_known _ _ _ _ _ Htask).
    destruct (cancel task reason); cbn [snd]; [by apply Hk|].
    apply Hdel, Hset; try done. by apply Hk.
  - intros taskId. unfold TaskManager.pauseTask, bind at 1, get at 1. cbn beta iota.
    destruct (TaskManager.tasks m !! taskId) as [task|]; [|done].
    destruct (bool_decide _); [done|].
    unfold bind, await, modify. destruct (pause task); cbn [snd]; [by apply Hk|].
    apply Hset; try done. by apply Hk.
  - intros taskId. unfold TaskManager.resumeTask, bind at 1, get at 1. cbn beta iota.
    destruct (TaskManager.tasks m !! taskId) as [task|]; [|done].
    destruct (bool_decide _); [done|].
    unfold bind, await, modify. destruct (resume task); cbn [snd]; [by apply Hk|].
    apply Hset; try done. by apply Hk.
  - by apply Hempty.
  - intros taskId result m' Hrun.
    destruct (TaskManager.tasks m !! taskId) as [task|] eqn:Htask;
      [|by rewrite executeTask_unknown in Hrun].
    destruct (TaskManager.taskStates m !! taskId) as [s|] eqn:Hs.
    + destruct (Hm _ _ Hs) as [Hq Hr].
      destruct (decide (s = CREATED)) as [->|Hc]; [done|].
      rewrite (executeTask_not_executable _ _ task) in Hrun; [done..| |]; congruence.
    + rewrite (executeTask_not_executable _ _ task) in Hrun; [done..| |]; by rewrite Hs.
Qed.

Lemma manager_never_queues_witness :
  no_waiting_status created_manager ∧ no_waiting_status completed_manager.
Proof.
  assert (Hid : ∀ m0, no_waiting_status m0 → no_waiting_status (uninterrupted m0))
    by (intros m0 H0; exact H0).
  assert (Hcreated : no_waiting_status created_manager).
  { apply (proj2 (manager_never_queues TaskManager.new uninterrupted)
             (proj1 (manager_never_queues TaskManager.new uninterrupted)) Hid). }
  split; [exact Hcreated|].
  apply (proj2 (manager_never_queues created_manager uninterrupted) Hcreated Hid).
Defined.

(** X29: pausing and resuming is a round trip.  For a task recorded as
    running whose [pause()] and [resume()] resolve, [pauseTask] records
    [paused], and a following [resumeTask] records [running] again and
    leaves the manager exactly as it was before the pause. *)
Theorem pauseTask_then_resumeTask
    (m : TaskManager.TaskManagerImpl) (taskId : string) (task : Task) :
  TaskManager.tasks m !! taskId = Some task →
  TaskManager.taskStates m !! taskId = Some RUNNING →
  pause task = inr tt →
  resume task = inr tt →
  ∃ m1,
    TaskManager.pauseTask taskId uninterrupted m = (inr tt, m1)
    ∧ TaskManager.getTaskStatus m1 taskId = Some PAUSED
    ∧ TaskManager.resumeTask taskId uninterrupted m1 = (inr tt, m).
Proof.
  intros Htask Hs Hpause Hresume. eexists.
  split; [by rewrite (pauseTask_running _ _ _ _ Htask Hs), Hpause|].
  split; [apply lookup_insert_eq|].
  rewrite (resumeTask_paused _ _ task); [|done|apply lookup_insert_eq].
  rewrite Hresume. unfold uninterrupted. f_equal.
  destruct m as [tasks states active services machine]. cbn in *.
  unfold TaskManager.taskStates_set. cbn.
  by rewrite insert_insert_eq, insert_id.
Qed.

Lemma pauseTask_then_resumeTask_witness :
  ∃ m1,
    TaskManager.pauseTask sample_task_id uninterrupted running_manager = (inr tt, m1)
    ∧ TaskManager.getTaskStatus m1 sample_task_id = Some PAUSED
    ∧ TaskManager.resumeTask sample_task_id uninterrupted m1 = (inr tt, running_manager).
Proof.
  apply (pauseTask_then_resumeTask running_manager sample_task_id sample_task);
    reflexivity.
Defined.

(** X30: [dispose()] does not stop a running execution, and the execution
    writes into the disposed manager.  When [dispose()] is called while an
    accepted [executeTask] is suspended, the call still settles as the task
    does; afterwards the manager holds no task and no active task, yet
    [getTaskStatus] reports [completed] or [failed] for the id, and a further
    [executeTask] for it throws "Task <id> not found". *)
Theorem dispose_during_execution
    (m : TaskManager.TaskManagerImpl) (taskId : string) (task : Task)
    (again : TaskManager.TaskManagerImpl → TaskManager.TaskManagerImpl) :
  TaskManager.tasks m !! taskId = Some task →
  TaskManager.taskStates m !! taskId = Some CREATED
  ∨ TaskManager.taskStates m !! taskId = Some QUEUED →
  let run := TaskManager.executeTask taskId TaskManager.dispose m in
  run.1 = execute task (TaskManager.execution_context m)
  ∧ TaskManager.tasks run.2 = ∅
  ∧ TaskManager.activeTasks run.2 = ∅
  ∧ TaskManager.getTask run.2 taskId = None
  ∧ TaskManager.getTaskStatus run.2 taskId
    = Some (match execute task (TaskManager.execution_context m) with
            | inl _ => FAILED
            | inr _ => COMPLETED
            end)
  ∧ TaskManager.executeTask taskId again run.2
    = (inl (Error ("Task " ++ taskId ++ " not found")), run.2).
Proof.
  intros Htask Hs run. subst run.
  rewrite (executeTask_accepted _ _ _ _ Htask Hs).
  destruct (execute task _) as [error|result]; cbn [fst snd];
    (split; [done|]; split; [done|]; split; [apply delete_empty|];
     split; [apply lookup_empty|]; split; [apply lookup_insert_eq|];
     apply executeTask_unknown; apply lookup_empty).
Qed.

Lemma dispose_during_execution_witness :
  let run := TaskManager.executeTask sample_task_id TaskManager.dispose created_manager in
  TaskManager.getTask run.2 sample_task_id = None
  ∧ TaskManager.getTaskStatus run.2 sample_task_id = Some COMPLETED.
Proof.
  destruct (dispose_during_execution created_manager sample_task_id sample_task
              uninterrupted eq_refl (or_introl eq_refl))
    as (_ & _ & _ & Hgone & Hstatus & _).
  split; [exact Hgone | exact Hstatus].
Defined.
